(** * UT Assert (utassert.c): counters, comparison engine and report text

    A shallow embedding of the assertion library of the OSAL unit test
    framework.  The process-wide objects of utassert.c (the two counter
    aggregates, the segment name, the default context) and the text handed
    to the board-support package are gathered in one record that every
    function threads through.

    Data model (LP64): [uint32] is a 32 bit unsigned integer, [size_t],
    [unsigned long] and [uintmax_t] are 64 bit unsigned, [long] and
    [intmax_t] 64 bit two's complement, [int] 32 bit two's complement.
    Integers are [Z] with the wrap-around of every conversion written out.
    A C string argument is a [string] holding the characters before its
    terminator; a character buffer that may lack a terminator is a
    [list ascii] holding the bytes of the object behind the pointer.

    Calls are taken one at a time: UT_BSP_Lock and UT_BSP_Unlock bracket the
    updates of the counters and have no effect of their own on one thread. *)

From Stdlib Require Import ZArith List String Ascii Bool Lia.
From stdpp Require Import base list.

Local Open Scope string_scope.
Local Open Scope Z_scope.

(** ** Machine integers *)

Module CInt.

Definition to_unsigned (w z : Z) : Z := z mod 2 ^ w.

Definition to_signed (w z : Z) : Z := (z + 2 ^ (w - 1)) mod 2 ^ w - 2 ^ (w - 1).

Definition uint8 (z : Z) : Z := to_unsigned 8 z.
Definition uint32 (z : Z) : Z := to_unsigned 32 z.
Definition uintmax (z : Z) : Z := to_unsigned 64 z.
Definition ulong (z : Z) : Z := to_unsigned 64 z.
Definition size_t (z : Z) : Z := to_unsigned 64 z.
Definition intmax (z : Z) : Z := to_signed 64 z.
Definition long (z : Z) : Z := to_signed 64 z.
Definition int (z : Z) : Z := to_signed 32 z.

Definition SIZE_MAX : Z := 2 ^ 64 - 1.

End CInt.
Export CInt.

(** ** Text produced by the printf family *)

Module Text.

Definition digit_char (d : Z) : ascii :=
  ascii_of_nat (Z.to_nat (if d <? 10 then 48 + d else 87 + d)).

(** Digits of [n] in [base], most significant first, in front of [acc]. *)
Fixpoint to_digits (base : Z) (fuel : nat) (n : Z) (acc : string) : string :=
  match fuel with
  | O => acc
  | S fuel' =>
      let acc' := String (digit_char (n mod base)) acc in
      if n / base =? 0 then acc' else to_digits base fuel' (n / base) acc'
  end.

(** [%u], [%lu], [%lo], [%lx] of a value below 2^64. *)
Definition fmt_unsigned (base n : Z) : string := to_digits base 64 n "".

(** [%ld] *)
Definition fmt_signed (n : Z) : string :=
  if n <? 0 then "-" ++ fmt_unsigned 10 (- n) else fmt_unsigned 10 n.

Fixpoint fill (c : ascii) (n : nat) : string :=
  match n with
  | O => ""
  | S n' => String c (fill c n')
  end.

(** Field width with zero fill ([%02u]) and left justification ([%-4u]). *)
Definition pad_zero (w : nat) (s : string) : string :=
  fill "0"%char (w - String.length s) ++ s.

Definition pad_right (w : nat) (s : string) : string :=
  s ++ fill " "%char (w - String.length s).

(** What snprintf leaves in a buffer of [size] bytes. *)
Definition snprintf (size : nat) (s : string) : string :=
  substring 0 (size - 1) s.

(** The number a digit string denotes, for reading a rendering back. *)
Definition digit_value (c : ascii) : Z :=
  let n := Z.of_nat (nat_of_ascii c) in
  if n <? 58 then n - 48 else n - 87.

Fixpoint digits_value (base : Z) (s : string) (acc : Z) : Z :=
  match s with
  | EmptyString => acc
  | String c s' => digits_value base s' (acc * base + digit_value c)
  end.

End Text.
Export Text.

(** ** Enumerations of utassert.h *)

Definition UTASSERT_CASETYPE_NONE : Z := 0.
Definition UTASSERT_CASETYPE_ABORT : Z := 1.
Definition UTASSERT_CASETYPE_FAILURE : Z := 2.
Definition UTASSERT_CASETYPE_TSF : Z := 3.
Definition UTASSERT_CASETYPE_TTF : Z := 4.
Definition UTASSERT_CASETYPE_MIR : Z := 5.
Definition UTASSERT_CASETYPE_WARN : Z := 6.
Definition UTASSERT_CASETYPE_NA : Z := 7.
Definition UTASSERT_CASETYPE_BEGIN : Z := 8.
Definition UTASSERT_CASETYPE_END : Z := 9.
Definition UTASSERT_CASETYPE_INFO : Z := 10.
Definition UTASSERT_CASETYPE_PASS : Z := 11.
Definition UTASSERT_CASETYPE_FLOW : Z := 12.
Definition UTASSERT_CASETYPE_DEBUG : Z := 13.
Definition UTASSERT_CASETYPE_MAX : Z := 14.

(** ** Counter store *)

Record UtAssert_TestCounter_t : Type := mkCounter {
  TestSegmentCount : Z;
  TotalTestCases : Z;
  CaseCount : list Z
}.

(** [= {0}] and [memset(&c, 0, sizeof(c))]. *)
Definition counter_zero : UtAssert_TestCounter_t :=
  mkCounter 0 0 (replicate (Z.to_nat UTASSERT_CASETYPE_MAX) 0).

(** [c.CaseCount[i]] *)
Definition case_get (c : list Z) (i : Z) : Z := default 0 (c !! Z.to_nat i).

(** [++c.CaseCount[i]] and [c.CaseCount[i] += d] on uint32 cells. *)
Definition case_add (c : list Z) (i : Z) (d : Z) : list Z :=
  <[Z.to_nat i := uint32 (case_get c i + d)]> c.

(** What the board-support package is handed. *)
Inductive bsp_event : Type :=
| UT_BSP_DoText (MessageType : Z) (OutputMessage : string)
| UT_BSP_StartTestSegment (SegmentNumber : Z) (SegmentName : string).

Record ut_state : Type := mkState {
  DefaultContext : Z;
  UT_SegmentCounters : UtAssert_TestCounter_t;
  UT_TotalCounters : UtAssert_TestCounter_t;
  CurrentSegment : string;
  bsp_log : list bsp_event
}.

Definition ut_initial : ut_state :=
  mkState UTASSERT_CASETYPE_FAILURE counter_zero counter_zero "" [].

Definition bsp_emit (e : bsp_event) (st : ut_state) : ut_state :=
  mkState (DefaultContext st) (UT_SegmentCounters st) (UT_TotalCounters st)
          (CurrentSegment st) (bsp_log st ++ [e]).

Definition is_path_sep (c : ascii) : bool :=
  (Ascii.eqb c "/" || Ascii.eqb c "\")%bool.

(** The scan of UtAssert_DoReport from the end of [File] towards its start;
    the result is the offset of [BasePtr] in [File]. *)
Fixpoint DoReport_scan (File : string) (FileLen : nat) : nat :=
  match FileLen with
  | O => O
  | S n =>
      match String.get n File with
      | Some c => if is_path_sep c then S n else DoReport_scan File n
      | None => DoReport_scan File n
      end
  end.

Definition DoReport_base (File : string) : string :=
  let FileLen := Z.to_nat (uint32 (Z.of_nat (String.length File))) in
  let off := DoReport_scan File FileLen in
  substring off (String.length File - off) File.

Definition UtAssert_DoReport (File : string) (LineNum SegmentNum TestSeq MessageType : Z)
    (SubsysName ShortDesc : string) (st : ut_state) : ut_state :=
  let ReportBuffer :=
    snprintf 320
      (pad_zero 2 (fmt_unsigned 10 (uint32 SegmentNum)) ++ "." ++
       pad_zero 3 (fmt_unsigned 10 (uint32 TestSeq)) ++ " " ++
       DoReport_base File ++ ":" ++ fmt_unsigned 10 (uint32 LineNum) ++ " - " ++
       ShortDesc) in
  bsp_emit (UT_BSP_DoText MessageType ReportBuffer) st.

Definition count_field (label : string) (c : UtAssert_TestCounter_t) (i : Z) : string :=
  label ++ "::" ++ pad_right 4 (fmt_unsigned 10 (case_get (CaseCount c) i)).

Definition UtAssert_DoTestSegmentReport (SegmentName : string)
    (TestCounters : UtAssert_TestCounter_t) (st : ut_state) : ut_state :=
  let line1 :=
    snprintf 144
      (pad_right 22 "" ++ " " ++
       count_field "ABORT" TestCounters UTASSERT_CASETYPE_ABORT ++ "  " ++
       count_field "WARN" TestCounters UTASSERT_CASETYPE_WARN ++ "  " ++
       count_field "FLOW" TestCounters UTASSERT_CASETYPE_FLOW ++ "  " ++
       count_field "DEBUG" TestCounters UTASSERT_CASETYPE_DEBUG ++ "  " ++
       count_field "N/A" TestCounters UTASSERT_CASETYPE_NA) in
  let line2 :=
    snprintf 144
      (pad_zero 2 (fmt_unsigned 10 (TestSegmentCount TestCounters)) ++ " " ++
       pad_right 20 SegmentName ++ " " ++
       "TOTAL::" ++ pad_right 4 (fmt_unsigned 10 (TotalTestCases TestCounters)) ++ "  " ++
       count_field "PASS" TestCounters UTASSERT_CASETYPE_PASS ++ "  " ++
       count_field "FAIL" TestCounters UTASSERT_CASETYPE_FAILURE ++ "  " ++
       count_field "MIR" TestCounters UTASSERT_CASETYPE_MIR ++ "  " ++
       count_field "TSF" TestCounters UTASSERT_CASETYPE_TSF ++ "  " ++
       count_field "TTF" TestCounters UTASSERT_CASETYPE_TTF) in
  bsp_emit (UT_BSP_DoText UTASSERT_CASETYPE_END line2)
    (bsp_emit (UT_BSP_DoText UTASSERT_CASETYPE_INFO line1) st).

Definition UtAssert_GetPassCount (st : ut_state) : Z :=
  case_get (CaseCount (UT_TotalCounters st)) UTASSERT_CASETYPE_PASS.

Definition UtAssert_GetFailCount (st : ut_state) : Z :=
  case_get (CaseCount (UT_TotalCounters st)) UTASSERT_CASETYPE_FAILURE.

Definition UtAssert_GetCounters (st : ut_state) : UtAssert_TestCounter_t :=
  UT_TotalCounters st.

(** strncpy into [CurrentSegment[64]] followed by the forced terminator. *)
Definition UtAssert_BeginTest (SegmentName : string) (st : ut_state) : ut_state :=
  let TestSegmentCount := uint32 (1 + TestSegmentCount (UT_TotalCounters st)) in
  bsp_emit (UT_BSP_StartTestSegment TestSegmentCount SegmentName)
    (mkState (DefaultContext st) counter_zero (UT_TotalCounters st)
             (substring 0 63 SegmentName) (bsp_log st)).

Definition UtAssert_GetSegmentName (st : ut_state) : string := CurrentSegment st.

(** The loop [for (Ct = 0; Ct < UTASSERT_CASETYPE_MAX; ++Ct)] of UtAssert_EndTest. *)
Definition fold_cases (Seg Tot : list Z) : list Z :=
  foldl (fun acc Ct => case_add acc (Z.of_nat Ct) (case_get Seg (Z.of_nat Ct)))
        Tot (seq 0 (Z.to_nat UTASSERT_CASETYPE_MAX)).

Definition UtAssert_EndTest (st : ut_state) : ut_state :=
  let Seg := UT_SegmentCounters st in
  let Tot := UT_TotalCounters st in
  let SegmentValid := 0 <? TotalTestCases Seg in
  if SegmentValid then
    let n := uint32 (TestSegmentCount Tot + 1) in
    let Tot' := mkCounter n (uint32 (TotalTestCases Tot + TotalTestCases Seg))
                          (fold_cases (CaseCount Seg) (CaseCount Tot)) in
    let Local_SegmentCounters := mkCounter n (TotalTestCases Seg) (CaseCount Seg) in
    let Local_SegmentName := CurrentSegment st in
    UtAssert_DoTestSegmentReport Local_SegmentName Local_SegmentCounters
      (mkState (DefaultContext st) counter_zero Tot' (CurrentSegment st) (bsp_log st))
  else
    bsp_emit (UT_BSP_DoText UTASSERT_CASETYPE_END ("No test cases" ++ String "010"%char ""))
      (mkState (DefaultContext st) counter_zero Tot (CurrentSegment st) (bsp_log st)).

Definition UtAssert_SetContext (Context : Z) (st : ut_state) : ut_state :=
  mkState Context (UT_SegmentCounters st) (UT_TotalCounters st)
          (CurrentSegment st) (bsp_log st).

Definition UtAssert_GetContext (st : ut_state) : Z := DefaultContext st.

(** [Message] is the expansion of [MessageFormat] with its arguments; the
    function stores it in [FinalMessage[256]]. *)
Definition UtAssertEx (Expression : bool) (CaseType : Z) (File : string) (Line : Z)
    (Message : string) (st : ut_state) : bool * ut_state :=
  let Seg := UT_SegmentCounters st in
  let CaseType := if Expression then UTASSERT_CASETYPE_PASS else CaseType in
  let cases :=
    if uint32 CaseType <? UTASSERT_CASETYPE_MAX
    then case_add (CaseCount Seg) (uint32 CaseType) 1
    else CaseCount Seg in
  let Seg' := mkCounter (TestSegmentCount Seg) (uint32 (TotalTestCases Seg + 1)) cases in
  let TestSegmentCount := uint32 (1 + TestSegmentCount (UT_TotalCounters st)) in
  let TotalTestCases := TotalTestCases Seg' in
  let FinalMessage := snprintf 256 Message in
  (Expression,
   UtAssert_DoReport File Line TestSegmentCount TotalTestCases (uint8 CaseType)
     (CurrentSegment st) FinalMessage
     (mkState (DefaultContext st) Seg' (UT_TotalCounters st) (CurrentSegment st)
              (bsp_log st))).

Definition UtAssert (Expression : bool) (Description File : string) (Line : Z)
    (st : ut_state) : bool * ut_state :=
  UtAssertEx Expression (UtAssert_GetContext st) File Line Description st.

Definition UtAssert_Abort (Message : string) (st : ut_state) : ut_state :=
  bsp_emit (UT_BSP_DoText UTASSERT_CASETYPE_ABORT Message) st.

(** ** Sequences of calls into the counter store *)

Inductive ut_call : Type :=
| Call_BeginTest (SegmentName : string)
| Call_EndTest
| Call_AssertEx (Expression : bool) (CaseType : Z) (File : string) (Line : Z)
                (Message : string).

Definition ut_step (st : ut_state) (c : ut_call) : ut_state :=
  match c with
  | Call_BeginTest name => UtAssert_BeginTest name st
  | Call_EndTest => UtAssert_EndTest st
  | Call_AssertEx e ct f l m => snd (UtAssertEx e ct f l m st)
  end.

Definition ut_run (calls : list ut_call) (st : ut_state) : ut_state :=
  foldl ut_step st calls.

(** The classification a recorded case ends up with indexes [CaseCount]. *)
Definition case_in_range (c : ut_call) : bool :=
  match c with
  | Call_AssertEx e ct _ _ _ => e || (uint32 ct <? UTASSERT_CASETYPE_MAX)
  | _ => true
  end.

Definition sum_cases (l : list Z) : Z := foldr Z.add 0 l.

(** Total and per-classification counts agree as uint32 values. *)
Definition counters_agree (c : UtAssert_TestCounter_t) : Prop :=
  TotalTestCases c = uint32 (sum_cases (CaseCount c)).

Definition cell_ok (x : Z) : Prop := 0 <= x < 2 ^ 32.

Definition counter_wf (c : UtAssert_TestCounter_t) : Prop :=
  length (CaseCount c) = Z.to_nat UTASSERT_CASETYPE_MAX /\ Forall cell_ok (CaseCount c).

Definition add32 (t s : Z) : Z := uint32 (t + s).

(** The classification UtAssertEx counts and reports. *)
Definition resolved_case (Expression : bool) (CaseType : Z) : Z :=
  if Expression then UTASSERT_CASETYPE_PASS else CaseType.

(** What holds after [n] calls that all resolve to a counted classification. *)
Definition run_inv (n : Z) (st : ut_state) : Prop :=
  counter_wf (UT_SegmentCounters st) /\ counter_wf (UT_TotalCounters st) /\
  counters_agree (UT_SegmentCounters st) /\ counters_agree (UT_TotalCounters st) /\
  sum_cases (CaseCount (UT_SegmentCounters st)) +
  sum_cases (CaseCount (UT_TotalCounters st)) <= n.

Definition sample_calls : list ut_call :=
  [Call_BeginTest "A";
   Call_AssertEx true UTASSERT_CASETYPE_FAILURE "t.c" 10 "ok";
   Call_AssertEx false UTASSERT_CASETYPE_MIR "t.c" 11 "inspect";
   Call_AssertEx false UTASSERT_CASETYPE_FAILURE "t.c" 12 "bad";
   Call_EndTest].


(** ** Comparison kinds and print radix *)

Definition UtAssert_Compare_EQ : Z := 1.
Definition UtAssert_Compare_NEQ : Z := 2.
Definition UtAssert_Compare_LT : Z := 3.
Definition UtAssert_Compare_GT : Z := 4.
Definition UtAssert_Compare_LTEQ : Z := 5.
Definition UtAssert_Compare_GTEQ : Z := 6.

(** Modelled from the spec: the two bitmask kinds that utassert.c switches
    on are missing from the UtAssert_Compare_t of the header at hand; they
    follow UtAssert_Compare_GTEQ, in the order in which the spec lists the
    kinds, and push the closing placeholder back. *)
Definition UtAssert_Compare_BITMASK_SET : Z := 7.
Definition UtAssert_Compare_BITMASK_UNSET : Z := 8.

Definition UtAssert_Radix_DEFAULT : Z := 0.
Definition UtAssert_Radix_OCTAL : Z := 8.
Definition UtAssert_Radix_DECIMAL : Z := 10.
Definition UtAssert_Radix_HEX : Z := 16.

(** Modelled from the spec: the radix "boolean" of the spec is missing from
    the UtAssert_Radix_t of the header at hand; any value apart from the four
    above serves, 1 is taken. *)
Definition UtAssert_Radix_BOOLEAN : Z := 1.

(** Modelled from the spec: UT_IntCheck_t, the type of the checked values, is
    missing from the header at hand; the spec has the comparator work on the
    widest integer representation, so a value is converted as to intmax_t. *)
Definition UT_IntCheck (z : Z) : Z := intmax z.

Definition UtAssert_GetOpText (CompareType : Z) : string :=
  if CompareType =? UtAssert_Compare_EQ then "=="
  else if CompareType =? UtAssert_Compare_NEQ then "!="
  else if CompareType =? UtAssert_Compare_LT then "<"
  else if CompareType =? UtAssert_Compare_GT then ">"
  else if CompareType =? UtAssert_Compare_LTEQ then "<="
  else if CompareType =? UtAssert_Compare_GTEQ then ">="
  else if CompareType =? UtAssert_Compare_BITMASK_SET then "&"
  else if CompareType =? UtAssert_Compare_BITMASK_UNSET then "&~"
  else "??".

(** ** Value comparator *)

(** UtAssert_IntBuf_t: one 64 bit cell, written and read through either
    member of the union. *)
Record UtAssert_IntBuf_t : Type := mkIntBuf { IntBuf_bits : Z }.

Definition IntBuf_of_u (v : Z) : UtAssert_IntBuf_t := mkIntBuf (uintmax v).
Definition IntBuf_of_s (v : Z) : UtAssert_IntBuf_t := mkIntBuf (uintmax (intmax v)).
Definition IntBuf_u (b : UtAssert_IntBuf_t) : Z := IntBuf_bits b.
Definition IntBuf_s (b : UtAssert_IntBuf_t) : Z := intmax (IntBuf_bits b).

(** [#define UT_COMPARE_TYPE(t, s) (((t) << 1) | (s))].  UtAssert_Compare_t
    has no negative enumerator, so a value of it is a 32 bit unsigned int:
    the shift is done in 32 bits and drops the top bit of [t]. *)
Definition UT_COMPARE_TYPE (t : Z) (s : bool) : Z :=
  Z.lor (uint32 (Z.shiftl (uint32 t) 1)) (Z.b2z s).

Definition UtAssert_DoCompare (ActualValueIn CompareType ReferenceValueIn : Z)
    (IsUnsigned : bool) : bool :=
  let ActualValue := if IsUnsigned then IntBuf_of_u ActualValueIn
                     else IntBuf_of_s ActualValueIn in
  let ReferenceValue := if IsUnsigned then IntBuf_of_u ReferenceValueIn
                        else IntBuf_of_s ReferenceValueIn in
  let au := IntBuf_u ActualValue in
  let ru := IntBuf_u ReferenceValue in
  let a_s := IntBuf_s ActualValue in
  let r_s := IntBuf_s ReferenceValue in
  let sel := UT_COMPARE_TYPE CompareType IsUnsigned in
  if sel =? UT_COMPARE_TYPE UtAssert_Compare_EQ true then au =? ru
  else if sel =? UT_COMPARE_TYPE UtAssert_Compare_EQ false then a_s =? r_s
  else if sel =? UT_COMPARE_TYPE UtAssert_Compare_NEQ true then negb (au =? ru)
  else if sel =? UT_COMPARE_TYPE UtAssert_Compare_NEQ false then negb (a_s =? r_s)
  else if sel =? UT_COMPARE_TYPE UtAssert_Compare_LT true then au <? ru
  else if sel =? UT_COMPARE_TYPE UtAssert_Compare_LT false then a_s <? r_s
  else if sel =? UT_COMPARE_TYPE UtAssert_Compare_GT true then au >? ru
  else if sel =? UT_COMPARE_TYPE UtAssert_Compare_GT false then a_s >? r_s
  else if sel =? UT_COMPARE_TYPE UtAssert_Compare_LTEQ true then au <=? ru
  else if sel =? UT_COMPARE_TYPE UtAssert_Compare_LTEQ false then a_s <=? r_s
  else if sel =? UT_COMPARE_TYPE UtAssert_Compare_GTEQ true then au >=? ru
  else if sel =? UT_COMPARE_TYPE UtAssert_Compare_GTEQ false then a_s >=? r_s
  else if sel =? UT_COMPARE_TYPE UtAssert_Compare_BITMASK_SET true
       then Z.land au ru =? ru
  else if sel =? UT_COMPARE_TYPE UtAssert_Compare_BITMASK_SET false
       then Z.land a_s r_s =? r_s
  else if sel =? UT_COMPARE_TYPE UtAssert_Compare_BITMASK_UNSET true
       then Z.land au ru =? 0
  else if sel =? UT_COMPARE_TYPE UtAssert_Compare_BITMASK_UNSET false
       then Z.land a_s r_s =? 0
  else false.

(** The operand as the comparison reads it under the signedness flag. *)
Definition operand (IsUnsigned : bool) (v : Z) : Z :=
  if IsUnsigned then uintmax v else intmax v.

Definition supported_kind (CompareType : Z) : bool :=
  (UtAssert_Compare_EQ <=? CompareType) && (CompareType <=? UtAssert_Compare_BITMASK_UNSET).

(** ** Value text *)

Definition UtAssert_GetValueText (TempSz : nat) (InValue : Z) (IsUnsigned : bool)
    (RadixType : Z) : string :=
  if RadixType =? UtAssert_Radix_BOOLEAN then
    if negb (InValue =? 0) then snprintf TempSz "true" else snprintf TempSz "false"
  else if RadixType =? UtAssert_Radix_OCTAL then
    snprintf TempSz ("0" ++ fmt_unsigned 8 (ulong InValue))
  else if RadixType =? UtAssert_Radix_HEX then
    snprintf TempSz ("0x" ++ fmt_unsigned 16 (ulong InValue))
  else if IsUnsigned then
    snprintf TempSz (fmt_unsigned 10 (ulong InValue))
  else
    snprintf TempSz (fmt_signed (long InValue)).

(** ** Generic integer compare *)

Definition isspace (c : ascii) : bool :=
  let n := nat_of_ascii c in
  (Nat.eqb n 32 || (Nat.leb 9 n && Nat.leb n 13))%bool.

Definition is_tag_trailer (c : ascii) : bool := (isspace c || Ascii.eqb c ":")%bool.

(** The loop [while (TagLen > 0 && (isspace(TagStr[TagLen - 1]) || ...))]. *)
Fixpoint tag_trim (TagStr : string) (TagLen : nat) : nat :=
  match TagLen with
  | O => O
  | S n =>
      match String.get n TagStr with
      | Some c => if is_tag_trailer c then tag_trim TagStr n else TagLen
      | None => TagLen
      end
  end.

Fixpoint strchr_found (c : ascii) (s : string) : bool :=
  match s with
  | EmptyString => false
  | String d s' => (Ascii.eqb d c || strchr_found c s')%bool
  end.

Definition UTASSERT_PREFIX : string := "UTASSERT_".

(** [if (strncmp(Text, UTASSERT_PREFIX, sizeof(UTASSERT_PREFIX) - 1) == 0)
    Text += sizeof(UTASSERT_PREFIX) - 1] *)
Definition skip_prefix (Text : string) : string :=
  if String.prefix UTASSERT_PREFIX Text
  then substring (String.length UTASSERT_PREFIX)
                 (String.length Text - String.length UTASSERT_PREFIX) Text
  else Text.

(** The contents of [TagStr[32]] when the message is formatted. *)
Definition GenericIntegerCompare_tag (Typename : option string) : string :=
  match Typename with
  | Some (String c t) =>
      let name := String c t in
      let TagStr := snprintf 32 name in
      let TagLen := int (Z.of_nat (String.length name)) in
      let TagLen := if TagLen <? 0 then 0
                    else if size_t TagLen >? 32 - 3 then 32 - 3 else TagLen in
      let TagLen := tag_trim TagStr (Z.to_nat TagLen) in
      if Nat.ltb 0 TagLen then substring 0 TagLen TagStr ++ ": " else ""
  | _ => ""
  end.

Definition GenericIntegerCompare_radix (Typename : option string) (RadixType : Z) : Z :=
  match Typename with
  | Some (String c t) =>
      if ((RadixType =? UtAssert_Radix_DEFAULT) && strchr_found "*" (String c t))%bool
      then UtAssert_Radix_HEX else RadixType
  | _ => RadixType
  end.

Definition GenericIntegerCompare_message (IsUnsigned : bool) (ActualValue CompareType
    RefValue RadixType : Z) (Typename : option string) (ActualText RefText : string)
    : string :=
  let TagStr := GenericIntegerCompare_tag Typename in
  let RadixType := GenericIntegerCompare_radix Typename RadixType in
  TagStr ++ skip_prefix ActualText ++ " (" ++
  UtAssert_GetValueText 32 ActualValue IsUnsigned RadixType ++ ") " ++
  UtAssert_GetOpText CompareType ++ " " ++ skip_prefix RefText ++ " (" ++
  UtAssert_GetValueText 32 RefValue IsUnsigned RadixType ++ ")".

Definition UtAssert_GenericIntegerCompare (IsUnsigned : bool) (ActualValue CompareType
    RefValue : Z) (File : string) (Line RadixType : Z) (Typename : option string)
    (ActualText RefText : string) (st : ut_state) : bool * ut_state :=
  UtAssertEx (UtAssert_DoCompare (intmax ActualValue) CompareType RefValue IsUnsigned)
    UTASSERT_CASETYPE_FAILURE File Line
    (GenericIntegerCompare_message IsUnsigned ActualValue CompareType RefValue RadixType
       Typename ActualText RefText) st.

Definition UtAssert_GenericUnsignedCompare (ActualValue CompareType ReferenceValue
    RadixType : Z) (File : string) (Line : Z) (Desc : option string)
    (ActualText ReferenceText : string) (st : ut_state) : bool * ut_state :=
  UtAssert_GenericIntegerCompare true (UT_IntCheck (ulong ActualValue)) CompareType
    (UT_IntCheck (ulong ReferenceValue)) File Line RadixType Desc ActualText
    ReferenceText st.

Definition UtAssert_GenericSignedCompare (ActualValue CompareType ReferenceValue
    RadixType : Z) (File : string) (Line : Z) (Desc : option string)
    (ActualText ReferenceText : string) (st : ut_state) : bool * ut_state :=
  UtAssert_GenericIntegerCompare false (UT_IntCheck (long ActualValue)) CompareType
    (UT_IntCheck (long ReferenceValue)) File Line RadixType Desc ActualText
    ReferenceText st.

(** The tag prefix in the words of the spec: the type tag without its
    trailing white space and colons, followed by a colon and a blank. *)
Fixpoint spec_rtrim (s : string) : string :=
  match s with
  | EmptyString => EmptyString
  | String c s' =>
      match spec_rtrim s' with
      | EmptyString => if is_tag_trailer c then EmptyString else String c EmptyString
      | r => String c r
      end
  end.

Definition spec_tag_prefix (tag : string) : string :=
  match spec_rtrim tag with
  | EmptyString => EmptyString
  | t => t ++ ": "
  end.

Definition spec_label (label : string) : string :=
  if String.prefix "UTASSERT_" label then substring 9 (String.length label - 9) label
  else label.

(** The number a signed decimal rendering denotes. *)
Definition signed_text_value (s : string) : Z :=
  match s with
  | String c s' => if Ascii.eqb c "-" then - digits_value 10 s' 0 else digits_value 10 s 0
  | EmptyString => 0
  end.

Definition typename_length (Typename : option string) : Z :=
  match Typename with
  | Some t => Z.of_nat (String.length t)
  | None => 0
  end.

(** The type tag as far as [TagStr[32]] keeps it: room is left for the colon,
    the blank and the terminator. *)
Definition kept_tag (Typename : option string) : string :=
  match Typename with
  | Some t => substring 0 29 t
  | None => EmptyString
  end.

(** The message of the generic integer compare in the words of the spec. *)
Definition spec_compare_message (tag actualText actualValueText opText referenceText
    referenceValueText : string) : string :=
  tag ++ actualText ++ " (" ++ actualValueText ++ ") " ++ opText ++ " " ++
  referenceText ++ " (" ++ referenceValueText ++ ")".

Definition thirty_a : string := "aaaaaaaaaaaaaaaaaaaaaaaaaaaaaa".

(** ** Character buffers and the C library calls on them

    A pointer to characters is [None] when it is null and otherwise holds
    the bytes of the object from the pointer on.  A call that reads through a
    null pointer, past the end of the object, or writes past the end of a
    local array has no defined result: it gives [None]. *)

Definition NUL : ascii := "000"%char.
Definition newline : ascii := "010"%char.

Definition byte_value (c : ascii) : Z := Z.of_nat (nat_of_ascii c).

Fixpoint strlen (s : list ascii) : option Z :=
  match s with
  | [] => None
  | c :: s' => if Ascii.eqb c NUL then Some 0 else option_map Z.succ (strlen s')
  end.

(** [memchr(s, c, n)] reading byte after byte: [Some (Some off)] when [c] is
    met at offset [off], [Some None] for a null result. *)
Fixpoint memchr_obj (s : list ascii) (c : ascii) (n : Z) : option (option Z) :=
  if n <=? 0 then Some None
  else match s with
       | [] => None
       | d :: s' =>
           if Ascii.eqb d c then Some (Some 0)
           else option_map (option_map Z.succ) (memchr_obj s' c (n - 1))
       end.

Definition memchr (p : option (list ascii)) (c : ascii) (n : Z) : option (option Z) :=
  match p with
  | Some s => memchr_obj s c n
  | None => if n =? 0 then Some None else None
  end.

Fixpoint first_difference (s1 s2 : list ascii) (n : nat) : Z :=
  match n, s1, s2 with
  | S n', c1 :: t1, c2 :: t2 =>
      if byte_value c1 =? byte_value c2 then first_difference t1 t2 n'
      else byte_value c1 - byte_value c2
  | _, _, _ => 0
  end.

(** [memcmp(p1, p2, n)]: both objects hold at least [n] bytes. *)
Definition memcmp (p1 p2 : option (list ascii)) (n : Z) : option Z :=
  if n =? 0 then Some 0
  else match p1, p2 with
       | Some s1, Some s2 =>
           if ((n <=? Z.of_nat (length s1)) && (n <=? Z.of_nat (length s2)))%bool
           then Some (first_difference s1 s2 (Z.to_nat n))
           else None
       | _, _ => None
       end.

(** ** String buffer compare *)

(** Modelled from the spec: the "null-terminated" sentinel of the max-length
    arguments is missing from the header at hand, whose text has SIZE_MAX
    passed for a string known to be terminated. *)
Definition UTASSERT_STRINGBUF_NULL_TERM : Z := SIZE_MAX.

(** [EndPtr - String], or [None] for a null [EndPtr]. *)
Definition StringBuf_end (String : option (list ascii)) (StringMax : Z)
    : option (option Z) :=
  match String with
  | None => Some None
  | Some s =>
      if StringMax =? UTASSERT_STRINGBUF_NULL_TERM then option_map Some (strlen s)
      else memchr (Some s) NUL StringMax
  end.

Definition StringBuf_len (EndPtr : option Z) (StringMax : Z) : Z :=
  match EndPtr with
  | Some off => off
  | None => StringMax
  end.

(** The value left in [int Compare]. *)
Definition StringBuf_order (String1 String2 : option (list ascii))
    (FormatLen1 FormatLen2 : Z) : option Z :=
  if ((FormatLen1 =? 0) && (FormatLen2 =? 0))%bool then Some 0
  else
    Compare ← (if FormatLen1 <? FormatLen2
               then memcmp String1 String2 FormatLen1
               else memcmp String1 String2 FormatLen2);
    Some (if Compare =? 0 then int (size_t (FormatLen1 - FormatLen2)) else Compare).

Definition StringBuf_result (CompareType Compare : Z) : bool :=
  if CompareType =? UtAssert_Compare_EQ then Compare =? 0
  else if CompareType =? UtAssert_Compare_NEQ then negb (Compare =? 0)
  else if CompareType =? UtAssert_Compare_LT then Compare <? 0
  else if CompareType =? UtAssert_Compare_GT then Compare >? 0
  else if CompareType =? UtAssert_Compare_LTEQ then Compare <=? 0
  else if CompareType =? UtAssert_Compare_GTEQ then Compare >=? 0
  else false.

(** The "safe" copy in [ScrubbedString[256]]: cut at the first newline,
    copied with memcpy and terminated at [ScrubbedString[FormatLen]]. *)
Definition StringBuf_scrub (String : option (list ascii)) (FormatLen : Z)
    : option string :=
  if 0 <? FormatLen then
    EndPtr ← memchr String newline FormatLen;
    let FormatLen := StringBuf_len EndPtr FormatLen in
    match String with
    | Some s =>
        if ((FormatLen <=? Z.of_nat (length s)) && (FormatLen <? 256))%bool
        then Some (string_of_list_ascii (take (Z.to_nat FormatLen) s))
        else None
    | None => None
    end
  else Some EmptyString.

Definition UtAssert_StringBufCompare (String1 : option (list ascii)) (String1Max : Z)
    (String2 : option (list ascii)) (String2Max : Z) (CompareType : Z) (File : string)
    (Line : Z) (st : ut_state) : option (bool * ut_state) :=
  EndPtr1 ← StringBuf_end String1 String1Max;
  let FormatLen1 := StringBuf_len EndPtr1 String1Max in
  EndPtr2 ← StringBuf_end String2 String2Max;
  let FormatLen2 := StringBuf_len EndPtr2 String2Max in
  Compare ← StringBuf_order String1 String2 FormatLen1 FormatLen2;
  let Result := StringBuf_result CompareType Compare in
  ScrubbedString1 ← StringBuf_scrub String1 FormatLen1;
  ScrubbedString2 ← StringBuf_scrub String2 FormatLen2;
  Some (UtAssertEx Result UTASSERT_CASETYPE_FAILURE File Line
          ("String: '" ++ ScrubbedString1 ++ "' == '" ++ ScrubbedString2 ++ "'") st).

(** A C string literal as the object behind a pointer. *)
Definition c_str (s : string) : option (list ascii) :=
  Some (list_ascii_of_string s ++ [NUL])%list.

(** ** String buffer compare in the words of the spec *)

(** The bytes that take part: up to the first null byte within the bound,
    else the bound itself; without bound, up to the first null byte. *)
Fixpoint spec_effective (s : list ascii) (bound : option nat) : list ascii :=
  match bound, s with
  | Some O, _ => []
  | _, [] => []
  | _, c :: s' =>
      if Ascii.eqb c NUL then []
      else c :: spec_effective s' (option_map Nat.pred bound)
  end.

Definition spec_bound (StringMax : Z) : option nat :=
  if StringMax =? UTASSERT_STRINGBUF_NULL_TERM then None else Some (Z.to_nat StringMax).

(** Byte for byte up to the shorter length, then the longer one is greater. *)
Fixpoint spec_order (a b : list ascii) : comparison :=
  match a, b with
  | [], [] => Eq
  | [], _ :: _ => Lt
  | _ :: _, [] => Gt
  | x :: a', y :: b' =>
      match byte_value x ?= byte_value y with
      | Eq => spec_order a' b'
      | c => c
      end
  end.

Definition spec_kind_holds (CompareType : Z) (c : comparison) : bool :=
  if CompareType =? UtAssert_Compare_EQ then match c with Eq => true | _ => false end
  else if CompareType =? UtAssert_Compare_NEQ then match c with Eq => false | _ => true end
  else if CompareType =? UtAssert_Compare_LT then match c with Lt => true | _ => false end
  else if CompareType =? UtAssert_Compare_GT then match c with Gt => true | _ => false end
  else if CompareType =? UtAssert_Compare_LTEQ then match c with Gt => false | _ => true end
  else if CompareType =? UtAssert_Compare_GTEQ then match c with Lt => false | _ => true end
  else false.

(** A text of 2^31 bytes before its terminator that opens with a newline. *)
Definition long_text : list ascii :=
  (newline :: repeat "a"%char (Z.to_nat 2147483647) ++ [NUL])%list.

Definition text_256 : string :=
  fill "a"%char 256.

(** ** Case type tags and free-form messages *)

Definition UtAssert_GetCaseTypeAbbrev (CaseType : Z) : string :=
  if CaseType =? UTASSERT_CASETYPE_ABORT then "ABORT"
  else if CaseType =? UTASSERT_CASETYPE_FAILURE then "FAIL"
  else if CaseType =? UTASSERT_CASETYPE_MIR then "MIR"
  else if CaseType =? UTASSERT_CASETYPE_TSF then "TSF"
  else if CaseType =? UTASSERT_CASETYPE_TTF then "TTF"
  else if CaseType =? UTASSERT_CASETYPE_WARN then "WARN"
  else if CaseType =? UTASSERT_CASETYPE_NA then "N/A"
  else if CaseType =? UTASSERT_CASETYPE_BEGIN then "BEGIN"
  else if CaseType =? UTASSERT_CASETYPE_END then "END"
  else if CaseType =? UTASSERT_CASETYPE_PASS then "PASS"
  else if CaseType =? UTASSERT_CASETYPE_INFO then "INFO"
  else if CaseType =? UTASSERT_CASETYPE_FLOW then "FLOW"
  else if CaseType =? UTASSERT_CASETYPE_DEBUG then "DEBUG"
  else "OTHER".

(** [strrchr(s, c)] as the offset of the last [c], [None] for a null result. *)
Fixpoint strrchr (s : string) (c : ascii) : option nat :=
  match s with
  | EmptyString => None
  | String d s' =>
      match strrchr s' c with
      | Some k => Some (S k)
      | None => if Ascii.eqb d c then Some O else None
      end
  end.

(** The text UtAssert_Message puts in front: [BaseName:Line:] in
    [FinalMessage[256]], nothing for a null [File]. *)
Definition Message_prefix (File : option string) (Line : Z) : string :=
  match File with
  | Some f =>
      let BaseName :=
        match strrchr f "/" with
        | None => f
        | Some k => substring (S k) (String.length f - S k) f
        end in
      snprintf 256 (BaseName ++ ":" ++ fmt_unsigned 10 (uint32 Line) ++ ":")
  | None => EmptyString
  end.

(** [Text] is the expansion of [Spec] with its arguments. *)
Definition UtAssert_Message (MessageType : Z) (File : option string) (Line : Z)
    (Text : string) (st : ut_state) : ut_state :=
  let FinalMessage := Message_prefix File Line in
  let MsgLen := String.length FinalMessage in
  let FinalMessage := FinalMessage ++ snprintf (256 - MsgLen) Text in
  bsp_emit (UT_BSP_DoText (uint8 MessageType) FinalMessage) st.

(** ** Assert macros of utassert.h

    [File] and [Line] stand for [__FILE__] and [__LINE__], a text argument
    for a stringified expression, [Message] for the expanded format. *)

Definition UtAssert_Simple (Expression : bool) (Text File : string) (Line : Z)
    (st : ut_state) : bool * ut_state :=
  UtAssert Expression Text File Line st.

Definition UtAssert_True (Expression : bool) (File : string) (Line : Z) (Message : string)
    (st : ut_state) : bool * ut_state :=
  UtAssertEx Expression (UtAssert_GetContext st) File Line Message st.

Definition UtAssert_Failed (File : string) (Line : Z) (Message : string)
    (st : ut_state) : bool * ut_state :=
  UtAssertEx false (UtAssert_GetContext st) File Line Message st.

Definition UtAssert_NA (File : string) (Line : Z) (Message : string)
    (st : ut_state) : bool * ut_state :=
  UtAssertEx false UTASSERT_CASETYPE_NA File Line Message st.

Definition UtAssert_MIR (File : string) (Line : Z) (Message : string)
    (st : ut_state) : bool * ut_state :=
  UtAssertEx false UTASSERT_CASETYPE_MIR File Line Message st.

Definition UtAssert_WARN (File : string) (Line : Z) (Message : string)
    (st : ut_state) : bool * ut_state :=
  UtAssertEx false UTASSERT_CASETYPE_WARN File Line Message st.

Definition UtAssert_VOIDCALL (Text File : string) (Line : Z) (st : ut_state)
    : bool * ut_state :=
  UtAssert true Text File Line st.

(** The casts [(int32)(x)], [(uint32)(x)] and [(bool)(x)] of the macros. *)
Definition int32 (z : Z) : Z := to_signed 32 z.
Definition cast_bool (z : Z) : Z := if z =? 0 then 0 else 1.

Definition UtAssert_INT32 (CompareType actual ref : Z) (File : string) (Line : Z)
    (actualText refText : string) (st : ut_state) : bool * ut_state :=
  UtAssert_GenericSignedCompare (int32 actual) CompareType (int32 ref)
    UtAssert_Radix_DECIMAL File Line (Some EmptyString) actualText refText st.

Definition UtAssert_INT32_EQ := UtAssert_INT32 UtAssert_Compare_EQ.
Definition UtAssert_INT32_NEQ := UtAssert_INT32 UtAssert_Compare_NEQ.
Definition UtAssert_INT32_GTEQ := UtAssert_INT32 UtAssert_Compare_GTEQ.
Definition UtAssert_INT32_LTEQ := UtAssert_INT32 UtAssert_Compare_LTEQ.
Definition UtAssert_INT32_LT := UtAssert_INT32 UtAssert_Compare_LT.
Definition UtAssert_INT32_GT := UtAssert_INT32 UtAssert_Compare_GT.

Definition UtAssert_UINT32 (CompareType actual ref : Z) (File : string) (Line : Z)
    (actualText refText : string) (st : ut_state) : bool * ut_state :=
  UtAssert_GenericUnsignedCompare (uint32 actual) CompareType (uint32 ref)
    UtAssert_Radix_DECIMAL File Line (Some EmptyString) actualText refText st.

Definition UtAssert_UINT32_EQ := UtAssert_UINT32 UtAssert_Compare_EQ.
Definition UtAssert_UINT32_NEQ := UtAssert_UINT32 UtAssert_Compare_NEQ.
Definition UtAssert_UINT32_GTEQ := UtAssert_UINT32 UtAssert_Compare_GTEQ.
Definition UtAssert_UINT32_LTEQ := UtAssert_UINT32 UtAssert_Compare_LTEQ.
Definition UtAssert_UINT32_LT := UtAssert_UINT32 UtAssert_Compare_LT.
Definition UtAssert_UINT32_GT := UtAssert_UINT32 UtAssert_Compare_GT.

Definition UtAssert_BOOL_TRUE (expr : Z) (File : string) (Line : Z) (exprText : string)
    (st : ut_state) : bool * ut_state :=
  UtAssert_GenericUnsignedCompare (cast_bool expr) UtAssert_Compare_EQ 1
    UtAssert_Radix_DECIMAL File Line (Some EmptyString) exprText "true" st.

Definition UtAssert_BOOL_FALSE (expr : Z) (File : string) (Line : Z) (exprText : string)
    (st : ut_state) : bool * ut_state :=
  UtAssert_GenericUnsignedCompare (cast_bool expr) UtAssert_Compare_EQ 0
    UtAssert_Radix_DECIMAL File Line (Some EmptyString) exprText "false" st.

(** [actual] is the address held by the pointer. *)
Definition UtAssert_NOT_NULL (actual : Z) (File : string) (Line : Z) (actualText : string)
    (st : ut_state) : bool * ut_state :=
  UtAssert_GenericUnsignedCompare (ulong actual) UtAssert_Compare_NEQ 0
    UtAssert_Radix_HEX File Line (Some EmptyString) actualText "NULL" st.

Definition UtAssert_NULL (actual : Z) (File : string) (Line : Z) (actualText : string)
    (st : ut_state) : bool * ut_state :=
  UtAssert_GenericUnsignedCompare (ulong actual) UtAssert_Compare_EQ 0
    UtAssert_Radix_HEX File Line (Some EmptyString) actualText "NULL" st.

Definition UtAssert_NONZERO (actual : Z) (File : string) (Line : Z) (actualText : string)
    (st : ut_state) : bool * ut_state :=
  UtAssert_GenericSignedCompare actual UtAssert_Compare_NEQ 0
    UtAssert_Radix_DECIMAL File Line (Some EmptyString) actualText "ZERO" st.

Definition UtAssert_ZERO (actual : Z) (File : string) (Line : Z) (actualText : string)
    (st : ut_state) : bool * ut_state :=
  UtAssert_GenericSignedCompare actual UtAssert_Compare_EQ 0
    UtAssert_Radix_DECIMAL File Line (Some EmptyString) actualText "ZERO" st.

Definition UtAssert_STRINGBUF_EQ (str1 : option (list ascii)) (size1 : Z)
    (str2 : option (list ascii)) (size2 : Z) (File : string) (Line : Z) (st : ut_state)
    : option (bool * ut_state) :=
  UtAssert_StringBufCompare str1 size1 str2 size2 UtAssert_Compare_EQ File Line st.

(** ** Notions the further properties are stated with *)

(** One recorded case: the arguments of a call of UtAssertEx. *)
Record ut_case : Type := mkCase {
  case_expr : bool;
  case_type : Z;
  case_file : string;
  case_line : Z;
  case_msg : string
}.

Definition record_case (st : ut_state) (c : ut_case) : ut_state :=
  snd (UtAssertEx (case_expr c) (case_type c) (case_file c) (case_line c) (case_msg c) st).

Definition record_all (cs : list ut_case) (st : ut_state) : ut_state :=
  foldl record_case st cs.

(** How many of the cases are counted in cell [k]. *)
Definition counted_in (k : Z) (cs : list ut_case) : Z :=
  Z.of_nat (length (filter
    (fun c => uint32 (resolved_case (case_expr c) (case_type c)) = k) cs)).

(** The line UtAssert_DoReport hands over. *)
Definition report_text (File : string) (LineNum SegmentNum TestSeq : Z)
    (ShortDesc : string) : string :=
  snprintf 320
    (pad_zero 2 (fmt_unsigned 10 (uint32 SegmentNum)) ++ "." ++
     pad_zero 3 (fmt_unsigned 10 (uint32 TestSeq)) ++ " " ++
     DoReport_base File ++ ":" ++ fmt_unsigned 10 (uint32 LineNum) ++ " - " ++
     ShortDesc).

Definition case_report (seg seq0 : Z) (i : nat) (c : ut_case) : bsp_event :=
  UT_BSP_DoText (uint8 (resolved_case (case_expr c) (case_type c)))
    (report_text (case_file c) (case_line c) seg (uint32 (seq0 + Z.of_nat i + 1))
       (snprintf 256 (case_msg c))).

Fixpoint has_char (p : ascii -> bool) (s : string) : bool :=
  match s with
  | EmptyString => false
  | String c s' => (p c || has_char p s')%bool
  end.

Definition ends_with_sep (dir : string) : Prop :=
  exists d c, dir = (d ++ String c EmptyString)%string /\ is_path_sep c = true.

Definition no_nul (s : list ascii) : Prop := Forall (fun c => c <> NUL) s.

Definition sample_cases : list ut_case :=
  [mkCase true UTASSERT_CASETYPE_FAILURE "t.c" 1 "a";
   mkCase false UTASSERT_CASETYPE_FAILURE "t.c" 2 "b";
   mkCase false UTASSERT_CASETYPE_MAX "t.c" 3 "c"].

(** What a comparison kind asks of two integers. *)
Definition kind_holds (CompareType A R : Z) : bool :=
  if CompareType =? UtAssert_Compare_EQ then A =? R
  else if CompareType =? UtAssert_Compare_NEQ then negb (A =? R)
  else if CompareType =? UtAssert_Compare_LT then A <? R
  else if CompareType =? UtAssert_Compare_GT then R <? A
  else if CompareType =? UtAssert_Compare_LTEQ then A <=? R
  else if CompareType =? UtAssert_Compare_GTEQ then R <=? A
  else if CompareType =? UtAssert_Compare_BITMASK_SET then Z.land A R =? R
  else if CompareType =? UtAssert_Compare_BITMASK_UNSET then Z.land A R =? 0
  else false.

(** How many of the cases have a classification outside [CaseCount]. *)
Definition uncounted (cs : list ut_case) : Z :=
  Z.of_nat (length (filter
    (fun c => UTASSERT_CASETYPE_MAX <= uint32 (resolved_case (case_expr c) (case_type c)))
    cs)).


(** ** Arithmetic of the conversions *)

Section Wrap.

Lemma uint32_range z : 0 <= uint32 z < 2 ^ 32.
Proof. unfold uint32, to_unsigned. apply Z.mod_pos_bound. lia. Qed.

Lemma uint32_small z : 0 <= z < 2 ^ 32 -> uint32 z = z.
Proof. intros H. unfold uint32, to_unsigned. apply Z.mod_small. exact H. Qed.

Lemma uint32_le z : 0 <= z -> uint32 z <= z.
Proof. intros H. unfold uint32, to_unsigned. apply Z.mod_le; lia. Qed.

Lemma uint32_add_l a b : uint32 (uint32 a + b) = uint32 (a + b).
Proof. unfold uint32, to_unsigned. apply Zplus_mod_idemp_l. Qed.

Lemma uint32_add_r a b : uint32 (a + uint32 b) = uint32 (a + b).
Proof. unfold uint32, to_unsigned. apply Zplus_mod_idemp_r. Qed.

Lemma uint32_idem a : uint32 (uint32 a) = uint32 a.
Proof. unfold uint32, to_unsigned. apply Zmod_mod. Qed.

End Wrap.

Create HintDb wrap.
#[local] Hint Resolve uint32_range uint32_le : wrap.

(** ** The array of per-classification counts *)

Section Cases.

Lemma cell_ok_uint32 z : cell_ok (uint32 z).
Proof. unfold cell_ok. auto with wrap. Qed.

Lemma case_get_ok l i : Forall cell_ok l -> cell_ok (case_get l i).
Proof.
  intros Hl. unfold case_get.
  destruct (l !! Z.to_nat i) as [x|] eqn:E; simpl.
  - rewrite Forall_forall in Hl. apply Hl.
    eapply list_elem_of_lookup_2. exact E.
  - unfold cell_ok. lia.
Qed.

Lemma sum_cases_nonneg l : Forall cell_ok l -> 0 <= sum_cases l.
Proof.
  induction 1 as [|x l Hx _ IH]; simpl; [lia|]. unfold cell_ok in Hx. lia.
Qed.

Lemma sum_cases_insert (l : list Z) (i : nat) (v : Z) :
  (i < length l)%nat ->
  sum_cases (<[i := v]> l) = sum_cases l - default 0 (l !! i) + v.
Proof.
  revert i. induction l as [|x l IH]; intros i Hi; simpl in Hi; [lia|].
  destruct i as [|i]; simpl.
  - lia.
  - rewrite IH by lia. lia.
Qed.

Lemma sum_cases_replicate n : sum_cases (replicate n 0) = 0.
Proof. induction n as [|n IH]; simpl; [reflexivity | rewrite IH; reflexivity]. Qed.

Lemma case_add_length l i d : length (case_add l i d) = length l.
Proof. unfold case_add. apply length_insert. Qed.

Lemma case_add_ok l i d : Forall cell_ok l -> Forall cell_ok (case_add l i d).
Proof.
  intros Hl. unfold case_add. apply Forall_insert; [exact Hl | apply cell_ok_uint32].
Qed.

Lemma case_add_sum l i d :
  0 <= i -> (Z.to_nat i < length l)%nat ->
  sum_cases (case_add l i d) = sum_cases l - case_get l i + uint32 (case_get l i + d).
Proof.
  intros _ Hi. unfold case_add. rewrite sum_cases_insert by exact Hi. reflexivity.
Qed.

Lemma case_add_get_eq l i d :
  (Z.to_nat i < length l)%nat ->
  case_get (case_add l i d) i = uint32 (case_get l i + d).
Proof.
  intros Hi. unfold case_add, case_get at 1.
  rewrite list_lookup_insert_eq by exact Hi. reflexivity.
Qed.

Lemma case_add_get_ne l i j d :
  Z.to_nat i <> Z.to_nat j -> case_get (case_add l i d) j = case_get l j.
Proof.
  intros Hne. unfold case_add, case_get.
  rewrite list_lookup_insert_ne by exact Hne. reflexivity.
Qed.

(** The loop of UtAssert_EndTest adds the two arrays cell by cell. *)
Lemma fold_cases_prefix (Seg : list Z) (k : nat) (Tot : list Z) (i : nat) :
  let step := fun acc Ct => case_add acc (Z.of_nat Ct) (case_get Seg (Z.of_nat Ct)) in
  length (foldl step Tot (seq 0 k)) = length Tot /\
  foldl step Tot (seq 0 k) !! i =
    if decide (i < k)%nat
    then (fun t => add32 t (case_get Seg (Z.of_nat i))) <$> Tot !! i
    else Tot !! i.
Proof.
  intros step. induction k as [|k [IHlen IH]].
  - simpl. split; [reflexivity|]. destruct (decide (i < 0)%nat); [lia | reflexivity].
  - rewrite seq_S, foldl_snoc. simpl. unfold step at 1 3.
    split; [rewrite case_add_length; exact IHlen|].
    unfold case_add. rewrite Nat2Z.id.
    destruct (decide (k = i)) as [->|Hne].
    + destruct (decide (i < S i)%nat); [|lia].
      destruct (decide (i < i)%nat); [lia|].
      destruct (Tot !! i) as [t|] eqn:E.
      * rewrite list_lookup_insert_eq.
        2:{ rewrite IHlen. eapply lookup_lt_Some. exact E. }
        unfold case_get at 1. rewrite Nat2Z.id, IH. reflexivity.
      * rewrite list_insert_ge.
        2:{ rewrite IHlen. apply lookup_ge_None. exact E. }
        rewrite IH. reflexivity.
    + rewrite list_lookup_insert_ne by exact Hne. rewrite IH.
      destruct (decide (i < k)%nat), (decide (i < S k)%nat); try lia; reflexivity.
Qed.

Lemma fold_cases_zip (Seg Tot : list Z) :
  length Tot = Z.to_nat UTASSERT_CASETYPE_MAX ->
  length Seg = Z.to_nat UTASSERT_CASETYPE_MAX ->
  fold_cases Seg Tot = zip_with add32 Tot Seg.
Proof.
  intros HT HS. apply list_eq. intros i. unfold fold_cases.
  destruct (fold_cases_prefix Seg (Z.to_nat UTASSERT_CASETYPE_MAX) Tot i) as [_ ->].
  rewrite lookup_zip_with.
  destruct (decide (i < Z.to_nat UTASSERT_CASETYPE_MAX)%nat) as [Hi|Hi].
  - destruct (lookup_lt_is_Some_2 Tot i) as [t Ht]; [lia|].
    destruct (lookup_lt_is_Some_2 Seg i) as [s Hs]; [lia|].
    unfold case_get. rewrite Nat2Z.id, Ht, Hs. reflexivity.
  - rewrite (lookup_ge_None_2 Tot i) by lia. reflexivity.
Qed.

Lemma zip_add32_ok (Tot Seg : list Z) : Forall cell_ok (zip_with add32 Tot Seg).
Proof.
  revert Seg. induction Tot as [|t Tot IH]; intros [|s Seg]; simpl; constructor.
  - apply cell_ok_uint32.
  - apply IH.
Qed.

Lemma zip_add32_sum (Tot Seg : list Z) :
  length Tot = length Seg ->
  uint32 (sum_cases (zip_with add32 Tot Seg)) = uint32 (sum_cases Tot + sum_cases Seg).
Proof.
  revert Seg. induction Tot as [|t Tot IH]; intros [|s Seg] Hlen; simpl in *;
    try discriminate; [reflexivity|].
  unfold add32. rewrite uint32_add_l, <- uint32_add_r, IH by lia.
  rewrite uint32_add_r. f_equal. lia.
Qed.

Lemma zip_add32_le (Tot Seg : list Z) :
  Forall cell_ok Tot -> Forall cell_ok Seg ->
  sum_cases (zip_with add32 Tot Seg) <= sum_cases Tot + sum_cases Seg.
Proof.
  revert Seg. induction Tot as [|t Tot IH]; intros Seg HT HS.
  - simpl. pose proof (sum_cases_nonneg _ HS). lia.
  - apply Forall_cons in HT as [Ht HT].
    destruct Seg as [|s Seg]; simpl.
    + pose proof (sum_cases_nonneg _ HT). unfold cell_ok in Ht. lia.
    + apply Forall_cons in HS as [Hs HS]. specialize (IH Seg HT HS).
      unfold add32, cell_ok in *. pose proof (uint32_le (t + s)). lia.
Qed.

End Cases.

(** ** Effect of each call on the two aggregates *)

Section Store.

Lemma AssertEx_segment e ct f l m st :
  UT_SegmentCounters (snd (UtAssertEx e ct f l m st)) =
  let Seg := UT_SegmentCounters st in
  mkCounter (TestSegmentCount Seg) (uint32 (TotalTestCases Seg + 1))
    (if uint32 (resolved_case e ct) <? UTASSERT_CASETYPE_MAX
     then case_add (CaseCount Seg) (uint32 (resolved_case e ct)) 1
     else CaseCount Seg).
Proof. reflexivity. Qed.

Lemma AssertEx_total e ct f l m st :
  UT_TotalCounters (snd (UtAssertEx e ct f l m st)) = UT_TotalCounters st.
Proof. reflexivity. Qed.

Lemma BeginTest_counters name st :
  UT_SegmentCounters (UtAssert_BeginTest name st) = counter_zero /\
  UT_TotalCounters (UtAssert_BeginTest name st) = UT_TotalCounters st.
Proof. split; reflexivity. Qed.

Lemma EndTest_segment st : UT_SegmentCounters (UtAssert_EndTest st) = counter_zero.
Proof. unfold UtAssert_EndTest. destruct (0 <? _); reflexivity. Qed.

Lemma EndTest_total st :
  UT_TotalCounters (UtAssert_EndTest st) =
  let Seg := UT_SegmentCounters st in
  let Tot := UT_TotalCounters st in
  if 0 <? TotalTestCases Seg
  then mkCounter (uint32 (TestSegmentCount Tot + 1))
                 (uint32 (TotalTestCases Tot + TotalTestCases Seg))
                 (fold_cases (CaseCount Seg) (CaseCount Tot))
  else Tot.
Proof. unfold UtAssert_EndTest. destruct (0 <? _); reflexivity. Qed.

Lemma counter_zero_wf : counter_wf counter_zero.
Proof.
  split; [reflexivity|]. unfold counter_zero, CaseCount.
  apply Forall_replicate. unfold cell_ok. lia.
Qed.

Lemma counter_zero_agree : counters_agree counter_zero.
Proof. reflexivity. Qed.

Lemma counter_zero_sum : sum_cases (CaseCount counter_zero) = 0.
Proof. reflexivity. Qed.

Lemma resolved_index e ct :
  (uint32 (resolved_case e ct) <? UTASSERT_CASETYPE_MAX) = true ->
  forall l : list Z, length l = Z.to_nat UTASSERT_CASETYPE_MAX ->
  (Z.to_nat (uint32 (resolved_case e ct)) < length l)%nat.
Proof.
  intros H l Hl. apply Z.ltb_lt in H. rewrite Hl.
  pose proof (uint32_range (resolved_case e ct)). lia.
Qed.

Lemma run_inv_initial : run_inv 0 ut_initial.
Proof.
  repeat split; try apply counter_zero_wf. simpl. lia.
Qed.

Lemma run_inv_step n st c :
  case_in_range c = true -> run_inv n st -> run_inv (n + 1) (ut_step st c).
Proof.
  intros Hc (HwS & HwT & HaS & HaT & Hle).
  pose proof (sum_cases_nonneg _ (proj2 HwS)) as HsS.
  pose proof (sum_cases_nonneg _ (proj2 HwT)) as HsT.
  destruct c as [name| |e ct f l m]; unfold run_inv; cbn [ut_step].
  - destruct (BeginTest_counters name st) as [-> ->].
    repeat split; try apply counter_zero_wf; try assumption; try apply HwT.
    rewrite counter_zero_sum. lia.
  - rewrite EndTest_segment, EndTest_total. cbv zeta.
    destruct (0 <? TotalTestCases (UT_SegmentCounters st)).
    + destruct HwS as [HlS HoS], HwT as [HlT HoT].
      rewrite (fold_cases_zip _ _ HlT HlS).
      repeat split; try apply counter_zero_wf; simpl.
      * rewrite length_zip_with_l_eq; congruence.
      * apply zip_add32_ok.
      * unfold counters_agree. simpl. rewrite zip_add32_sum by congruence.
        rewrite HaS, HaT, uint32_add_l, uint32_add_r. reflexivity.
      * pose proof (zip_add32_le _ _ HoT HoS). lia.
    + repeat split; try apply counter_zero_wf; try assumption; try apply HwT.
      rewrite counter_zero_sum. lia.
  - rewrite AssertEx_segment, AssertEx_total. cbv zeta.
    assert (Hr : (uint32 (resolved_case e ct) <? UTASSERT_CASETYPE_MAX) = true).
    { simpl in Hc. destruct e; [reflexivity | exact Hc]. }
    rewrite Hr. destruct HwS as [HlS HoS].
    pose proof (resolved_index e ct Hr _ HlS) as Hidx.
    pose proof (uint32_range (resolved_case e ct)) as Hrange.
    pose proof (case_get_ok _ (uint32 (resolved_case e ct)) HoS) as Hget.
    refine (conj (conj _ _) (conj HwT (conj _ (conj HaT _))));
      cbn [CaseCount TotalTestCases].
    + rewrite case_add_length. exact HlS.
    + apply case_add_ok. exact HoS.
    + unfold counters_agree in *. cbn [CaseCount TotalTestCases].
      rewrite case_add_sum by (lia || exact Hidx).
      rewrite HaS, uint32_add_l, uint32_add_r. f_equal. lia.
    + rewrite case_add_sum by (lia || exact Hidx).
      unfold cell_ok in Hget.
      pose proof (uint32_le (case_get (CaseCount (UT_SegmentCounters st))
                                      (uint32 (resolved_case e ct)) + 1)).
      lia.
Qed.

Lemma run_inv_run calls : forall n st,
  Forall (fun c => case_in_range c = true) calls ->
  run_inv n st -> run_inv (n + Z.of_nat (length calls)) (ut_run calls st).
Proof.
  induction calls as [|c calls IH]; intros n st Hall Hinv.
  - change (run_inv (n + 0) st). rewrite Z.add_0_r. exact Hinv.
  - apply Forall_cons in Hall as [Hc Hall]. unfold ut_run. simpl foldl.
    fold (ut_run calls (ut_step st c)).
    replace (n + Z.of_nat (length (c :: calls)))
      with ((n + 1) + Z.of_nat (length calls)) by (simpl length; lia).
    apply IH; [exact Hall|]. apply run_inv_step; assumption.
Qed.

Lemma agree_exact c n :
  counters_agree c -> Forall cell_ok (CaseCount c) ->
  sum_cases (CaseCount c) <= n -> n < 2 ^ 32 ->
  TotalTestCases c = sum_cases (CaseCount c).
Proof.
  intros Ha Hok Hle Hn. rewrite Ha. apply uint32_small.
  pose proof (sum_cases_nonneg _ Hok). lia.
Qed.

End Store.

(** ** The claims about the counter store *)

(** The all-zero aggregate has the shape of a counter, by evaluation. *)
Ltac zero_counter_shape :=
  split; [reflexivity | cbn; repeat (constructor; [unfold cell_ok; lia|]); constructor].

(** C1 (as amended).  Over every sequence of UtAssert_BeginTest,
    UtAssert_EndTest and UtAssertEx calls from the initial state in which each
    recorded case either has a true Expression or a CaseType whose uint32
    value is below UTASSERT_CASETYPE_MAX, the total-case count of the segment
    aggregate and of the cumulative aggregate equals the sum of its
    per-classification counts: as uint32 values always, and as plain integers
    while fewer than 2^32 calls were made. *)
Theorem total_cases_sum_in_range (calls : list ut_call) :
  Forall (fun c => case_in_range c = true) calls ->
  let st := ut_run calls ut_initial in
  (counters_agree (UT_SegmentCounters st) /\ counters_agree (UT_TotalCounters st)) /\
  (Z.of_nat (length calls) < 2 ^ 32 ->
   TotalTestCases (UT_SegmentCounters st) = sum_cases (CaseCount (UT_SegmentCounters st)) /\
   TotalTestCases (UT_TotalCounters st) = sum_cases (CaseCount (UT_TotalCounters st))).
Proof.
  intros Hall st.
  destruct (run_inv_run calls 0 ut_initial Hall run_inv_initial)
    as ([_ HoS] & [_ HoT] & HaS & HaT & Hle).
  fold st in HoS, HoT, HaS, HaT, Hle.
  pose proof (sum_cases_nonneg _ HoS). pose proof (sum_cases_nonneg _ HoT).
  split; [split; assumption|]. intros Hn. split.
  - apply (agree_exact _ (Z.of_nat (length calls))); try assumption; lia.
  - apply (agree_exact _ (Z.of_nat (length calls))); try assumption; lia.
Qed.

Lemma total_cases_sum_in_range_witness :
  Forall (fun c => case_in_range c = true) sample_calls /\
  TotalTestCases (UT_TotalCounters (ut_run sample_calls ut_initial)) =
  sum_cases (CaseCount (UT_TotalCounters (ut_run sample_calls ut_initial))).
Proof.
  assert (H : Forall (fun c => case_in_range c = true) sample_calls).
  { repeat constructor. }
  split; [exact H|].
  apply (total_cases_sum_in_range sample_calls H). vm_compute. reflexivity.
Defined.

(** C1 as stated fails: a case recorded with a CaseType outside the array
    (here UTASSERT_CASETYPE_MAX itself, with a false Expression) raises the
    total of the segment, and after UtAssert_EndTest of the cumulative
    aggregate, while no per-classification count moves. *)
Lemma total_cases_sum_out_of_range :
  let rec := Call_AssertEx false UTASSERT_CASETYPE_MAX "t.c" 1 "m" in
  let seg := UT_SegmentCounters (ut_run [Call_BeginTest "A"; rec] ut_initial) in
  let tot := UT_TotalCounters (ut_run [Call_BeginTest "A"; rec; Call_EndTest] ut_initial) in
  (TotalTestCases seg = 1 /\ sum_cases (CaseCount seg) = 0) /\
  (TotalTestCases tot = 1 /\ sum_cases (CaseCount tot) = 0) /\
  TotalTestCases seg <> sum_cases (CaseCount seg) /\
  TotalTestCases tot <> sum_cases (CaseCount tot).
Proof. vm_compute. repeat split; discriminate. Qed.
Example report_line_example :
  bsp_log (snd (UtAssertEx false UTASSERT_CASETYPE_FAILURE "src/tests/t.c" 42 "x == 1"
                  (UtAssert_BeginTest "A" ut_initial))) =
  [UT_BSP_StartTestSegment 1 "A";
   UT_BSP_DoText 2 "01.001 t.c:42 - x == 1"].
Proof. vm_compute. reflexivity. Qed.


(** C2.  A call of UtAssertEx with a true Expression is counted under
    UTASSERT_CASETYPE_PASS whatever CaseType the caller supplied: the pass
    cell of the segment aggregate goes up by one (uint32), every other cell,
    the supplied classification's included, keeps its value, the total goes
    up by one, the call returns true and the report line is tagged PASS. *)
Theorem passing_case_counted_as_pass (st : ut_state) (CaseType : Z) (File : string)
    (Line : Z) (Message : string) :
  counter_wf (UT_SegmentCounters st) ->
  let r := UtAssertEx true CaseType File Line Message st in
  let Seg := CaseCount (UT_SegmentCounters st) in
  let Seg' := CaseCount (UT_SegmentCounters (snd r)) in
  fst r = true /\
  case_get Seg' UTASSERT_CASETYPE_PASS = uint32 (case_get Seg UTASSERT_CASETYPE_PASS + 1) /\
  (case_get Seg UTASSERT_CASETYPE_PASS < 2 ^ 32 - 1 ->
   case_get Seg' UTASSERT_CASETYPE_PASS = case_get Seg UTASSERT_CASETYPE_PASS + 1) /\
  (forall i : nat, i <> Z.to_nat UTASSERT_CASETYPE_PASS -> Seg' !! i = Seg !! i) /\
  (uint32 CaseType <> UTASSERT_CASETYPE_PASS ->
   case_get Seg' (uint32 CaseType) = case_get Seg (uint32 CaseType)) /\
  TotalTestCases (UT_SegmentCounters (snd r)) =
    uint32 (TotalTestCases (UT_SegmentCounters st) + 1) /\
  exists line,
    bsp_log (snd r) = (bsp_log st ++ [UT_BSP_DoText UTASSERT_CASETYPE_PASS line])%list.
Proof.
  intros [Hlen Hok] r Seg Seg'.
  assert (HS' : Seg' = case_add Seg UTASSERT_CASETYPE_PASS 1) by reflexivity.
  assert (Hidx : (Z.to_nat UTASSERT_CASETYPE_PASS < length Seg)%nat).
  { unfold Seg. rewrite Hlen. vm_compute. lia. }
  split; [reflexivity|]. split; [|split; [|split; [|split; [|split]]]].
  - rewrite HS'. apply case_add_get_eq. exact Hidx.
  - intros Hlt. rewrite HS', case_add_get_eq by exact Hidx.
    apply uint32_small. pose proof (case_get_ok Seg UTASSERT_CASETYPE_PASS Hok) as H.
    unfold cell_ok in H. lia.
  - intros i Hi. rewrite HS'. unfold case_add.
    apply list_lookup_insert_ne. congruence.
  - intros Hne. rewrite HS'. apply case_add_get_ne.
    pose proof (uint32_range CaseType). unfold UTASSERT_CASETYPE_PASS in *. lia.
  - reflexivity.
  - eexists. reflexivity.
Qed.

Lemma passing_case_counted_as_pass_witness :
  counter_wf (UT_SegmentCounters ut_initial) /\
  case_get (CaseCount (UT_SegmentCounters
     (snd (UtAssertEx true UTASSERT_CASETYPE_TSF "t.c" 7 "setup" ut_initial))))
     UTASSERT_CASETYPE_PASS = 1.
Proof.
  assert (Hwf : counter_wf (UT_SegmentCounters ut_initial)) by zero_counter_shape.
  split; [exact Hwf|].
  destruct (passing_case_counted_as_pass ut_initial UTASSERT_CASETYPE_TSF "t.c" 7 "setup"
              Hwf) as (_ & H & _).
  exact H.
Defined.

(** C3.  UtAssert_BeginTest followed by UtAssert_EndTest with no case in
    between leaves the cumulative aggregate (segment counter, total and every
    per-classification count) as it was, hands the board-support package the
    text "No test cases" and no segment summary, and leaves the segment
    aggregate cleared. *)
Theorem empty_segment_not_counted (st : ut_state) (SegmentName : string) :
  let st' := UtAssert_EndTest (UtAssert_BeginTest SegmentName st) in
  UT_TotalCounters st' = UT_TotalCounters st /\
  UT_SegmentCounters st' = counter_zero /\
  bsp_log st' =
    (bsp_log st ++
     [UT_BSP_StartTestSegment (uint32 (1 + TestSegmentCount (UT_TotalCounters st)))
                              SegmentName;
      UT_BSP_DoText UTASSERT_CASETYPE_END ("No test cases" ++ String "010"%char "")])%list.
Proof.
  cbv zeta. repeat split.
  cbn. rewrite <- app_assoc. reflexivity.
Qed.

Lemma zip_single_failure (l : list Z) :
  length l = Z.to_nat UTASSERT_CASETYPE_MAX -> Forall cell_ok l ->
  zip_with add32 l [0; 0; 1; 0; 0; 0; 0; 0; 0; 0; 0; 0; 0; 0] =
  <[Z.to_nat UTASSERT_CASETYPE_FAILURE :=
      uint32 (case_get l UTASSERT_CASETYPE_FAILURE + 1)]> l.
Proof.
  intros Hlen Hok. change (Z.to_nat UTASSERT_CASETYPE_MAX) with 14%nat in Hlen.
  do 14 (destruct l as [|? l]; [simpl in Hlen; lia|]).
  destruct l; [|simpl in Hlen; lia].
  repeat (apply Forall_cons in Hok as [? Hok]).
  unfold case_get. change (Z.to_nat UTASSERT_CASETYPE_FAILURE) with 2%nat.
  cbn. unfold add32.
  repeat match goal with
         | H : cell_ok ?x |- context [uint32 (?x + 0)] =>
             rewrite (Z.add_0_r x), (uint32_small x H)
         end.
  reflexivity.
Qed.

(** C4.  A segment holding exactly one failing case recorded as
    UTASSERT_CASETYPE_FAILURE: UtAssert_EndTest raises the cumulative segment
    counter, the cumulative total and the cumulative failure count by one
    each (uint32), adds every per-classification count of the segment to its
    cumulative cell, which leaves the other cells as they were, and clears
    the segment aggregate. *)
Theorem single_failure_segment_folded (st : ut_state) (SegmentName File : string)
    (Line : Z) (Message : string) :
  counter_wf (UT_TotalCounters st) ->
  let st1 := snd (UtAssertEx false UTASSERT_CASETYPE_FAILURE File Line Message
                    (UtAssert_BeginTest SegmentName st)) in
  let st' := UtAssert_EndTest st1 in
  let Tot := UT_TotalCounters st in
  let Tot' := UT_TotalCounters st' in
  TestSegmentCount Tot' = uint32 (TestSegmentCount Tot + 1) /\
  TotalTestCases Tot' = uint32 (TotalTestCases Tot + 1) /\
  UtAssert_GetFailCount st' = uint32 (UtAssert_GetFailCount st + 1) /\
  CaseCount Tot' = zip_with add32 (CaseCount Tot) (CaseCount (UT_SegmentCounters st1)) /\
  CaseCount Tot' =
    <[Z.to_nat UTASSERT_CASETYPE_FAILURE := uint32 (UtAssert_GetFailCount st + 1)]>
      (CaseCount Tot) /\
  UT_SegmentCounters st' = counter_zero /\
  (TestSegmentCount Tot < 2 ^ 32 - 1 -> 0 <= TestSegmentCount Tot ->
   TestSegmentCount Tot' = TestSegmentCount Tot + 1) /\
  (TotalTestCases Tot < 2 ^ 32 - 1 -> 0 <= TotalTestCases Tot ->
   TotalTestCases Tot' = TotalTestCases Tot + 1) /\
  (UtAssert_GetFailCount st < 2 ^ 32 - 1 ->
   UtAssert_GetFailCount st' = UtAssert_GetFailCount st + 1).
Proof.
  intros [Hlen Hok] st1 st' Tot Tot'.
  assert (HT' : Tot' = mkCounter (uint32 (TestSegmentCount Tot + 1))
                                 (uint32 (TotalTestCases Tot + 1))
                                 (fold_cases (CaseCount (UT_SegmentCounters st1))
                                             (CaseCount Tot))) by reflexivity.
  assert (Hseg : CaseCount (UT_SegmentCounters st1) =
                 [0; 0; 1; 0; 0; 0; 0; 0; 0; 0; 0; 0; 0; 0]) by reflexivity.
  assert (Hzip : CaseCount Tot' =
                 zip_with add32 (CaseCount Tot) (CaseCount (UT_SegmentCounters st1))).
  { rewrite HT'. cbn [CaseCount]. apply fold_cases_zip; [exact Hlen|].
    rewrite Hseg. reflexivity. }
  assert (Hins : CaseCount Tot' =
    <[Z.to_nat UTASSERT_CASETYPE_FAILURE := uint32 (UtAssert_GetFailCount st + 1)]>
      (CaseCount Tot)).
  { rewrite Hzip, Hseg. apply zip_single_failure; assumption. }
  assert (Hfail : UtAssert_GetFailCount st' = uint32 (UtAssert_GetFailCount st + 1)).
  { unfold UtAssert_GetFailCount at 1. fold Tot'. rewrite Hins. unfold case_get.
    rewrite list_lookup_insert_eq; [reflexivity|].
    fold Tot in Hlen. rewrite Hlen. vm_compute. lia. }
  rewrite HT' at 1 2. cbn [TestSegmentCount TotalTestCases].
  repeat split; try assumption.
  - intros. rewrite HT'. cbn [TestSegmentCount]. apply uint32_small. lia.
  - intros. rewrite HT'. cbn [TotalTestCases]. apply uint32_small. lia.
  - intros. rewrite Hfail. apply uint32_small.
    pose proof (case_get_ok (CaseCount Tot) UTASSERT_CASETYPE_FAILURE Hok) as H1.
    unfold cell_ok, UtAssert_GetFailCount, Tot in *. lia.
Qed.

Lemma single_failure_segment_folded_witness :
  counter_wf (UT_TotalCounters ut_initial) /\
  UtAssert_GetFailCount
    (UtAssert_EndTest
       (snd (UtAssertEx false UTASSERT_CASETYPE_FAILURE "t.c" 3 "x == 1"
               (UtAssert_BeginTest "A" ut_initial)))) = 1.
Proof.
  assert (Hwf : counter_wf (UT_TotalCounters ut_initial)) by zero_counter_shape.
  split; [exact Hwf|].
  destruct (single_failure_segment_folded ut_initial "A" "t.c" 3 "x == 1" Hwf)
    as (_ & _ & H & _).
  exact H.
Defined.

(** C10.  UtAssertEx writes the segment aggregate only: UT_TotalCounters,
    and with it UtAssert_GetPassCount and UtAssert_GetFailCount, is the same
    before and after the call.  The counts of the segment reach the
    cumulative aggregate at UtAssert_EndTest, which adds them (uint32) when
    the segment recorded a case. *)
Theorem recording_leaves_totals (st : ut_state) (Expression : bool) (CaseType : Z)
    (File : string) (Line : Z) (Message : string) :
  counter_wf (UT_SegmentCounters st) -> counter_wf (UT_TotalCounters st) ->
  let st1 := snd (UtAssertEx Expression CaseType File Line Message st) in
  (UT_TotalCounters st1 = UT_TotalCounters st /\
   UtAssert_GetCounters st1 = UtAssert_GetCounters st /\
   UtAssert_GetPassCount st1 = UtAssert_GetPassCount st /\
   UtAssert_GetFailCount st1 = UtAssert_GetFailCount st) /\
  (0 < TotalTestCases (UT_SegmentCounters st1) ->
   UtAssert_GetPassCount (UtAssert_EndTest st1) =
     uint32 (UtAssert_GetPassCount st +
             case_get (CaseCount (UT_SegmentCounters st1)) UTASSERT_CASETYPE_PASS) /\
   UtAssert_GetFailCount (UtAssert_EndTest st1) =
     uint32 (UtAssert_GetFailCount st +
             case_get (CaseCount (UT_SegmentCounters st1)) UTASSERT_CASETYPE_FAILURE)).
Proof.
  intros [HlS HoS] [HlT HoT] st1.
  split; [repeat split|]. intros Hpos.
  assert (Hl1 : length (CaseCount (UT_SegmentCounters st1)) =
                Z.to_nat UTASSERT_CASETYPE_MAX).
  { unfold st1. rewrite AssertEx_segment. cbv zeta. cbn [CaseCount].
    destruct (_ <? _); [rewrite case_add_length|]; exact HlS. }
  unfold UtAssert_GetPassCount, UtAssert_GetFailCount.
  rewrite EndTest_total. cbv zeta.
  apply Z.ltb_lt in Hpos. rewrite Hpos. cbn [CaseCount].
  change (UT_TotalCounters st1) with (UT_TotalCounters st).
  rewrite (fold_cases_zip _ _ HlT Hl1).
  assert (Hz : forall i, 0 <= i < UTASSERT_CASETYPE_MAX ->
     case_get (zip_with add32 (CaseCount (UT_TotalCounters st))
                 (CaseCount (UT_SegmentCounters st1))) i =
     uint32 (case_get (CaseCount (UT_TotalCounters st)) i +
             case_get (CaseCount (UT_SegmentCounters st1)) i)).
  { intros i Hi. unfold case_get. rewrite lookup_zip_with.
    destruct (lookup_lt_is_Some_2 (CaseCount (UT_TotalCounters st)) (Z.to_nat i))
      as [t Ht]; [rewrite HlT; lia|].
    destruct (lookup_lt_is_Some_2 (CaseCount (UT_SegmentCounters st1)) (Z.to_nat i))
      as [s Hs]; [rewrite Hl1; lia|].
    rewrite Ht, Hs. reflexivity. }
  split; apply Hz; vm_compute; split; congruence.
Qed.

Lemma recording_leaves_totals_witness :
  (counter_wf (UT_SegmentCounters ut_initial) /\ counter_wf (UT_TotalCounters ut_initial)) /\
  UtAssert_GetPassCount
    (snd (UtAssertEx true UTASSERT_CASETYPE_FAILURE "t.c" 5 "ok" ut_initial)) =
  UtAssert_GetPassCount ut_initial.
Proof.
  assert (HwS : counter_wf (UT_SegmentCounters ut_initial)) by zero_counter_shape.
  assert (HwT : counter_wf (UT_TotalCounters ut_initial)) by zero_counter_shape.
  split; [split; assumption|].
  destruct (recording_leaves_totals ut_initial true UTASSERT_CASETYPE_FAILURE "t.c" 5 "ok"
              HwS HwT) as ((_ & _ & H & _) & _).
  exact H.
Defined.

(** ** The value comparator *)

Section Comparator.

Lemma to_signed_unsigned w z : 0 < w -> to_signed w (to_unsigned w z) = to_signed w z.
Proof.
  intros Hw. unfold to_signed, to_unsigned.
  rewrite Zplus_mod_idemp_l. reflexivity.
Qed.

Lemma to_signed_idem w z : 0 < w -> to_signed w (to_signed w z) = to_signed w z.
Proof.
  intros Hw. unfold to_signed.
  replace ((z + 2 ^ (w - 1)) mod 2 ^ w - 2 ^ (w - 1) + 2 ^ (w - 1))
    with ((z + 2 ^ (w - 1)) mod 2 ^ w) by lia.
  rewrite Zmod_mod. reflexivity.
Qed.

Lemma IntBuf_s_of_s v : IntBuf_s (IntBuf_of_s v) = intmax v.
Proof.
  unfold IntBuf_s, IntBuf_of_s, IntBuf_bits, intmax, uintmax.
  rewrite to_signed_unsigned, to_signed_idem by lia. reflexivity.
Qed.

Lemma IntBuf_u_of_u v : IntBuf_u (IntBuf_of_u v) = uintmax v.
Proof. reflexivity. Qed.

Lemma UT_COMPARE_TYPE_double t s : UT_COMPARE_TYPE t s = 2 * (t mod 2 ^ 31) + Z.b2z s.
Proof.
  unfold UT_COMPARE_TYPE. rewrite Z.shiftl_mul_pow2 by lia.
  change (2 ^ 1) with 2.
  assert (Hsh : uint32 (uint32 t * 2) = 2 * (t mod 2 ^ 31)).
  { unfold uint32, to_unsigned. change (2 ^ 32) with (2 * 2 ^ 31).
    rewrite (Z.mul_comm (t mod (2 * 2 ^ 31)) 2).
    rewrite Z.mul_mod_distr_l by lia. f_equal.
    apply Z.mod_mod_divide. exists 2. reflexivity. }
  rewrite Hsh.
  assert (Hdisj : Z.land (2 * (t mod 2 ^ 31)) (Z.b2z s) = 0).
  { destruct s; simpl Z.b2z.
    - change 1 with (Z.ones 1). rewrite Z.land_ones by lia.
      change (2 ^ 1) with 2. rewrite Z.mul_comm. apply Z.mod_mul. lia.
    - apply Z.land_0_r. }
  rewrite <- Z.lxor_lor by exact Hdisj.
  rewrite <- Z.add_nocarry_lxor by exact Hdisj. reflexivity.
Qed.

(** The selector keeps the low 31 bits of the kind. *)
Lemma UT_COMPARE_TYPE_wraps t s : UT_COMPARE_TYPE t s = UT_COMPARE_TYPE (t mod 2 ^ 31) s.
Proof. rewrite !UT_COMPARE_TYPE_double, Zmod_mod. reflexivity. Qed.

Lemma DoCompare_kind_wraps a k r u :
  UtAssert_DoCompare a k r u = UtAssert_DoCompare a (k mod 2 ^ 31) r u.
Proof. unfold UtAssert_DoCompare. rewrite (UT_COMPARE_TYPE_wraps k u). reflexivity. Qed.



Lemma DoCompare_unsupported a k r u :
  supported_kind (k mod 2 ^ 31) = false -> UtAssert_DoCompare a k r u = false.
Proof.
  intros Hk. unfold supported_kind in Hk.
  apply andb_false_iff in Hk.
  assert (Hr : k mod 2 ^ 31 < 1 \/ 8 < k mod 2 ^ 31).
  { destruct Hk as [Hk|Hk]; [apply Z.leb_gt in Hk | apply Z.leb_gt in Hk];
      unfold UtAssert_Compare_EQ, UtAssert_Compare_BITMASK_UNSET in Hk; lia. }
  unfold UtAssert_DoCompare. cbv zeta.
  rewrite (UT_COMPARE_TYPE_double k u).
  assert (Hb : 0 <= Z.b2z u <= 1) by (destruct u; simpl; lia).
  repeat match goal with
         | |- context [?x =? UT_COMPARE_TYPE ?c ?s] =>
             let v := eval vm_compute in (UT_COMPARE_TYPE c s) in
             change (UT_COMPARE_TYPE c s) with v;
             destruct (Z.eqb_spec x v); [exfalso; lia|]
         end.
  reflexivity.
Qed.

End Comparator.




(** ** Strings and digits *)

Section Digits.

Lemma string_app_assoc (a b c : string) : ((a ++ b) ++ c = a ++ (b ++ c))%string.
Proof. induction a as [|x a IH]; simpl; [reflexivity | rewrite IH; reflexivity]. Qed.

Lemma string_app_nil_r (a : string) : (a ++ "")%string = a.
Proof. induction a as [|x a IH]; simpl; [reflexivity | rewrite IH; reflexivity]. Qed.

Lemma string_app_length (a b : string) :
  String.length (a ++ b) = (String.length a + String.length b)%nat.
Proof. induction a as [|x a IH]; simpl; [reflexivity | rewrite IH; reflexivity]. Qed.

Lemma substring_whole (m : nat) (s : string) :
  (String.length s <= m)%nat -> substring 0 m s = s.
Proof.
  revert m. induction s as [|c s IH]; intros m Hm.
  - destruct m; reflexivity.
  - destruct m as [|m]; simpl in *; [lia|]. rewrite IH by lia. reflexivity.
Qed.

Lemma snprintf_fits (size : nat) (s : string) :
  (String.length s < size)%nat -> snprintf size s = s.
Proof. intros H. unfold snprintf. apply substring_whole. lia. Qed.

Lemma digits_value_app base (a b : string) v :
  digits_value base (a ++ b) v = digits_value base b (digits_value base a v).
Proof.
  revert v. induction a as [|c a IH]; intros v; simpl; [reflexivity | apply IH].
Qed.

Lemma digit_value_char d : 0 <= d < 16 -> digit_value (digit_char d) = d.
Proof.
  intros Hd.
  assert (H : d = 0 \/ d = 1 \/ d = 2 \/ d = 3 \/ d = 4 \/ d = 5 \/ d = 6 \/ d = 7 \/
              d = 8 \/ d = 9 \/ d = 10 \/ d = 11 \/ d = 12 \/ d = 13 \/ d = 14 \/ d = 15)
    by lia.
  repeat (destruct H as [->|H]; [reflexivity|]). subst d. reflexivity.
Qed.

Lemma to_digits_S base fuel n acc :
  to_digits base (S fuel) n acc =
  if n / base =? 0 then String (digit_char (n mod base)) acc
  else to_digits base fuel (n / base) (String (digit_char (n mod base)) acc).
Proof. reflexivity. Qed.

Variable base : Z.
Hypothesis base_range : 2 <= base <= 16.

(** The digits written in front of [acc] denote [n], and there are at most
    [fuel] of them. *)
Lemma to_digits_denotes (fuel : nat) : forall n acc,
  0 <= n < base ^ Z.of_nat fuel ->
  exists s, to_digits base fuel n acc = (s ++ acc)%string /\
            (String.length s <= fuel)%nat /\
            forall v, digits_value base s v = v * base ^ Z.of_nat (String.length s) + n.
Proof.
  induction fuel as [|fuel IH]; intros n acc Hn.
  - exists ""%string. simpl in *. repeat split; [lia|]. intros v. lia.
  - rewrite Nat2Z.inj_succ, Z.pow_succ_r in Hn by lia.
    assert (Hd : 0 <= n mod base < base) by (apply Z.mod_pos_bound; lia).
    assert (Hq : 0 <= n / base < base ^ Z.of_nat fuel).
    { split; [apply Z.div_pos; lia|]. apply Z.div_lt_upper_bound; lia. }
    pose proof (Z.div_mod n base ltac:(lia)) as Hdm.
    rewrite to_digits_S. destruct (Z.eqb_spec (n / base) 0) as [Hz|Hz].
    + exists (String (digit_char (n mod base)) ""). simpl.
      repeat split; [lia|]. intros v.
      rewrite digit_value_char by lia. change (Z.of_nat 1) with 1.
      rewrite Z.pow_1_r. nia.
    + destruct (IH (n / base) (String (digit_char (n mod base)) acc) Hq)
        as (s & Hs & Hlen & Hval).
      exists (s ++ String (digit_char (n mod base)) "")%string.
      rewrite Hs, string_app_assoc. simpl. rewrite string_app_length. simpl.
      repeat split; [lia|]. intros v.
      rewrite digits_value_app. simpl. rewrite Hval, digit_value_char by lia.
      replace (Z.of_nat (String.length s + 1)) with (Z.succ (Z.of_nat (String.length s)))
        by lia.
      rewrite Z.pow_succ_r by lia. nia.
Qed.

(** A value below [base ^ k] takes at most [k] digits. *)
Lemma to_digits_length (k : nat) : forall fuel n acc,
  0 <= n < base ^ Z.of_nat (S k) ->
  (String.length (to_digits base fuel n acc) <= S k + String.length acc)%nat.
Proof.
  induction k as [|k IH]; intros fuel n acc Hn.
  - destruct fuel as [|fuel]; [simpl to_digits; lia|]. rewrite to_digits_S.
    change (Z.of_nat 1) with 1 in Hn. rewrite Z.pow_1_r in Hn.
    rewrite Z.div_small by lia. simpl. lia.
  - destruct fuel as [|fuel]; [simpl to_digits; lia|]. rewrite to_digits_S.
    destruct (Z.eqb_spec (n / base) 0) as [Hz|Hz]; [simpl; lia|].
    rewrite Nat2Z.inj_succ, Z.pow_succ_r in Hn by lia.
    assert (Hq : 0 <= n / base < base ^ Z.of_nat (S k)).
    { split; [apply Z.div_pos; lia|]. apply Z.div_lt_upper_bound; lia. }
    specialize (IH fuel (n / base) (String (digit_char (n mod base)) acc) Hq).
    simpl in IH. lia.
Qed.

Lemma fmt_unsigned_value n :
  0 <= n < 2 ^ 64 -> digits_value base (fmt_unsigned base n) 0 = n.
Proof.
  intros Hn. unfold fmt_unsigned.
  assert (Hpow : 2 ^ 64 <= base ^ Z.of_nat 64).
  { change (Z.of_nat 64) with 64. apply Z.pow_le_mono_l. lia. }
  destruct (to_digits_denotes 64 n "" ltac:(lia)) as (s & Hs & _ & Hval).
  rewrite Hs, string_app_nil_r, Hval. lia.
Qed.

Lemma fmt_unsigned_length n (k : nat) :
  0 <= n < base ^ Z.of_nat (S k) -> (String.length (fmt_unsigned base n) <= S k)%nat.
Proof.
  intros Hn. unfold fmt_unsigned.
  pose proof (to_digits_length k 64 n "" Hn) as H.
  change (String.length "") with 0%nat in H. lia.
Qed.

End Digits.

Section ValueText.

Lemma digit_char_not_minus d : 0 <= d < 16 -> Ascii.eqb (digit_char d) "-" = false.
Proof.
  intros Hd.
  assert (H : d = 0 \/ d = 1 \/ d = 2 \/ d = 3 \/ d = 4 \/ d = 5 \/ d = 6 \/ d = 7 \/
              d = 8 \/ d = 9 \/ d = 10 \/ d = 11 \/ d = 12 \/ d = 13 \/ d = 14 \/ d = 15)
    by lia.
  repeat (destruct H as [->|H]; [reflexivity|]). subst d. reflexivity.
Qed.

Lemma to_digits_head base (fuel : nat) : forall n acc d0,
  2 <= base <= 16 -> 0 <= d0 < base ->
  exists d rest, 0 <= d < base /\
    to_digits base fuel n (String (digit_char d0) acc) = String (digit_char d) rest.
Proof.
  induction fuel as [|fuel IH]; intros n acc d0 Hb Hd0.
  - exists d0, acc. split; [exact Hd0 | reflexivity].
  - rewrite to_digits_S. assert (Hd : 0 <= n mod base < base) by (apply Z.mod_pos_bound; lia).
    destruct (n / base =? 0).
    + exists (n mod base), (String (digit_char d0) acc). split; [exact Hd | reflexivity].
    + apply IH; assumption.
Qed.

Lemma fmt_unsigned_head base n :
  2 <= base <= 16 ->
  exists d rest, 0 <= d < base /\ fmt_unsigned base n = String (digit_char d) rest.
Proof.
  intros Hb. unfold fmt_unsigned. change 64%nat with (S 63). rewrite to_digits_S.
  assert (Hd : 0 <= n mod base < base) by (apply Z.mod_pos_bound; lia).
  destruct (n / base =? 0).
  - exists (n mod base), ""%string. split; [exact Hd | reflexivity].
  - apply to_digits_head; assumption.
Qed.

Lemma ulong_range v : 0 <= ulong v < 2 ^ 64.
Proof. unfold ulong, to_unsigned. apply Z.mod_pos_bound. lia. Qed.

Lemma long_range v : - 2 ^ 63 <= long v < 2 ^ 63.
Proof.
  unfold long, to_signed. change (64 - 1) with 63.
  pose proof (Z.mod_pos_bound (v + 2 ^ 63) (2 ^ 64) ltac:(lia)). lia.
Qed.

Lemma fmt_signed_value x :
  - 2 ^ 63 <= x < 2 ^ 63 -> signed_text_value (fmt_signed x) = x.
Proof.
  intros Hx. unfold fmt_signed. destruct (Z.ltb_spec x 0) as [Hneg|Hpos].
  - cbn [append signed_text_value]. change (Ascii.eqb "-" "-") with true.
    rewrite (fmt_unsigned_value 10) by lia. lia.
  - destruct (fmt_unsigned_head 10 x ltac:(lia)) as (d & rest & Hd & Heq).
    pose proof (fmt_unsigned_value 10 ltac:(lia) x ltac:(lia)) as Hval.
    rewrite Heq in *. unfold signed_text_value.
    rewrite digit_char_not_minus by lia. exact Hval.
Qed.

Lemma fmt_signed_length x :
  - 2 ^ 63 <= x < 2 ^ 63 -> (String.length (fmt_signed x) <= 20)%nat.
Proof.
  intros Hx. unfold fmt_signed. destruct (Z.ltb_spec x 0) as [Hneg|Hpos].
  - cbn [append String.length].
    pose proof (fmt_unsigned_length 10 ltac:(lia) (- x) 18) as H.
    assert (2 ^ 63 < 10 ^ Z.of_nat 19) by (vm_compute; reflexivity).
    specialize (H ltac:(lia)). lia.
  - pose proof (fmt_unsigned_length 10 ltac:(lia) x 18) as H.
    assert (2 ^ 63 < 10 ^ Z.of_nat 19) by (vm_compute; reflexivity).
    specialize (H ltac:(lia)). lia.
Qed.

End ValueText.

(** C9.  UtAssert_GetValueText with the 32 byte buffers of its caller: the
    boolean radix gives "true" for a nonzero value and "false" for zero; the
    octal and hex radix give "0" resp. "0x" followed by the digits of the
    value read as unsigned long, whatever the signedness flag; the default
    radix (and the decimal one) gives the decimal digits of the value read as
    unsigned long when the flag is set and the signed decimal rendering of the
    value read as long otherwise.  Each digit string denotes the value. *)
Theorem GetValueText_renders (v : Z) (u : bool) :
  UtAssert_GetValueText 32 v u UtAssert_Radix_BOOLEAN =
    (if v =? 0 then "false"%string else "true"%string) /\
  (UtAssert_GetValueText 32 v u UtAssert_Radix_OCTAL =
     ("0" ++ fmt_unsigned 8 (ulong v))%string /\
   digits_value 8 (fmt_unsigned 8 (ulong v)) 0 = ulong v) /\
  (UtAssert_GetValueText 32 v u UtAssert_Radix_HEX =
     ("0x" ++ fmt_unsigned 16 (ulong v))%string /\
   digits_value 16 (fmt_unsigned 16 (ulong v)) 0 = ulong v) /\
  (UtAssert_GetValueText 32 v true UtAssert_Radix_DEFAULT = fmt_unsigned 10 (ulong v) /\
   UtAssert_GetValueText 32 v true UtAssert_Radix_DECIMAL = fmt_unsigned 10 (ulong v) /\
   digits_value 10 (fmt_unsigned 10 (ulong v)) 0 = ulong v) /\
  (UtAssert_GetValueText 32 v false UtAssert_Radix_DEFAULT = fmt_signed (long v) /\
   UtAssert_GetValueText 32 v false UtAssert_Radix_DECIMAL = fmt_signed (long v) /\
   signed_text_value (fmt_signed (long v)) = long v) /\
  UtAssert_GetValueText 32 255 true UtAssert_Radix_HEX = "0xff"%string /\
  UtAssert_GetValueText 32 8 true UtAssert_Radix_OCTAL = "010"%string /\
  UtAssert_GetValueText 32 1 true UtAssert_Radix_BOOLEAN = "true"%string /\
  UtAssert_GetValueText 32 (-1) false UtAssert_Radix_DEFAULT = "-1"%string.
Proof.
  pose proof (ulong_range v) as Hu. pose proof (long_range v) as Hl.
  assert (H8 : (String.length (fmt_unsigned 8 (ulong v)) <= 22)%nat).
  { apply (fmt_unsigned_length 8 ltac:(lia) (ulong v) 21).
    assert (2 ^ 64 < 8 ^ Z.of_nat 22) by (vm_compute; reflexivity). lia. }
  assert (H16 : (String.length (fmt_unsigned 16 (ulong v)) <= 16)%nat).
  { apply (fmt_unsigned_length 16 ltac:(lia) (ulong v) 15).
    assert (2 ^ 64 <= 16 ^ Z.of_nat 16) by (vm_compute; discriminate). lia. }
  assert (H10 : (String.length (fmt_unsigned 10 (ulong v)) <= 20)%nat).
  { apply (fmt_unsigned_length 10 ltac:(lia) (ulong v) 19).
    assert (2 ^ 64 < 10 ^ Z.of_nat 20) by (vm_compute; reflexivity). lia. }
  pose proof (fmt_signed_length (long v) Hl) as Hs.
  split; [|split; [|split; [|split; [|split]]]].
  - change (UtAssert_GetValueText 32 v u UtAssert_Radix_BOOLEAN)
      with (if negb (v =? 0) then snprintf 32 "true" else snprintf 32 "false").
    destruct (v =? 0); reflexivity.
  - split; [|apply fmt_unsigned_value; lia].
    change (UtAssert_GetValueText 32 v u UtAssert_Radix_OCTAL)
      with (snprintf 32 ("0" ++ fmt_unsigned 8 (ulong v))).
    apply snprintf_fits. cbn [String.length append]. lia.
  - split; [|apply fmt_unsigned_value; lia].
    change (UtAssert_GetValueText 32 v u UtAssert_Radix_HEX)
      with (snprintf 32 ("0x" ++ fmt_unsigned 16 (ulong v))).
    apply snprintf_fits. cbn [String.length append]. lia.
  - split; [|split; [|apply fmt_unsigned_value; lia]].
    + change (UtAssert_GetValueText 32 v true UtAssert_Radix_DEFAULT)
        with (snprintf 32 (fmt_unsigned 10 (ulong v))).
      apply snprintf_fits. lia.
    + change (UtAssert_GetValueText 32 v true UtAssert_Radix_DECIMAL)
        with (snprintf 32 (fmt_unsigned 10 (ulong v))).
      apply snprintf_fits. lia.
  - split; [|split; [|apply fmt_signed_value; exact Hl]].
    + change (UtAssert_GetValueText 32 v false UtAssert_Radix_DEFAULT)
        with (snprintf 32 (fmt_signed (long v))).
      apply snprintf_fits. lia.
    + change (UtAssert_GetValueText 32 v false UtAssert_Radix_DECIMAL)
        with (snprintf 32 (fmt_signed (long v))).
      apply snprintf_fits. lia.
  - repeat split; vm_compute; reflexivity.
Qed.

(** ** The type tag of the generic integer compare *)

Section Tag.

Lemma substring_0_0 (s : string) : substring 0 0 s = ""%string.
Proof. destruct s; reflexivity. Qed.

Lemma substring_length (m : nat) (s : string) :
  String.length (substring 0 m s) = Nat.min m (String.length s).
Proof.
  revert m. induction s as [|c s IH]; intros [|m]; simpl; try reflexivity.
  rewrite IH. reflexivity.
Qed.

Lemma substring_get (m i : nat) (s : string) :
  (i < m)%nat -> String.get i (substring 0 m s) = String.get i s.
Proof.
  revert m i. induction s as [|c s IH]; intros m i Hi.
  - destruct m; reflexivity.
  - destruct m as [|m]; [lia|]. simpl. destruct i as [|i]; [reflexivity|].
    apply IH. lia.
Qed.

Lemma substring_substring (n m : nat) (s : string) :
  (n <= m)%nat -> substring 0 n (substring 0 m s) = substring 0 n s.
Proof.
  revert n m. induction s as [|c s IH]; intros n m Hnm.
  - destruct m, n; reflexivity.
  - destruct n as [|n]; [rewrite !substring_0_0; reflexivity|].
    destruct m as [|m]; [lia|]. simpl. rewrite IH by lia. reflexivity.
Qed.

Lemma tag_trim_ext (s1 s2 : string) (n : nat) :
  (forall i, (i < n)%nat -> String.get i s1 = String.get i s2) ->
  tag_trim s1 n = tag_trim s2 n.
Proof.
  induction n as [|n IH]; intros H; [reflexivity|]. simpl.
  rewrite (H n) by lia. destruct (String.get n s2) as [c|]; [|reflexivity].
  destruct (is_tag_trailer c); [|reflexivity]. apply IH. intros i Hi. apply H. lia.
Qed.

Lemma tag_trim_le (s : string) (n : nat) : (tag_trim s n <= n)%nat.
Proof.
  induction n as [|n IH]; simpl; [lia|].
  destruct (String.get n s) as [c|]; [|lia].
  destruct (is_tag_trailer c); lia.
Qed.

Lemma get_in_range (s : string) (n : nat) :
  (n < String.length s)%nat -> exists c, String.get n s = Some c.
Proof.
  revert n. induction s as [|c s IH]; intros n Hn; simpl in Hn; [lia|].
  destruct n as [|n]; simpl; [eauto|]. apply IH. lia.
Qed.

Lemma tag_trim_cons (c : ascii) (s : string) (n : nat) :
  (n <= String.length s)%nat ->
  tag_trim (String c s) (S n) =
  match tag_trim s n with
  | O => if is_tag_trailer c then O else 1%nat
  | S k => S (S k)
  end.
Proof.
  induction n as [|n IH]; intros Hn.
  - simpl. destruct (is_tag_trailer c); reflexivity.
  - destruct (get_in_range s n ltac:(lia)) as [x Hx].
    change (tag_trim (String c s) (S (S n))) with
      (match String.get n s with
       | Some d => if is_tag_trailer d then tag_trim (String c s) (S n) else S (S n)
       | None => S (S n)
       end).
    simpl tag_trim at 2. rewrite Hx.
    destruct (is_tag_trailer x); [apply IH; lia | reflexivity].
Qed.

Lemma tag_trim_rtrim (p : string) :
  tag_trim p (String.length p) = String.length (spec_rtrim p) /\
  substring 0 (String.length (spec_rtrim p)) p = spec_rtrim p.
Proof.
  induction p as [|c s [IHn IHs]]; [split; reflexivity|].
  simpl String.length at 1. rewrite tag_trim_cons by lia. rewrite IHn.
  simpl spec_rtrim. destruct (spec_rtrim s) as [|x r] eqn:E.
  - simpl. destruct (is_tag_trailer c); simpl; [split; reflexivity|].
    rewrite substring_0_0. split; reflexivity.
  - simpl String.length in *. split; [reflexivity|].
    simpl substring. rewrite IHs. reflexivity.
Qed.

Lemma tag_matches_spec (Typename : option string) :
  typename_length Typename < 2 ^ 31 ->
  GenericIntegerCompare_tag Typename = spec_tag_prefix (kept_tag Typename).
Proof.
  intros Hlen. destruct Typename as [[|c t]|]; try reflexivity.
  unfold GenericIntegerCompare_tag, kept_tag, spec_tag_prefix.
  set (name := String c t) in *. unfold typename_length in Hlen.
  set (p := substring 0 29 name).
  assert (Hint : int (Z.of_nat (String.length name)) = Z.of_nat (String.length name)).
  { unfold int, to_signed. change (32 - 1) with 31.
    rewrite Z.mod_small by lia. lia. }
  rewrite Hint.
  assert (Hsz : size_t (Z.of_nat (String.length name)) = Z.of_nat (String.length name)).
  { unfold size_t, to_unsigned. apply Z.mod_small. lia. }
  rewrite Hsz.
  destruct (Z.ltb_spec (Z.of_nat (String.length name)) 0) as [Hneg|_]; [lia|].
  assert (HL : Z.to_nat (if Z.of_nat (String.length name) >? 32 - 3 then 32 - 3
                         else Z.of_nat (String.length name)) = String.length p).
  { unfold p. rewrite substring_length.
    destruct (Z.gtb_spec (Z.of_nat (String.length name)) (32 - 3)); lia. }
  rewrite HL.
  assert (Hp29 : (String.length p <= 29)%nat).
  { unfold p. rewrite substring_length. lia. }
  assert (Htrim : tag_trim (snprintf 32 name) (String.length p) =
                  String.length (spec_rtrim p)).
  { rewrite <- (proj1 (tag_trim_rtrim p)). apply tag_trim_ext. intros i Hi.
    unfold snprintf, p. rewrite !substring_get by lia. reflexivity. }
  rewrite Htrim.
  assert (Hle : (String.length (spec_rtrim p) <= String.length p)%nat).
  { rewrite <- (proj1 (tag_trim_rtrim p)). apply tag_trim_le. }
  assert (Hsub : substring 0 (String.length (spec_rtrim p)) (snprintf 32 name) = spec_rtrim p).
  { unfold snprintf. change (32 - 1)%nat with 31%nat.
    rewrite substring_substring by lia.
    etransitivity; [|exact (proj2 (tag_trim_rtrim p))].
    symmetry. apply substring_substring. lia. }
  rewrite Hsub. destruct (spec_rtrim p); reflexivity.
Qed.

Lemma kept_tag_short (t : string) :
  (String.length t <= 29)%nat -> kept_tag (Some t) = t.
Proof. intros H. apply substring_whole. exact H. Qed.

End Tag.

(** C8 (as amended).  The message of UtAssert_GenericIntegerCompare is
    '<tag><actualText> (<actualValueText>) <opText> <referenceText>
    (<referenceValueText>)', cut to the 255 characters of the message buffer
    when it is handed to the report: the tag is built from the first 29
    characters of the type tag, without their trailing white space and colons
    and followed by a colon and a blank when anything is left (so a type tag
    of up to 29 characters gives '<Typename>: ', "int32" gives "int32: ", an
    empty or absent one no prefix); an operand label that begins with
    UTASSERT_ is shown without it; the value texts are those of
    UtAssert_GetValueText in the radix asked for (hex when none was asked for
    and the type tag holds an asterisk). *)
Theorem GenericIntegerCompare_message_format (IsUnsigned : bool) (ActualValue CompareType
    RefValue : Z) (File : string) (Line RadixType : Z) (Typename : option string)
    (ActualText RefText : string) (st : ut_state) :
  typename_length Typename < 2 ^ 31 ->
  let r := UtAssert_GenericIntegerCompare IsUnsigned ActualValue CompareType RefValue File
             Line RadixType Typename ActualText RefText st in
  let radix := GenericIntegerCompare_radix Typename RadixType in
  let msg := spec_compare_message
               (spec_tag_prefix (kept_tag Typename)) (spec_label ActualText)
               (UtAssert_GetValueText 32 ActualValue IsUnsigned radix)
               (UtAssert_GetOpText CompareType) (spec_label RefText)
               (UtAssert_GetValueText 32 RefValue IsUnsigned radix) in
  GenericIntegerCompare_message IsUnsigned ActualValue CompareType RefValue RadixType
    Typename ActualText RefText = msg /\
  fst r = UtAssert_DoCompare (intmax ActualValue) CompareType RefValue IsUnsigned /\
  snd r = UtAssert_DoReport File Line
            (uint32 (1 + TestSegmentCount (UT_TotalCounters st)))
            (uint32 (TotalTestCases (UT_SegmentCounters st) + 1))
            (if fst r then UTASSERT_CASETYPE_PASS else UTASSERT_CASETYPE_FAILURE)
            (CurrentSegment st) (snprintf 256 msg)
            (mkState (DefaultContext st) (UT_SegmentCounters (snd r)) (UT_TotalCounters st)
                     (CurrentSegment st) (bsp_log st)) /\
  (forall t, Typename = Some t -> (String.length t <= 29)%nat ->
             spec_tag_prefix (kept_tag Typename) = spec_tag_prefix t) /\
  spec_tag_prefix "int32" = "int32: "%string /\
  spec_tag_prefix "" = ""%string /\
  spec_label "UTASSERT_FOO" = "FOO"%string.
Proof.
  intros Hlen r radix msg.
  assert (Hmsg : GenericIntegerCompare_message IsUnsigned ActualValue CompareType RefValue
                   RadixType Typename ActualText RefText = msg).
  { unfold GenericIntegerCompare_message, msg, spec_compare_message.
    rewrite (tag_matches_spec Typename Hlen). reflexivity. }
  split; [exact Hmsg|]. split; [reflexivity|]. split.
  - unfold r, UtAssert_GenericIntegerCompare. rewrite Hmsg.
    unfold UtAssertEx. cbn [fst snd].
    destruct (UtAssert_DoCompare (intmax ActualValue) CompareType RefValue IsUnsigned);
      reflexivity.
  - split; [|repeat split].
    intros t -> Ht. rewrite kept_tag_short by exact Ht. reflexivity.
Qed.

Lemma GenericIntegerCompare_message_format_witness :
  typename_length (Some "int32"%string) < 2 ^ 31 /\
  GenericIntegerCompare_message false 5 UtAssert_Compare_EQ 5 UtAssert_Radix_DECIMAL
    (Some "int32"%string) "UTASSERT_x" "y" = "int32: x (5) == y (5)"%string.
Proof.
  assert (H : typename_length (Some "int32"%string) < 2 ^ 31) by (vm_compute; reflexivity).
  split; [exact H|].
  destruct (GenericIntegerCompare_message_format false 5 UtAssert_Compare_EQ 5 "t.c" 1
              UtAssert_Radix_DECIMAL (Some "int32"%string) "UTASSERT_x" "y" ut_initial H)
    as (Hm & _).
  rewrite Hm. vm_compute. reflexivity.
Defined.

(** C8 as stated fails for a type tag of more than 29 characters: of thirty
    letters only twenty-nine reach the message, so the prefix is not
    '<Typename>: '. *)
Lemma GenericIntegerCompare_long_tag :
  GenericIntegerCompare_message true 1 UtAssert_Compare_EQ 1 UtAssert_Radix_DECIMAL
    (Some thirty_a) "x" "y" <>
  spec_compare_message (thirty_a ++ ": ") "x" "1" "==" "y" "1" /\
  GenericIntegerCompare_message true 1 UtAssert_Compare_EQ 1 UtAssert_Radix_DECIMAL
    (Some thirty_a) "x" "y" =
  spec_compare_message (substring 0 29 thirty_a ++ ": ") "x" "1" "==" "y" "1".
Proof. split; [vm_compute; discriminate | vm_compute; reflexivity]. Qed.

(** ** String buffers *)

Section Buffers.

Lemma strlen_effective (s : list ascii) (n : Z) :
  strlen s = Some n ->
  n = Z.of_nat (length (spec_effective s None)) /\
  spec_effective s None = take (Z.to_nat n) s /\
  n < Z.of_nat (length s).
Proof.
  revert n. induction s as [|c s IH]; intros n H; simpl in H; [discriminate|].
  simpl spec_effective. destruct (Ascii.eqb c NUL).
  - injection H as <-. simpl. repeat split; try lia.
  - destruct (strlen s) as [n'|]; [|discriminate]. injection H as <-.
    destruct (IH n' eq_refl) as (Hn & Heff & Hlt).
    simpl length. rewrite Z2Nat.inj_succ by lia. simpl take.
    rewrite <- Heff. repeat split; lia.
Qed.

Lemma memchr_obj_zero (s : list ascii) (c : ascii) (n : Z) :
  n <= 0 -> memchr_obj s c n = Some None.
Proof.
  intros Hn. destruct s; simpl; destruct (Z.leb_spec n 0); (reflexivity || lia).
Qed.


Lemma memchr_effective (s : list ascii) : forall (bound : Z) (e : option Z),
  0 <= bound -> memchr_obj s NUL bound = Some e ->
  let n := StringBuf_len e bound in
  n = Z.of_nat (length (spec_effective s (Some (Z.to_nat bound)))) /\
  spec_effective s (Some (Z.to_nat bound)) = take (Z.to_nat n) s /\
  n <= Z.of_nat (length s).
Proof.
  induction s as [|d s IH]; intros bound e Hb H; cbv zeta.
  - simpl in H. destruct (Z.leb_spec bound 0); [|discriminate].
    injection H as <-. assert (bound = 0) by lia. subst bound.
    simpl. repeat split; try lia.
  - destruct (Z.leb_spec bound 0) as [Hz|Hpos].
    + rewrite memchr_obj_zero in H by exact Hz. injection H as <-.
      assert (bound = 0) by lia. subst bound. simpl.
      repeat split; try lia.
    + assert (Hnat : Z.to_nat bound = S (Z.to_nat (bound - 1))) by lia.
      rewrite Hnat. simpl spec_effective.
      simpl in H. destruct (Z.leb_spec bound 0); [lia|].
      destruct (Ascii.eqb d NUL).
      * injection H as <-. simpl. repeat split; try lia.
      * destruct (memchr_obj s NUL (bound - 1)) as [e'|] eqn:E; [|discriminate].
        injection H as <-.
        destruct (IH (bound - 1) e' ltac:(lia) E) as (Hn & Heff & Hle).
        assert (Hlen : StringBuf_len (option_map Z.succ e') bound =
                       Z.succ (StringBuf_len e' (bound - 1))).
        { destruct e'; simpl; lia. }
        rewrite Hlen. simpl length.
        rewrite Z2Nat.inj_succ by lia. simpl take. rewrite <- Heff.
        repeat split; lia.
Qed.

Lemma StringBuf_end_effective (s : list ascii) (StringMax : Z) (e : option Z) :
  0 <= StringMax -> StringBuf_end (Some s) StringMax = Some e ->
  let n := StringBuf_len e StringMax in
  let eff := spec_effective s (spec_bound StringMax) in
  n = Z.of_nat (length eff) /\ eff = take (Z.to_nat n) s /\ n <= Z.of_nat (length s).
Proof.
  intros Hmax H. unfold StringBuf_end, spec_bound in *.
  destruct (StringMax =? UTASSERT_STRINGBUF_NULL_TERM).
  - destruct (strlen s) as [n0|] eqn:E; [|discriminate]. injection H as <-.
    destruct (strlen_effective s n0 E) as (Hn & Heff & Hlt).
    simpl. repeat split; try assumption. lia.
  - apply memchr_effective; assumption.
Qed.

Lemma first_difference_0 (s1 s2 : list ascii) : first_difference s1 s2 0 = 0.
Proof. destruct s1, s2; reflexivity. Qed.

Lemma first_difference_take (m : nat) : forall (s1 s2 : list ascii) (n1 n2 : nat),
  (m <= n1)%nat -> (m <= n2)%nat ->
  first_difference s1 s2 m = first_difference (take n1 s1) (take n2 s2) m.
Proof.
  induction m as [|m IH]; intros s1 s2 n1 n2 H1 H2;
    [rewrite !first_difference_0; reflexivity|].
  destruct n1 as [|n1]; [lia|]. destruct n2 as [|n2]; [lia|].
  destruct s1 as [|c1 s1]; [reflexivity|].
  destruct s2 as [|c2 s2]; [reflexivity|].
  simpl. destruct (byte_value c1 =? byte_value c2); [|reflexivity].
  apply IH; lia.
Qed.

Lemma spec_order_first_difference (e1 : list ascii) : forall e2 : list ascii,
  spec_order e1 e2 =
  match first_difference e1 e2 (Nat.min (length e1) (length e2)) ?= 0 with
  | Eq => Nat.compare (length e1) (length e2)
  | c => c
  end.
Proof.
  induction e1 as [|x e1 IH]; intros [|y e2]; try reflexivity.
  simpl. destruct (Z.eqb_spec (byte_value x) (byte_value y)) as [Heq|Hne].
  - rewrite Heq, Z.compare_refl. apply IH.
  - destruct (Z.compare_spec (byte_value x) (byte_value y)) as [H|H|H]; [lia| |].
    + assert (Hc : (byte_value x - byte_value y ?= 0) = Lt) by (apply Z.compare_lt_iff; lia).
      rewrite Hc. reflexivity.
    + assert (Hc : (byte_value x - byte_value y ?= 0) = Gt) by (apply Z.compare_gt_iff; lia).
      rewrite Hc. reflexivity.
Qed.

Lemma StringBuf_result_sign (CompareType Compare : Z) :
  StringBuf_result CompareType Compare = spec_kind_holds CompareType (Compare ?= 0).
Proof.
  unfold StringBuf_result, spec_kind_holds.
  rewrite Z.gtb_ltb, Z.geb_leb.
  destruct (Z.compare_spec Compare 0) as [H|H|H];
    repeat match goal with
           | |- context [if ?b then _ else _] => destruct b
           end;
    try reflexivity;
    first [ apply Z.eqb_eq; lia | apply Z.ltb_lt; lia | apply Z.leb_le; lia
          | apply Z.eqb_neq; lia | apply Z.ltb_ge; lia | apply Z.leb_gt; lia
          | apply negb_true_iff, Z.eqb_neq; lia
          | apply negb_false_iff, Z.eqb_eq; lia ].
Qed.

Lemma int_of_small_difference (d : Z) :
  - 2 ^ 31 <= d < 2 ^ 31 -> int (size_t d) = d.
Proof.
  intros Hd. unfold int, size_t, to_signed, to_unsigned.
  change (32 - 1) with 31.
  rewrite <- (Zplus_mod_idemp_l (d mod 2 ^ 64)).
  rewrite (Z.mod_mod_divide d (2 ^ 64) (2 ^ 32)) by (exists (2 ^ 32); reflexivity).
  rewrite Zplus_mod_idemp_l. rewrite Z.mod_small by lia. lia.
Qed.

(** The order the function settles on, for two buffers that are read within
    their objects. *)
Lemma StringBuf_order_effective (s1 s2 : list ascii) (n1 n2 : Z) (Compare : Z) :
  let e1 := take (Z.to_nat n1) s1 in
  let e2 := take (Z.to_nat n2) s2 in
  n1 = Z.of_nat (length e1) -> n2 = Z.of_nat (length e2) ->
  StringBuf_order (Some s1) (Some s2) n1 n2 = Some Compare ->
  Compare =
    let c := first_difference e1 e2 (Nat.min (length e1) (length e2)) in
    if c =? 0 then int (size_t (n1 - n2)) else c.
Proof.
  intros e1 e2 H1 H2 H. unfold StringBuf_order in H.
  destruct (Z.eqb_spec n1 0) as [Hz1|Hz1]; destruct (Z.eqb_spec n2 0) as [Hz2|Hz2];
    cbn [andb] in H.
  - injection H as <-.
    assert (Hl1 : length e1 = 0%nat) by lia. assert (Hl2 : length e2 = 0%nat) by lia.
    rewrite Hl1, Hl2, Hz1, Hz2. cbn [Nat.min]. cbv zeta.
    rewrite first_difference_0. reflexivity.
  - assert (Hl1 : length e1 = 0%nat) by lia.
    rewrite Hl1. cbn [Nat.min]. cbv zeta. rewrite first_difference_0. cbn [Z.eqb].
    destruct (Z.ltb_spec n1 n2); [|lia]. rewrite Hz1 in H. cbn in H.
    injection H as <-. rewrite Hz1. reflexivity.
  - assert (Hl2 : length e2 = 0%nat) by lia.
    rewrite Hl2, Nat.min_0_r.
    assert (Hfd : first_difference e1 e2 0 = 0) by apply first_difference_0.
    cbv zeta. rewrite Hfd. cbn [Z.eqb].
    destruct (Z.ltb_spec n1 n2); [lia|]. rewrite Hz2 in H. cbn in H.
    injection H as <-. rewrite Hz2. reflexivity.
  - assert (Hle1 : n1 <= Z.of_nat (length s1)).
    { rewrite H1. unfold e1. rewrite length_take. lia. }
    assert (Hle2 : n2 <= Z.of_nat (length s2)).
    { rewrite H2. unfold e2. rewrite length_take. lia. }
    set (m := if n1 <? n2 then n1 else n2) in *.
    assert (Hm : m = Z.of_nat (Nat.min (length e1) (length e2))).
    { unfold m. destruct (Z.ltb_spec n1 n2); lia. }
    assert (Hmem : memcmp (Some s1) (Some s2) m =
                   Some (first_difference s1 s2 (Z.to_nat m))).
    { unfold memcmp. destruct (Z.eqb_spec m 0) as [Hm0|Hm0].
      { exfalso. unfold m in Hm0. destruct (n1 <? n2); lia. }
      destruct (Z.leb_spec m (Z.of_nat (length s1))); [|lia].
      destruct (Z.leb_spec m (Z.of_nat (length s2))); [|lia]. reflexivity. }
    assert (Hsel : (if n1 <? n2 then memcmp (Some s1) (Some s2) n1
                    else memcmp (Some s1) (Some s2) n2) = memcmp (Some s1) (Some s2) m).
    { unfold m. destruct (n1 <? n2); reflexivity. }
    rewrite Hsel, Hmem in H. cbn in H. injection H as <-.
    rewrite (first_difference_take (Z.to_nat m) s1 s2 (Z.to_nat n1) (Z.to_nat n2)) by lia.
    fold e1 e2. rewrite Hm, Nat2Z.id. reflexivity.
Qed.

(** What the claim says of the result holds on every call that is defined
    and whose comparison lengths differ by less than 2^31. *)
Lemma StringBufCompare_defined_result (s1 s2 : list ascii) (String1Max String2Max
    CompareType : Z) (File : string) (Line : Z) (st : ut_state) (r : bool * ut_state) :
  0 <= String1Max -> 0 <= String2Max ->
  UtAssert_StringBufCompare (Some s1) String1Max (Some s2) String2Max CompareType File
    Line st = Some r ->
  let e1 := spec_effective s1 (spec_bound String1Max) in
  let e2 := spec_effective s2 (spec_bound String2Max) in
  - 2 ^ 31 <= Z.of_nat (length e1) - Z.of_nat (length e2) < 2 ^ 31 ->
  fst r = spec_kind_holds CompareType (spec_order e1 e2).
Proof.
  intros Hm1 Hm2 H e1 e2 Hsmall. unfold UtAssert_StringBufCompare in H.
  destruct (StringBuf_end (Some s1) String1Max) as [E1|] eqn:HE1; [|discriminate].
  destruct (StringBuf_end (Some s2) String2Max) as [E2|] eqn:HE2; [|discriminate].
  cbn [mbind option_bind] in H.
  destruct (StringBuf_end_effective s1 String1Max E1 Hm1 HE1) as (Hn1 & Heff1 & _).
  destruct (StringBuf_end_effective s2 String2Max E2 Hm2 HE2) as (Hn2 & Heff2 & _).
  fold e1 in Hn1, Heff1. fold e2 in Hn2, Heff2.
  set (n1 := StringBuf_len E1 String1Max) in *.
  set (n2 := StringBuf_len E2 String2Max) in *.
  destruct (StringBuf_order (Some s1) (Some s2) n1 n2) as [Compare|] eqn:HO;
    [|discriminate].
  cbn [mbind option_bind] in H.
  destruct (StringBuf_scrub (Some s1) n1) as [t1|]; [|discriminate].
  destruct (StringBuf_scrub (Some s2) n2) as [t2|]; [|discriminate].
  cbn [mbind option_bind] in H. injection H as <-.
  unfold UtAssertEx. cbn [fst].
  rewrite StringBuf_result_sign. f_equal.
  apply StringBuf_order_effective in HO; rewrite <- ?Heff1, <- ?Heff2; try assumption.
  rewrite <- Heff1, <- Heff2 in HO. cbv zeta in HO.
  rewrite spec_order_first_difference.
  destruct (Z.eqb_spec (first_difference e1 e2 (Nat.min (length e1) (length e2))) 0)
    as [Hc|Hc].
  - rewrite Hc, Z.compare_refl. rewrite HO, int_of_small_difference by lia.
    rewrite Hn1, Hn2, <- Nat2Z.inj_compare. symmetry. apply Z.compare_sub.
  - rewrite HO.
    destruct (first_difference e1 e2 (Nat.min (length e1) (length e2)) ?= 0) eqn:Ec;
      try reflexivity.
    apply Z.compare_eq in Ec. contradiction.
Qed.

End Buffers.

Example StringBufCompare_spec_samples :
  fst <$> UtAssert_StringBufCompare (c_str "abc") UTASSERT_STRINGBUF_NULL_TERM
            (c_str "abc") UTASSERT_STRINGBUF_NULL_TERM UtAssert_Compare_EQ "t.c" 1
            ut_initial = Some true /\
  fst <$> UtAssert_StringBufCompare (c_str "ab") 2 (c_str "abc") 3 UtAssert_Compare_EQ
            "t.c" 1 ut_initial = Some false /\
  fst <$> UtAssert_StringBufCompare (c_str "") 0 (c_str "") 5 UtAssert_Compare_EQ
            "t.c" 1 ut_initial = Some true /\
  fst <$> UtAssert_StringBufCompare (c_str "ab") 2 (c_str "abc") 3 UtAssert_Compare_LT
            "t.c" 1 ut_initial = Some true.
Proof. repeat split; vm_compute; reflexivity. Qed.

(** Two texts that differ after a newline are shown alike and compare
    unequal. *)
Example StringBufCompare_newline_sample :
  (fun p => (fst p, bsp_log (snd p))) <$>
    UtAssert_StringBufCompare (Some ["a"; newline; "b"; NUL]%char) 8
      (Some ["a"; newline; "c"; NUL]%char) 8 UtAssert_Compare_EQ "t.c" 1 ut_initial =
  Some (false, [UT_BSP_DoText UTASSERT_CASETYPE_FAILURE
                  "01.001 t.c:1 - String: 'a' == 'a'"]).
Proof. vm_compute. reflexivity. Qed.

Section LongText.

Lemma strlen_repeat_a (n : nat) :
  strlen (repeat "a"%char n ++ [NUL]) = Some (Z.of_nat n).
Proof.
  induction n as [|n IH]; [reflexivity|].
  change (repeat "a"%char (S n) ++ [NUL])%list
    with ("a"%char :: (repeat "a"%char n ++ [NUL]))%list.
  cbn [strlen]. change (Ascii.eqb "a" NUL) with false. cbv iota.
  rewrite IH. cbn [option_map]. rewrite Nat2Z.inj_succ. reflexivity.
Qed.

Lemma newline_text_compare (n : nat) (CompareType : Z) (File : string) (Line : Z)
    (st : ut_state) :
  UtAssert_StringBufCompare (Some (newline :: repeat "a"%char n ++ [NUL]))
    UTASSERT_STRINGBUF_NULL_TERM (c_str "") UTASSERT_STRINGBUF_NULL_TERM CompareType
    File Line st =
  Some (UtAssertEx (StringBuf_result CompareType (int (size_t (Z.succ (Z.of_nat n) - 0))))
          UTASSERT_CASETYPE_FAILURE File Line "String: '' == ''" st).
Proof.
  unfold UtAssert_StringBufCompare.
  assert (H1 : StringBuf_end (Some (newline :: repeat "a"%char n ++ [NUL]))
                 UTASSERT_STRINGBUF_NULL_TERM = Some (Some (Z.succ (Z.of_nat n)))).
  { unfold StringBuf_end. rewrite Z.eqb_refl. cbn [strlen].
    change (Ascii.eqb newline NUL) with false. cbv iota.
    rewrite strlen_repeat_a. reflexivity. }
  assert (H2 : StringBuf_end (c_str "") UTASSERT_STRINGBUF_NULL_TERM = Some (Some 0))
    by reflexivity.
  rewrite H1, H2. cbn [mbind option_bind StringBuf_len].
  assert (Hpos : 0 < Z.succ (Z.of_nat n)) by lia.
  assert (HO : StringBuf_order (Some (newline :: repeat "a"%char n ++ [NUL])) (c_str "")
                 (Z.succ (Z.of_nat n)) 0 =
               Some (int (size_t (Z.succ (Z.of_nat n) - 0)))).
  { unfold StringBuf_order.
    destruct (Z.eqb_spec (Z.succ (Z.of_nat n)) 0); [lia|]. cbn [andb].
    destruct (Z.ltb_spec (Z.succ (Z.of_nat n)) 0); [lia|]. reflexivity. }
  rewrite HO. cbn [mbind option_bind].
  assert (HS1 : StringBuf_scrub (Some (newline :: repeat "a"%char n ++ [NUL]))
                  (Z.succ (Z.of_nat n)) = Some ""%string).
  { unfold StringBuf_scrub. destruct (Z.ltb_spec 0 (Z.succ (Z.of_nat n))); [|lia].
    unfold memchr. cbn [memchr_obj].
    destruct (Z.leb_spec (Z.succ (Z.of_nat n)) 0); [lia|].
    rewrite Ascii.eqb_refl. cbn [mbind option_bind StringBuf_len].
    destruct (Z.leb_spec 0 (Z.of_nat (length (newline :: repeat "a"%char n ++ [NUL]))));
      [|lia].
    reflexivity. }
  rewrite HS1. reflexivity.
Qed.

Lemma newline_text_is_longer (l : list ascii) :
  spec_order (spec_effective (newline :: l) None) (spec_effective [NUL] None) = Gt.
Proof. reflexivity. Qed.

End LongText.

(** C6, evaluated where the code leaves the rule of the claim.  A text of
    2^31 bytes that opens with a newline against the empty text: the texts
    agree on the shorter length and the longer one is to count as greater, but
    the length difference is narrowed to int and comes out negative, so
    "greater than" fails and "less than" passes.  And two equal texts of 256
    characters: the copy for the log runs past ScrubbedString1[256], so the
    call has no defined result. *)
Theorem StringBufCompare_length_difference_narrowed (File : string) (Line : Z)
    (st : ut_state) :
  spec_order (spec_effective long_text (spec_bound UTASSERT_STRINGBUF_NULL_TERM))
             (spec_effective [NUL] (spec_bound UTASSERT_STRINGBUF_NULL_TERM)) = Gt /\
  fst <$> UtAssert_StringBufCompare (Some long_text) UTASSERT_STRINGBUF_NULL_TERM
            (c_str "") UTASSERT_STRINGBUF_NULL_TERM UtAssert_Compare_GT File Line st =
    Some false /\
  fst <$> UtAssert_StringBufCompare (Some long_text) UTASSERT_STRINGBUF_NULL_TERM
            (c_str "") UTASSERT_STRINGBUF_NULL_TERM UtAssert_Compare_LT File Line st =
    Some true /\
  spec_kind_holds UtAssert_Compare_GT Gt = true /\
  UtAssert_StringBufCompare (c_str text_256) UTASSERT_STRINGBUF_NULL_TERM
    (c_str text_256) UTASSERT_STRINGBUF_NULL_TERM UtAssert_Compare_EQ "t.c" 1 ut_initial =
    None.
Proof.
  assert (Hn : int (size_t (Z.succ (Z.of_nat (Z.to_nat 2147483647)) - 0)) = -2147483648).
  { rewrite Z2Nat.id by lia. vm_compute. reflexivity. }
  split; [unfold long_text; apply newline_text_is_longer|].
  split; [|split; [|split]].
  - unfold long_text. rewrite newline_text_compare, Hn. reflexivity.
  - unfold long_text. rewrite newline_text_compare, Hn. reflexivity.
  - reflexivity.
  - vm_compute. reflexivity.
Qed.

Section NullPointer.

Lemma StringBufCompare_null_first (String1Max : Z) (String2 : option (list ascii))
    (String2Max CompareType : Z) (File : string) (Line : Z) (st : ut_state) :
  0 < String1Max ->
  UtAssert_StringBufCompare None String1Max String2 String2Max CompareType File Line st =
  None.
Proof.
  intros Hpos. unfold UtAssert_StringBufCompare.
  cbn [StringBuf_end mbind option_bind StringBuf_len].
  destruct (StringBuf_end String2 String2Max) as [E2|]; [|reflexivity].
  cbn [mbind option_bind]. unfold StringBuf_order.
  destruct (Z.eqb_spec String1Max 0); [lia|]. cbn [andb].
  assert (Hscrub : StringBuf_scrub None String1Max = None).
  { unfold StringBuf_scrub. destruct (Z.ltb_spec 0 String1Max); [|lia].
    unfold memchr. destruct (Z.eqb_spec String1Max 0); [lia|]. reflexivity. }
  rewrite Hscrub.
  set (m := if String1Max <? StringBuf_len E2 String2Max then String1Max
            else StringBuf_len E2 String2Max).
  assert (Hsel : (if String1Max <? StringBuf_len E2 String2Max
                  then memcmp None String2 String1Max
                  else memcmp None String2 (StringBuf_len E2 String2Max)) =
                 memcmp None String2 m).
  { unfold m. destruct (String1Max <? _); reflexivity. }
  rewrite Hsel. unfold memcmp. destruct (m =? 0); reflexivity.
Qed.

Lemma StringBufCompare_null_second (String1 : option (list ascii)) (String1Max
    String2Max CompareType : Z) (File : string) (Line : Z) (st : ut_state) :
  0 < String2Max ->
  UtAssert_StringBufCompare String1 String1Max None String2Max CompareType File Line st =
  None.
Proof.
  intros Hpos. unfold UtAssert_StringBufCompare.
  destruct (StringBuf_end String1 String1Max) as [E1|]; [|reflexivity].
  cbn [StringBuf_end mbind option_bind StringBuf_len]. unfold StringBuf_order.
  destruct (Z.eqb_spec String2Max 0); [lia|]. rewrite andb_false_r.
  assert (Hscrub : StringBuf_scrub None String2Max = None).
  { unfold StringBuf_scrub. destruct (Z.ltb_spec 0 String2Max); [|lia].
    unfold memchr. destruct (Z.eqb_spec String2Max 0); [lia|]. reflexivity. }
  rewrite Hscrub.
  set (m := if StringBuf_len E1 String1Max <? String2Max then StringBuf_len E1 String1Max
            else String2Max).
  assert (Hsel : (if StringBuf_len E1 String1Max <? String2Max
                  then memcmp String1 None (StringBuf_len E1 String1Max)
                  else memcmp String1 None String2Max) = memcmp String1 None m).
  { unfold m. destruct (_ <? String2Max); reflexivity. }
  rewrite Hsel. unfold memcmp.
  destruct (m =? 0); cbn [mbind option_bind].
  - destruct (StringBuf_scrub String1 (StringBuf_len E1 String1Max)); reflexivity.
  - destruct String1; reflexivity.
Qed.

End NullPointer.

(** C7, evaluated where the code leaves the claim.  A null string pointer is
    given the max-length argument as its comparison length, not zero; with a
    max-length above zero the function goes on to read through the null
    pointer, in memcmp or at the latest in the newline search, and has no
    defined result, whichever operand is null and whatever the other
    arguments; the empty string in its place compares as the claim says. *)
Theorem StringBufCompare_null_operand (StringMax : Z) (Other : option (list ascii))
    (OtherMax CompareType : Z) (File : string) (Line : Z) (st : ut_state) :
  0 < StringMax ->
  (StringBuf_end None StringMax = Some None /\ StringBuf_len None StringMax = StringMax) /\
  UtAssert_StringBufCompare None StringMax Other OtherMax CompareType File Line st = None /\
  UtAssert_StringBufCompare Other OtherMax None StringMax CompareType File Line st = None /\
  UtAssert_StringBufCompare None 3 (c_str "abc") 3 UtAssert_Compare_EQ "t.c" 1 ut_initial =
    None /\
  fst <$> UtAssert_StringBufCompare (c_str "") 3 (c_str "abc") 3 UtAssert_Compare_EQ
            "t.c" 1 ut_initial = Some false /\
  fst <$> UtAssert_StringBufCompare None 0 (c_str "abc") 3 UtAssert_Compare_LT
            "t.c" 1 ut_initial = Some true.
Proof.
  intros Hpos. split; [split; reflexivity|].
  split; [apply StringBufCompare_null_first; exact Hpos|].
  split; [apply StringBufCompare_null_second; exact Hpos|].
  repeat split; vm_compute; reflexivity.
Qed.

Lemma StringBufCompare_null_operand_witness :
  0 < 3 /\
  UtAssert_StringBufCompare None 3 (c_str "abc") 3 UtAssert_Compare_NEQ "t.c" 9
    ut_initial = None.
Proof.
  split; [lia|].
  destruct (StringBufCompare_null_operand 3 (c_str "abc") 3 UtAssert_Compare_NEQ "t.c" 9
              ut_initial ltac:(lia)) as (_ & H & _).
  exact H.
Defined.

(** * Further properties of the counter store *)

Section Recording.

Lemma record_case_frame (st : ut_state) (c : ut_case) :
  UT_TotalCounters (record_case st c) = UT_TotalCounters st /\
  DefaultContext (record_case st c) = DefaultContext st /\
  CurrentSegment (record_case st c) = CurrentSegment st /\
  TestSegmentCount (UT_SegmentCounters (record_case st c)) =
    TestSegmentCount (UT_SegmentCounters st) /\
  TotalTestCases (UT_SegmentCounters (record_case st c)) =
    uint32 (TotalTestCases (UT_SegmentCounters st) + 1) /\
  bsp_log (record_case st c) =
    (bsp_log st ++
     [case_report (uint32 (1 + TestSegmentCount (UT_TotalCounters st)))
                  (TotalTestCases (UT_SegmentCounters st)) 0 c])%list.
Proof.
  repeat split. unfold case_report. change (Z.of_nat 0) with 0.
  rewrite Z.add_0_r. reflexivity.
Qed.

Lemma case_report_shift (seg seq0 : Z) (i : nat) (c : ut_case) :
  case_report seg (uint32 (seq0 + 1)) i c = case_report seg seq0 (S i) c.
Proof.
  unfold case_report. do 2 f_equal.
  rewrite Nat2Z.inj_succ. rewrite <- Z.add_assoc, uint32_add_l. f_equal. lia.
Qed.

Lemma record_all_frame (cs : list ut_case) : forall st : ut_state,
  cell_ok (TotalTestCases (UT_SegmentCounters st)) ->
  UT_TotalCounters (record_all cs st) = UT_TotalCounters st /\
  DefaultContext (record_all cs st) = DefaultContext st /\
  CurrentSegment (record_all cs st) = CurrentSegment st /\
  TestSegmentCount (UT_SegmentCounters (record_all cs st)) =
    TestSegmentCount (UT_SegmentCounters st) /\
  TotalTestCases (UT_SegmentCounters (record_all cs st)) =
    uint32 (TotalTestCases (UT_SegmentCounters st) + Z.of_nat (length cs)) /\
  bsp_log (record_all cs st) =
    (bsp_log st ++
     imap (case_report (uint32 (1 + TestSegmentCount (UT_TotalCounters st)))
                       (TotalTestCases (UT_SegmentCounters st))) cs)%list.
Proof.
  induction cs as [|c cs IH]; intros st Hok.
  - cbn [record_all foldl length imap]. change (Z.of_nat 0) with 0.
    rewrite Z.add_0_r, app_nil_r, (uint32_small _ Hok).
    repeat split.
  - change (record_all (c :: cs) st) with (record_all cs (record_case st c)).
    destruct (record_case_frame st c) as (HT & HD & HC & HS & HN & HL).
    destruct (IH (record_case st c)) as (IT & ID & IC & IS & IN & IL).
    { rewrite HN. apply cell_ok_uint32. }
    rewrite IT, ID, IC, IS, IN, IL, HT, HD, HC, HS, HN, HL.
    repeat split.
    + rewrite uint32_add_l. f_equal. simpl length. lia.
    + rewrite imap_cons, <- app_assoc. cbn [app]. do 2 f_equal.
      apply imap_ext. intros i x _. apply case_report_shift.
Qed.

(** The cell of classification [k] after a run of recorded cases. *)
Lemma record_all_counted (cs : list ut_case) : forall (st : ut_state) (k : Z),
  length (CaseCount (UT_SegmentCounters st)) = Z.to_nat UTASSERT_CASETYPE_MAX ->
  0 <= k < UTASSERT_CASETYPE_MAX ->
  cell_ok (case_get (CaseCount (UT_SegmentCounters st)) k) ->
  length (CaseCount (UT_SegmentCounters (record_all cs st))) =
    Z.to_nat UTASSERT_CASETYPE_MAX /\
  case_get (CaseCount (UT_SegmentCounters (record_all cs st))) k =
    uint32 (case_get (CaseCount (UT_SegmentCounters st)) k + counted_in k cs).
Proof.
  induction cs as [|c cs IH]; intros st k Hlen Hk Hok.
  - split; [exact Hlen|]. unfold counted_in. cbn [record_all foldl filter length].
    change (Z.of_nat 0) with 0. rewrite Z.add_0_r, (uint32_small _ Hok). reflexivity.
  - change (record_all (c :: cs) st) with (record_all cs (record_case st c)).
    set (idx := uint32 (resolved_case (case_expr c) (case_type c))).
    assert (Hseg : CaseCount (UT_SegmentCounters (record_case st c)) =
                   if idx <? UTASSERT_CASETYPE_MAX
                   then case_add (CaseCount (UT_SegmentCounters st)) idx 1
                   else CaseCount (UT_SegmentCounters st)) by reflexivity.
    assert (Hlen' : length (CaseCount (UT_SegmentCounters (record_case st c))) =
                    Z.to_nat UTASSERT_CASETYPE_MAX).
    { rewrite Hseg. destruct (idx <? _); [rewrite case_add_length|]; exact Hlen. }
    assert (Hidx : 0 <= idx) by apply uint32_range.
    assert (Hget : case_get (CaseCount (UT_SegmentCounters (record_case st c))) k =
                   uint32 (case_get (CaseCount (UT_SegmentCounters st)) k +
                           (if decide (idx = k) then 1 else 0))).
    { rewrite Hseg. destruct (decide (idx = k)) as [->|Hne].
      - destruct (Z.ltb_spec k UTASSERT_CASETYPE_MAX); [|lia].
        apply case_add_get_eq. rewrite Hlen.
        unfold UTASSERT_CASETYPE_MAX in *. lia.
      - rewrite Z.add_0_r, (uint32_small _ Hok).
        destruct (idx <? UTASSERT_CASETYPE_MAX); [|reflexivity].
        apply case_add_get_ne. lia. }
    destruct (IH (record_case st c) k Hlen' Hk) as [IHl IHg].
    { rewrite Hget. apply cell_ok_uint32. }
    split; [exact IHl|]. rewrite IHg, Hget, uint32_add_l. f_equal.
    unfold counted_in. rewrite filter_cons. fold idx.
    destruct (decide (idx = k)); simpl length; lia.
Qed.

End Recording.

Section Segments.

Lemma BeginTest_segment_total_ok (name : string) (st : ut_state) :
  cell_ok (TotalTestCases (UT_SegmentCounters (UtAssert_BeginTest name st))).
Proof. cbn. unfold cell_ok. lia. Qed.

Lemma zip_add32_get (Tot Seg : list Z) (k : Z) :
  length Tot = Z.to_nat UTASSERT_CASETYPE_MAX ->
  length Seg = Z.to_nat UTASSERT_CASETYPE_MAX ->
  0 <= k < UTASSERT_CASETYPE_MAX ->
  case_get (zip_with add32 Tot Seg) k = uint32 (case_get Tot k + case_get Seg k).
Proof.
  intros HT HS Hk. unfold case_get. rewrite lookup_zip_with.
  destruct (lookup_lt_is_Some_2 Tot (Z.to_nat k)) as [t Ht]; [rewrite HT; lia|].
  destruct (lookup_lt_is_Some_2 Seg (Z.to_nat k)) as [s Hs]; [rewrite HS; lia|].
  rewrite Ht, Hs. reflexivity.
Qed.

Lemma counter_zero_get (k : Z) : case_get (CaseCount counter_zero) k = 0.
Proof.
  unfold case_get, counter_zero, CaseCount.
  destruct (replicate (Z.to_nat UTASSERT_CASETYPE_MAX) 0 !! Z.to_nat k) as [x|] eqn:E;
    [|reflexivity].
  apply lookup_replicate in E as [-> _]. reflexivity.
Qed.

End Segments.

(** X1.  After UtAssert_BeginTest the cases recorded in the segment are
    numbered in the order of the calls: the segment total is the number of
    cases (uint32), the cumulative aggregate and the stored segment name are
    untouched, and the board-support package has received the segment start
    with the ordinal 1 + cumulative segment count followed by exactly one
    report line per case, the i-th carrying that ordinal and the sequence
    number i. *)
Theorem segment_cases_numbered (st : ut_state) (SegmentName : string)
    (cs : list ut_case) :
  let n := uint32 (1 + TestSegmentCount (UT_TotalCounters st)) in
  let st1 := record_all cs (UtAssert_BeginTest SegmentName st) in
  TotalTestCases (UT_SegmentCounters st1) = uint32 (Z.of_nat (length cs)) /\
  UT_TotalCounters st1 = UT_TotalCounters st /\
  UtAssert_GetSegmentName st1 = substring 0 63 SegmentName /\
  bsp_log st1 =
    (bsp_log st ++ UT_BSP_StartTestSegment n SegmentName :: imap (case_report n 0) cs)%list.
Proof.
  intros n st1.
  destruct (record_all_frame cs (UtAssert_BeginTest SegmentName st)
              (BeginTest_segment_total_ok SegmentName st))
    as (HT & _ & HC & _ & HN & HL).
  fold st1 in HT, HC, HN, HL.
  split; [rewrite HN; reflexivity|]. split; [rewrite HT; reflexivity|].
  split; [unfold UtAssert_GetSegmentName; rewrite HC; reflexivity|].
  rewrite HL. cbn [UtAssert_BeginTest bsp_emit bsp_log UT_TotalCounters
                   UT_SegmentCounters counter_zero TotalTestCases].
  rewrite <- app_assoc. reflexivity.
Qed.

(** X2.  A whole segment: UtAssert_BeginTest, at least one and fewer than
    2^32 recorded cases, UtAssert_EndTest.  The cumulative segment count goes
    up by one and is the ordinal announced at the start, the cumulative total
    goes up by the number of cases, every cumulative cell goes up by the
    number of cases counted under its classification (all uint32), the
    segment aggregate is cleared, and after the report lines of the cases come
    exactly two summary lines, tagged INFO and END. *)
Theorem segment_folded_into_totals (st : ut_state) (SegmentName : string)
    (cs : list ut_case) :
  counter_wf (UT_TotalCounters st) ->
  0 < Z.of_nat (length cs) < 2 ^ 32 ->
  let n := uint32 (1 + TestSegmentCount (UT_TotalCounters st)) in
  let st' := UtAssert_EndTest (record_all cs (UtAssert_BeginTest SegmentName st)) in
  TestSegmentCount (UT_TotalCounters st') = n /\
  TotalTestCases (UT_TotalCounters st') =
    uint32 (TotalTestCases (UT_TotalCounters st) + Z.of_nat (length cs)) /\
  (forall k, 0 <= k < UTASSERT_CASETYPE_MAX ->
     case_get (CaseCount (UT_TotalCounters st')) k =
     uint32 (case_get (CaseCount (UT_TotalCounters st)) k + counted_in k cs)) /\
  UT_SegmentCounters st' = counter_zero /\
  exists line1 line2,
    bsp_log st' =
      (bsp_log st ++ UT_BSP_StartTestSegment n SegmentName :: imap (case_report n 0) cs ++
       [UT_BSP_DoText UTASSERT_CASETYPE_INFO line1;
        UT_BSP_DoText UTASSERT_CASETYPE_END line2])%list.
Proof.
  intros [HlT HoT] Hlen n st'.
  set (st1 := record_all cs (UtAssert_BeginTest SegmentName st)).
  destruct (record_all_frame cs (UtAssert_BeginTest SegmentName st)
              (BeginTest_segment_total_ok SegmentName st))
    as (HT & _ & _ & _ & HN & HL).
  fold st1 in HT, HN, HL.
  assert (HN' : TotalTestCases (UT_SegmentCounters st1) = Z.of_nat (length cs)).
  { rewrite HN. apply uint32_small. cbn. lia. }
  assert (HT' : UT_TotalCounters st1 = UT_TotalCounters st) by (rewrite HT; reflexivity).
  assert (Hpos : (0 <? TotalTestCases (UT_SegmentCounters st1)) = true).
  { apply Z.ltb_lt. lia. }
  assert (Hlen1 : length (CaseCount (UT_SegmentCounters st1)) =
                  Z.to_nat UTASSERT_CASETYPE_MAX).
  { apply (record_all_counted cs (UtAssert_BeginTest SegmentName st) 0).
    - reflexivity.
    - unfold UTASSERT_CASETYPE_MAX. lia.
    - rewrite counter_zero_get. unfold cell_ok. lia. }
  assert (Htot : UT_TotalCounters st' =
                 mkCounter (uint32 (TestSegmentCount (UT_TotalCounters st) + 1))
                   (uint32 (TotalTestCases (UT_TotalCounters st) + Z.of_nat (length cs)))
                   (zip_with add32 (CaseCount (UT_TotalCounters st))
                                   (CaseCount (UT_SegmentCounters st1)))).
  { unfold st'. fold st1. rewrite EndTest_total. cbv zeta.
    rewrite Hpos, HT', HN', (fold_cases_zip _ _ HlT Hlen1). reflexivity. }
  split; [rewrite Htot; cbn [TestSegmentCount]; unfold n; f_equal; lia|].
  split; [rewrite Htot; reflexivity|].
  split.
  { intros k Hk. rewrite Htot. cbn [CaseCount].
    rewrite zip_add32_get by assumption.
    destruct (record_all_counted cs (UtAssert_BeginTest SegmentName st) k) as [_ Hg].
    - reflexivity.
    - exact Hk.
    - rewrite counter_zero_get. unfold cell_ok. lia.
    - fold st1 in Hg. rewrite Hg.
      change (CaseCount (UT_SegmentCounters (UtAssert_BeginTest SegmentName st)))
        with (CaseCount counter_zero).
      rewrite counter_zero_get, Z.add_0_l. apply uint32_add_r. }
  split; [apply EndTest_segment|].
  unfold st'. fold st1. unfold UtAssert_EndTest. rewrite Hpos.
  unfold UtAssert_DoTestSegmentReport. cbn [bsp_emit bsp_log].
  rewrite HL. do 2 eexists.
  cbn [UtAssert_BeginTest bsp_emit bsp_log UT_TotalCounters UT_SegmentCounters
       counter_zero TotalTestCases].
  rewrite <- !app_assoc. cbn [app]. reflexivity.
Qed.

Lemma segment_folded_into_totals_witness :
  (counter_wf (UT_TotalCounters ut_initial) /\
   0 < Z.of_nat (length sample_cases) < 2 ^ 32) /\
  TotalTestCases (UT_TotalCounters
    (UtAssert_EndTest (record_all sample_cases (UtAssert_BeginTest "A" ut_initial)))) = 3.
Proof.
  assert (Hwf : counter_wf (UT_TotalCounters ut_initial)) by zero_counter_shape.
  assert (Hn : 0 < Z.of_nat (length sample_cases) < 2 ^ 32) by (cbn; lia).
  split; [split; assumption|].
  destruct (segment_folded_into_totals ut_initial "A" sample_cases Hwf Hn)
    as (_ & H & _).
  exact H.
Defined.

(** X3.  UtAssert_EndTest called again right after UtAssert_EndTest finds an
    empty segment whatever the first call folded: the cumulative aggregate
    stays as the first call left it, the segment aggregate stays cleared, and
    the only output is the text "No test cases". *)
Theorem EndTest_twice (st : ut_state) :
  let st1 := UtAssert_EndTest st in
  let st2 := UtAssert_EndTest st1 in
  UT_TotalCounters st2 = UT_TotalCounters st1 /\
  UT_SegmentCounters st2 = counter_zero /\
  bsp_log st2 =
    (bsp_log st1 ++
     [UT_BSP_DoText UTASSERT_CASETYPE_END ("No test cases" ++ String "010"%char "")])%list.
Proof.
  intros st1 st2.
  assert (Hseg : UT_SegmentCounters st1 = counter_zero) by apply EndTest_segment.
  unfold st2, UtAssert_EndTest at 1 2 3. rewrite Hseg.
  change (0 <? TotalTestCases counter_zero) with false. cbv iota.
  repeat split.
Qed.

(** X4.  Cases recorded in a segment that is begun again before it is ended
    never reach the cumulative aggregate: after UtAssert_BeginTest, any cases,
    and UtAssert_BeginTest once more, the cumulative aggregate and both
    accessors are as before the first call, the segment aggregate is cleared,
    and a following UtAssert_EndTest still changes nothing. *)
Theorem unended_segment_discarded (st : ut_state) (Name1 Name2 : string)
    (cs : list ut_case) :
  let st' := UtAssert_BeginTest Name2 (record_all cs (UtAssert_BeginTest Name1 st)) in
  UT_TotalCounters st' = UT_TotalCounters st /\
  UT_SegmentCounters st' = counter_zero /\
  UtAssert_GetPassCount st' = UtAssert_GetPassCount st /\
  UtAssert_GetFailCount st' = UtAssert_GetFailCount st /\
  UT_TotalCounters (UtAssert_EndTest st') = UT_TotalCounters st.
Proof.
  intros st'.
  destruct (record_all_frame cs (UtAssert_BeginTest Name1 st)
              (BeginTest_segment_total_ok Name1 st)) as (HT & _).
  assert (Htot : UT_TotalCounters st' = UT_TotalCounters st).
  { unfold st'. rewrite (proj2 (BeginTest_counters Name2 _)), HT. reflexivity. }
  assert (Hseg : UT_SegmentCounters st' = counter_zero) by reflexivity.
  split; [exact Htot|]. split; [exact Hseg|].
  split; [unfold UtAssert_GetPassCount; rewrite Htot; reflexivity|].
  split; [unfold UtAssert_GetFailCount; rewrite Htot; reflexivity|].
  rewrite EndTest_total. cbv zeta. rewrite Hseg.
  change (0 <? TotalTestCases counter_zero) with false. cbv iota. exact Htot.
Qed.

(** * Further properties of the report text *)

Section BaseName.

Lemma DoReport_scan_cons (c : ascii) (s : string) (n : nat) :
  DoReport_scan (String c s) (S n) =
  match DoReport_scan s n with
  | O => if is_path_sep c then 1%nat else O
  | S k => S (S k)
  end.
Proof.
  induction n as [|n IH].
  - simpl. destruct (is_path_sep c); reflexivity.
  - change (DoReport_scan (String c s) (S (S n))) with
      (match String.get n s with
       | Some d => if is_path_sep d then S (S n) else DoReport_scan (String c s) (S n)
       | None => DoReport_scan (String c s) (S n)
       end).
    change (DoReport_scan s (S n)) with
      (match String.get n s with
       | Some d => if is_path_sep d then S n else DoReport_scan s n
       | None => DoReport_scan s n
       end).
    destruct (String.get n s) as [d|]; [destruct (is_path_sep d)|]; try reflexivity;
      apply IH.
Qed.

Lemma substring_all (s : string) : substring 0 (String.length s) s = s.
Proof. apply substring_whole. lia. Qed.

(** What the scan of a whole path leaves: the part behind the last
    separator. *)
Lemma DoReport_scan_split (File : string) :
  let off := DoReport_scan File (String.length File) in
  let base := substring off (String.length File - off) File in
  has_char is_path_sep base = false /\
  exists dir, File = (dir ++ base)%string /\ String.length dir = off /\
              (off = O \/ ends_with_sep dir).
Proof.
  induction File as [|c s IH]; cbv zeta.
  - split; [reflexivity|]. exists ""%string. repeat split. left. reflexivity.
  - cbv zeta in IH. destruct IH as (Hno & dir & Hs & Hlen & Hend).
    simpl String.length. rewrite DoReport_scan_cons.
    destruct (DoReport_scan s (String.length s)) as [|k] eqn:Eoff.
    + rewrite Nat.sub_0_r, substring_all in Hno.
      destruct (is_path_sep c) eqn:Ec.
      * change (substring 1 (S (String.length s) - 1) (String c s))
          with (substring 0 (S (String.length s) - 1) s).
        replace (S (String.length s) - 1)%nat with (String.length s) by lia.
        rewrite substring_all. split; [exact Hno|].
        exists (String c ""). repeat split. right.
        exists ""%string, c. split; [reflexivity | exact Ec].
      * rewrite Nat.sub_0_r.
        change (S (String.length s)) with (String.length (String c s)).
        rewrite substring_all. split; [simpl; rewrite Ec; exact Hno|].
        exists ""%string. repeat split. left. reflexivity.
    + change (substring (S (S k)) (S (String.length s) - S (S k)) (String c s))
        with (substring (S k) (String.length s - S k) s).
      split; [exact Hno|].
      exists (String c dir). split; [simpl; rewrite <- Hs; reflexivity|].
      split; [simpl; rewrite Hlen; reflexivity|]. right.
      destruct Hend as [Hz|(d & x & Hd & Hx)]; [discriminate|].
      exists (String c d), x. split; [rewrite Hd; reflexivity | exact Hx].
Qed.

End BaseName.

(** X5.  The file name shown in a report line is the part of [File] behind
    its last slash or backslash: it holds no separator, [File] ends with it,
    and what stands in front of it is empty or ends with a separator.  (For a
    [File] of fewer than 2^32 characters, the range of the uint32 length.) *)
Theorem DoReport_base_is_basename (File : string) :
  Z.of_nat (String.length File) < 2 ^ 32 ->
  has_char is_path_sep (DoReport_base File) = false /\
  exists dir, File = (dir ++ DoReport_base File)%string /\
              (dir = ""%string \/ ends_with_sep dir).
Proof.
  intros Hlen. unfold DoReport_base.
  rewrite uint32_small by lia. rewrite Nat2Z.id.
  destruct (DoReport_scan_split File) as (Hno & dir & Hs & Hl & Hend).
  split; [exact Hno|]. exists dir. split; [exact Hs|].
  destruct Hend as [Hz|He]; [|right; exact He].
  left. rewrite Hz in Hl. destruct dir; [reflexivity | discriminate].
Qed.

Lemma DoReport_base_is_basename_witness :
  Z.of_nat (String.length "src\tests/t.c") < 2 ^ 32 /\
  has_char is_path_sep (DoReport_base "src\tests/t.c") = false.
Proof.
  assert (H : Z.of_nat (String.length "src\tests/t.c") < 2 ^ 32) by (cbn; lia).
  split; [exact H|].
  destruct (DoReport_base_is_basename "src\tests/t.c" H) as (Hno & _).
  exact Hno.
Defined.

(** * Tags and operator tokens *)

Ltac split_cases H := repeat (destruct H as [H|H]); subst.

Section Tags.

Lemma GetCaseTypeAbbrev_other (k : Z) :
  k < 1 \/ 13 < k -> UtAssert_GetCaseTypeAbbrev k = "OTHER"%string.
Proof.
  intros Hk. unfold UtAssert_GetCaseTypeAbbrev.
  repeat match goal with
         | |- context [k =? ?c] =>
             let v := eval vm_compute in c in
             change c with v; destruct (Z.eqb_spec k v); [exfalso; lia|]
         end.
  reflexivity.
Qed.

Lemma GetOpText_other (k : Z) :
  k < 1 \/ 8 < k -> UtAssert_GetOpText k = "??"%string.
Proof.
  intros Hk. unfold UtAssert_GetOpText.
  repeat match goal with
         | |- context [k =? ?c] =>
             let v := eval vm_compute in c in
             change c with v; destruct (Z.eqb_spec k v); [exfalso; lia|]
         end.
  reflexivity.
Qed.

End Tags.

(** X6.  UtAssert_GetCaseTypeAbbrev gives every case type a tag of one to
    five characters: the thirteen case types from ABORT to DEBUG get thirteen
    different tags, none of them "OTHER", and every other value, the NONE and
    MAX placeholders included, gets "OTHER". *)
Theorem GetCaseTypeAbbrev_tags (a b : Z) :
  (1 <= String.length (UtAssert_GetCaseTypeAbbrev a) <= 5)%nat /\
  (UtAssert_GetCaseTypeAbbrev a = "OTHER"%string <->
   a < UTASSERT_CASETYPE_ABORT \/ UTASSERT_CASETYPE_DEBUG < a) /\
  (UTASSERT_CASETYPE_ABORT <= a <= UTASSERT_CASETYPE_DEBUG ->
   UTASSERT_CASETYPE_ABORT <= b <= UTASSERT_CASETYPE_DEBUG ->
   UtAssert_GetCaseTypeAbbrev a = UtAssert_GetCaseTypeAbbrev b -> a = b).
Proof.
  unfold UTASSERT_CASETYPE_ABORT, UTASSERT_CASETYPE_DEBUG.
  assert (Ha : (a < 1 \/ 13 < a) \/ a = 1 \/ a = 2 \/ a = 3 \/ a = 4 \/ a = 5 \/ a = 6 \/
               a = 7 \/ a = 8 \/ a = 9 \/ a = 10 \/ a = 11 \/ a = 12 \/ a = 13) by lia.
  split; [|split].
  - destruct Ha as [Ha|Ha]; [rewrite GetCaseTypeAbbrev_other by exact Ha; simpl; lia|].
    split_cases Ha; simpl; lia.
  - destruct Ha as [Ha|Ha].
    + rewrite GetCaseTypeAbbrev_other by exact Ha. split; [intros _; exact Ha | reflexivity].
    + split_cases Ha; (split; [intros H; vm_compute in H; discriminate | lia]).
  - intros Ha' Hb' H.
    assert (Hb : b = 1 \/ b = 2 \/ b = 3 \/ b = 4 \/ b = 5 \/ b = 6 \/ b = 7 \/ b = 8 \/
                 b = 9 \/ b = 10 \/ b = 11 \/ b = 12 \/ b = 13) by lia.
    destruct Ha as [Ha|Ha]; [lia|].
    split_cases Ha; split_cases Hb; try reflexivity; vm_compute in H; discriminate.
Qed.

Lemma GetCaseTypeAbbrev_tags_witness :
  (UTASSERT_CASETYPE_ABORT <= 2 <= UTASSERT_CASETYPE_DEBUG /\
   UTASSERT_CASETYPE_ABORT <= 2 <= UTASSERT_CASETYPE_DEBUG /\
   UtAssert_GetCaseTypeAbbrev 2 = UtAssert_GetCaseTypeAbbrev 2) /\ 2 = 2.
Proof.
  assert (H : UTASSERT_CASETYPE_ABORT <= 2 <= UTASSERT_CASETYPE_DEBUG)
    by (unfold UTASSERT_CASETYPE_ABORT, UTASSERT_CASETYPE_DEBUG; lia).
  split; [repeat split; try apply H|].
  destruct (GetCaseTypeAbbrev_tags 2 2) as (_ & _ & Hinj).
  apply Hinj; [exact H | exact H | reflexivity].
Defined.

(** X7.  UtAssert_GetOpText gives every comparison kind a token of one or two
    characters: the eight kinds from EQ to BITMASK_UNSET get eight different
    tokens, none of them "??", and every other value gets "??". *)
Theorem GetOpText_tokens (a b : Z) :
  (1 <= String.length (UtAssert_GetOpText a) <= 2)%nat /\
  (UtAssert_GetOpText a = "??"%string <-> supported_kind a = false) /\
  (supported_kind a = true -> supported_kind b = true ->
   UtAssert_GetOpText a = UtAssert_GetOpText b -> a = b).
Proof.
  assert (Hsup : forall k, supported_kind k = true <-> 1 <= k <= 8).
  { intros k. unfold supported_kind, UtAssert_Compare_EQ, UtAssert_Compare_BITMASK_UNSET.
    rewrite andb_true_iff, !Z.leb_le. reflexivity. }
  assert (Hnsup : forall k, supported_kind k = false <-> k < 1 \/ 8 < k).
  { intros k. rewrite <- not_true_iff_false, Hsup. lia. }
  assert (Ha : (a < 1 \/ 8 < a) \/ a = 1 \/ a = 2 \/ a = 3 \/ a = 4 \/ a = 5 \/ a = 6 \/
               a = 7 \/ a = 8) by lia.
  split; [|split].
  - destruct Ha as [Ha|Ha]; [rewrite GetOpText_other by exact Ha; simpl; lia|].
    split_cases Ha; simpl; lia.
  - rewrite Hnsup. destruct Ha as [Ha|Ha].
    + rewrite GetOpText_other by exact Ha. split; [intros _; exact Ha | reflexivity].
    + split_cases Ha; (split; [intros H; vm_compute in H; discriminate | lia]).
  - rewrite !Hsup. intros Ha' Hb' H.
    assert (Hb : b = 1 \/ b = 2 \/ b = 3 \/ b = 4 \/ b = 5 \/ b = 6 \/ b = 7 \/ b = 8)
      by lia.
    destruct Ha as [Ha|Ha]; [lia|].
    split_cases Ha; split_cases Hb; try reflexivity; vm_compute in H; discriminate.
Qed.

Lemma GetOpText_tokens_witness :
  (supported_kind 3 = true /\ supported_kind 3 = true /\
   UtAssert_GetOpText 3 = UtAssert_GetOpText 3) /\ 3 = 3.
Proof.
  split; [repeat split|].
  destruct (GetOpText_tokens 3 3) as (_ & _ & Hinj).
  apply Hinj; reflexivity.
Defined.

(** * Free-form messages *)

Section MessageText.

Lemma substring_app (n : nat) (a b : string) :
  substring 0 n (a ++ b) = (substring 0 n a ++ substring 0 (n - String.length a) b)%string.
Proof.
  revert n. induction a as [|c a IH]; intros n.
  - cbn [append String.length]. rewrite Nat.sub_0_r.
    destruct n; [rewrite substring_0_0|]; reflexivity.
  - destruct n as [|n]; [rewrite !substring_0_0; reflexivity|].
    cbn [append substring String.length]. rewrite IH. reflexivity.
Qed.

(** Writing the prefix and then the text behind it into [FinalMessage[256]]
    leaves the first 255 characters of the two together. *)
Lemma two_stage_snprintf (p t : string) :
  (snprintf 256 p ++ snprintf (256 - String.length (snprintf 256 p)) t)%string =
  substring 0 255 (p ++ t).
Proof.
  unfold snprintf. change (256 - 1)%nat with 255%nat.
  rewrite substring_app, substring_length. f_equal. f_equal.
  destruct (Nat.le_gt_cases (String.length p) 255) as [H|H].
  - rewrite Nat.min_r by exact H. lia.
  - rewrite Nat.min_l by lia. lia.
Qed.

Lemma strrchr_split (c : ascii) (f : string) :
  match strrchr f c with
  | None => has_char (fun x => Ascii.eqb x c) f = false
  | Some k =>
      exists dir, f = (dir ++ String c (substring (S k) (String.length f - S k) f))%string /\
                  String.length dir = k /\
                  has_char (fun x => Ascii.eqb x c)
                           (substring (S k) (String.length f - S k) f) = false
  end.
Proof.
  induction f as [|d s IH]; [reflexivity|].
  cbn [strrchr]. destruct (strrchr s c) as [k|].
  - destruct IH as (dir & Hs & Hlen & Hno).
    exists (String d dir).
    change (substring (S (S k)) (String.length (String d s) - S (S k)) (String d s))
      with (substring (S k) (String.length s - S k) s).
    split; [cbn [append]; rewrite <- Hs; reflexivity|].
    split; [cbn; rewrite Hlen; reflexivity | exact Hno].
  - destruct (Ascii.eqb_spec d c) as [->|Hne].
    + exists ""%string.
      change (substring 1 (String.length (String c s) - 1) (String c s))
        with (substring 0 (S (String.length s) - 1) s).
      replace (S (String.length s) - 1)%nat with (String.length s) by lia.
      rewrite substring_whole by lia. repeat split. exact IH.
    + cbn [has_char]. rewrite IH.
      destruct (Ascii.eqb_spec d c); [contradiction | reflexivity].
Qed.

End MessageText.

(** X8.  UtAssert_Message touches no counter, context or segment name and
    hands the board-support package exactly one text, tagged with the message
    type as uint8: the first 255 characters of the prefix followed by the
    formatted text.  The prefix is empty for a null file name and otherwise
    'name:line:', name being the part of the file name behind its last slash
    (a backslash is not taken as a separator here). *)
Theorem Message_text (MessageType : Z) (File : option string) (Line : Z) (Text : string)
    (st : ut_state) :
  let st' := UtAssert_Message MessageType File Line Text st in
  (UT_SegmentCounters st' = UT_SegmentCounters st /\
   UT_TotalCounters st' = UT_TotalCounters st /\
   DefaultContext st' = DefaultContext st /\
   CurrentSegment st' = CurrentSegment st) /\
  exists prefix,
    bsp_log st' =
      (bsp_log st ++
       [UT_BSP_DoText (uint8 MessageType) (substring 0 255 (prefix ++ Text))])%list /\
    match File with
    | None => prefix = ""%string
    | Some f =>
        exists dir name,
          f = (dir ++ name)%string /\
          has_char (fun x => Ascii.eqb x "/") name = false /\
          (dir = ""%string \/ exists d, dir = (d ++ "/")%string) /\
          prefix = (name ++ ":" ++ fmt_unsigned 10 (uint32 Line) ++ ":")%string
    end.
Proof.
  intros st'. split; [repeat split|].
  destruct File as [f|].
  - pose proof (strrchr_split "/" f) as Hsplit.
    unfold st', UtAssert_Message, Message_prefix.
    destruct (strrchr f "/") as [k|].
    + destruct Hsplit as (dir & Hf & Hlen & Hno).
      eexists. split.
      * cbn [bsp_emit bsp_log]. rewrite two_stage_snprintf. reflexivity.
      * exists (dir ++ "/")%string, (substring (S k) (String.length f - S k) f).
        split; [rewrite string_app_assoc; exact Hf|].
        split; [exact Hno|]. split; [right; exists dir; reflexivity | reflexivity].
    + eexists. split.
      * cbn [bsp_emit bsp_log]. rewrite two_stage_snprintf. reflexivity.
      * exists ""%string, f. repeat split; [exact Hsplit | left; reflexivity].
  - exists ""%string. split; [|reflexivity].
    unfold st', UtAssert_Message, Message_prefix. cbn [bsp_emit bsp_log String.length append].
    unfold snprintf. reflexivity.
Qed.

(** * Further properties of the comparator and the typed asserts *)

Section Kinds.

Lemma kind_holds_unsupported (k A R : Z) : supported_kind k = false -> kind_holds k A R = false.
Proof.
  intros Hk. unfold supported_kind in Hk. apply andb_false_iff in Hk.
  assert (Hr : k < 1 \/ 8 < k).
  { destruct Hk as [Hk|Hk]; apply Z.leb_gt in Hk;
      unfold UtAssert_Compare_EQ, UtAssert_Compare_BITMASK_UNSET in Hk; lia. }
  unfold kind_holds.
  repeat match goal with
         | |- context [k =? ?c] =>
             let v := eval vm_compute in c in
             change c with v; destruct (Z.eqb_spec k v); [exfalso; lia|]
         end.
  reflexivity.
Qed.

(** The comparator decides the kind on the operands as the flag reads them. *)
Lemma DoCompare_kind_holds (a k r : Z) (u : bool) :
  UtAssert_DoCompare a k r u = kind_holds (k mod 2 ^ 31) (operand u a) (operand u r).
Proof.
  destruct (supported_kind (k mod 2 ^ 31)) eqn:Hk.
  - rewrite DoCompare_kind_wraps. revert Hk. generalize (k mod 2 ^ 31). clear k.
    intros k Hk.
    assert (HA : (if u then IntBuf_u (IntBuf_of_u a) else IntBuf_s (IntBuf_of_s a)) =
                 operand u a).
    { unfold operand. destruct u; [apply IntBuf_u_of_u | apply IntBuf_s_of_s]. }
    assert (HR : (if u then IntBuf_u (IntBuf_of_u r) else IntBuf_s (IntBuf_of_s r)) =
                 operand u r).
    { unfold operand. destruct u; [apply IntBuf_u_of_u | apply IntBuf_s_of_s]. }
    unfold supported_kind, UtAssert_Compare_EQ, UtAssert_Compare_BITMASK_UNSET in Hk.
    apply andb_true_iff in Hk. rewrite !Z.leb_le in Hk.
    assert (Hc : k = 1 \/ k = 2 \/ k = 3 \/ k = 4 \/ k = 5 \/ k = 6 \/ k = 7 \/ k = 8)
      by lia.
    rewrite <- HA, <- HR.
    split_cases Hc; destruct u; try reflexivity.
    + apply Z.gtb_ltb.
    + apply Z.gtb_ltb.
    + apply Z.geb_leb.
    + apply Z.geb_leb.
  - rewrite DoCompare_unsupported, kind_holds_unsupported by exact Hk. reflexivity.
Qed.

Lemma to_unsigned_signed w z : 0 < w -> to_unsigned w (to_signed w z) = to_unsigned w z.
Proof.
  intros Hw. unfold to_signed, to_unsigned.
  rewrite Zminus_mod_idemp_l.
  replace (z + 2 ^ (w - 1) - 2 ^ (w - 1)) with z by lia. reflexivity.
Qed.

Lemma to_signed_small w z :
  0 < w -> - 2 ^ (w - 1) <= z < 2 ^ (w - 1) -> to_signed w z = z.
Proof.
  intros Hw Hz. unfold to_signed.
  assert (Hp : 2 ^ w = 2 * 2 ^ (w - 1)).
  { rewrite <- Z.pow_succ_r by lia. f_equal. lia. }
  rewrite Z.mod_small by lia. lia.
Qed.

Lemma operand_signed_chain (v : Z) :
  operand false (intmax (UT_IntCheck (long v))) = long v /\
  operand false (UT_IntCheck (long v)) = long v.
Proof.
  unfold operand, UT_IntCheck, intmax, long.
  rewrite !to_signed_idem by lia. split; reflexivity.
Qed.

Lemma operand_unsigned_chain (v : Z) :
  operand true (intmax (UT_IntCheck (ulong v))) = ulong v /\
  operand true (UT_IntCheck (ulong v)) = ulong v.
Proof.
  unfold operand, UT_IntCheck, intmax, uintmax, ulong.
  rewrite to_signed_idem by lia.
  rewrite to_unsigned_signed by lia.
  unfold to_unsigned. rewrite Zmod_mod. split; reflexivity.
Qed.

End Kinds.

(** X9.  The comparison kinds hang together as their names say, for all
    operands and either signedness: "not equal" is the negation of "equal",
    "greater or equal" of "less than", "less or equal" of "greater than";
    "less than" is "greater than" with the operands exchanged and "equal" is
    symmetric; a zero reference satisfies both bitmask kinds; and for operands
    from 0 to 2^63 - 1 the signed and the unsigned reading give the same
    result for every kind, while -1 is less than 0 only in the signed one. *)
Theorem DoCompare_relations (a r k : Z) (u : bool) :
  UtAssert_DoCompare a UtAssert_Compare_NEQ r u =
    negb (UtAssert_DoCompare a UtAssert_Compare_EQ r u) /\
  UtAssert_DoCompare a UtAssert_Compare_GTEQ r u =
    negb (UtAssert_DoCompare a UtAssert_Compare_LT r u) /\
  UtAssert_DoCompare a UtAssert_Compare_LTEQ r u =
    negb (UtAssert_DoCompare a UtAssert_Compare_GT r u) /\
  UtAssert_DoCompare a UtAssert_Compare_LT r u =
    UtAssert_DoCompare r UtAssert_Compare_GT a u /\
  UtAssert_DoCompare a UtAssert_Compare_EQ r u =
    UtAssert_DoCompare r UtAssert_Compare_EQ a u /\
  UtAssert_DoCompare a UtAssert_Compare_BITMASK_SET 0 u = true /\
  UtAssert_DoCompare a UtAssert_Compare_BITMASK_UNSET 0 u = true /\
  (0 <= a < 2 ^ 63 -> 0 <= r < 2 ^ 63 ->
   UtAssert_DoCompare a k r true = UtAssert_DoCompare a k r false) /\
  UtAssert_DoCompare (-1) UtAssert_Compare_LT 0 false = true /\
  UtAssert_DoCompare (-1) UtAssert_Compare_LT 0 true = false.
Proof.
  rewrite !DoCompare_kind_holds.
  change (UtAssert_Compare_EQ mod 2 ^ 31) with UtAssert_Compare_EQ.
  change (UtAssert_Compare_NEQ mod 2 ^ 31) with UtAssert_Compare_NEQ.
  change (UtAssert_Compare_LT mod 2 ^ 31) with UtAssert_Compare_LT.
  change (UtAssert_Compare_GT mod 2 ^ 31) with UtAssert_Compare_GT.
  change (UtAssert_Compare_LTEQ mod 2 ^ 31) with UtAssert_Compare_LTEQ.
  change (UtAssert_Compare_GTEQ mod 2 ^ 31) with UtAssert_Compare_GTEQ.
  change (UtAssert_Compare_BITMASK_SET mod 2 ^ 31) with UtAssert_Compare_BITMASK_SET.
  change (UtAssert_Compare_BITMASK_UNSET mod 2 ^ 31) with UtAssert_Compare_BITMASK_UNSET.
  set (A := operand u a). set (R := operand u r).
  assert (Hz : operand u 0 = 0) by (destruct u; reflexivity).
  rewrite Hz.
  change (kind_holds UtAssert_Compare_NEQ A R) with (negb (A =? R)).
  change (kind_holds UtAssert_Compare_EQ A R) with (A =? R).
  change (kind_holds UtAssert_Compare_EQ R A) with (R =? A).
  change (kind_holds UtAssert_Compare_GTEQ A R) with (R <=? A).
  change (kind_holds UtAssert_Compare_LTEQ A R) with (A <=? R).
  change (kind_holds UtAssert_Compare_LT A R) with (A <? R).
  change (kind_holds UtAssert_Compare_GT A R) with (R <? A).
  change (kind_holds UtAssert_Compare_GT R A) with (A <? R).
  change (kind_holds UtAssert_Compare_BITMASK_SET A 0) with (Z.land A 0 =? 0).
  change (kind_holds UtAssert_Compare_BITMASK_UNSET A 0) with (Z.land A 0 =? 0).
  rewrite Z.land_0_r.
  repeat split; try reflexivity.
  - rewrite Z.leb_antisym. reflexivity.
  - rewrite Z.leb_antisym. reflexivity.
  - apply Z.eqb_sym.
  - intros Ha Hr.
    assert (Hop : forall v, 0 <= v < 2 ^ 63 -> operand true v = operand false v).
    { intros v Hv. unfold operand, uintmax, intmax, to_unsigned.
      rewrite to_signed_small by (change (64 - 1) with 63; lia).
      apply Z.mod_small. lia. }
    rewrite (Hop a Ha), (Hop r Hr). reflexivity.
Qed.

Lemma DoCompare_relations_witness :
  (0 <= 5 < 2 ^ 63 /\ 0 <= 6 < 2 ^ 63) /\
  UtAssert_DoCompare 5 UtAssert_Compare_LT 6 true =
  UtAssert_DoCompare 5 UtAssert_Compare_LT 6 false.
Proof.
  assert (H5 : 0 <= 5 < 2 ^ 63) by lia. assert (H6 : 0 <= 6 < 2 ^ 63) by lia.
  split; [split; assumption|].
  destruct (DoCompare_relations 5 6 UtAssert_Compare_LT true)
    as (_ & _ & _ & _ & _ & _ & _ & H & _).
  exact (H H5 H6).
Defined.

Section Wrappers.

Lemma GenericSignedCompare_fst (a k r radix : Z) (File : string) (Line : Z)
    (Desc : option string) (at_ rt : string) (st : ut_state) :
  fst (UtAssert_GenericSignedCompare a k r radix File Line Desc at_ rt st) =
  kind_holds (k mod 2 ^ 31) (long a) (long r).
Proof.
  unfold UtAssert_GenericSignedCompare, UtAssert_GenericIntegerCompare, UtAssertEx.
  cbn [fst]. rewrite DoCompare_kind_holds.
  rewrite (proj1 (operand_signed_chain a)), (proj2 (operand_signed_chain r)).
  reflexivity.
Qed.

Lemma GenericUnsignedCompare_fst (a k r radix : Z) (File : string) (Line : Z)
    (Desc : option string) (at_ rt : string) (st : ut_state) :
  fst (UtAssert_GenericUnsignedCompare a k r radix File Line Desc at_ rt st) =
  kind_holds (k mod 2 ^ 31) (ulong a) (ulong r).
Proof.
  unfold UtAssert_GenericUnsignedCompare, UtAssert_GenericIntegerCompare, UtAssertEx.
  cbn [fst]. rewrite DoCompare_kind_holds.
  rewrite (proj1 (operand_unsigned_chain a)), (proj2 (operand_unsigned_chain r)).
  reflexivity.
Qed.

Lemma AssertEx_failure_cells (res : bool) (File : string) (Line : Z) (msg : string)
    (st : ut_state) :
  CaseCount (UT_SegmentCounters (snd (UtAssertEx res UTASSERT_CASETYPE_FAILURE File Line
                                        msg st))) =
  case_add (CaseCount (UT_SegmentCounters st))
           (if res then UTASSERT_CASETYPE_PASS else UTASSERT_CASETYPE_FAILURE) 1.
Proof. destruct res; reflexivity. Qed.

Lemma long_of_int32 (z : Z) : long (int32 z) = int32 z.
Proof.
  unfold long, int32. apply to_signed_small; [lia|].
  unfold to_signed. change (32 - 1) with 31. change (64 - 1) with 63.
  pose proof (Z.mod_pos_bound (z + 2 ^ 31) (2 ^ 32) ltac:(lia)). lia.
Qed.

Lemma ulong_of_uint32 (z : Z) : ulong (uint32 z) = uint32 z.
Proof.
  unfold ulong, to_unsigned. apply Z.mod_small.
  pose proof (uint32_range z). lia.
Qed.

Lemma ulong_of_cast_bool (z : Z) : ulong (cast_bool z) = cast_bool z.
Proof. unfold cast_bool. destruct (z =? 0); reflexivity. Qed.

End Wrappers.

(** X10.  UtAssert_GenericSignedCompare decides the comparison kind on its
    two operands as long values and UtAssert_GenericUnsignedCompare on its two
    operands as unsigned long values: passing them on through the integer
    check type and the comparator's union loses nothing.  The kind counts
    modulo 2^31, the comparator's selector being a 32 bit word that holds the
    kind doubled; for a kind from 0 to 2^31 - 1 that is the kind itself.
    Either one records the case under pass when the comparison holds and
    under failure when it does not, whatever the default context is. *)
Theorem Generic_compare_results (a k r radix : Z) (File : string) (Line : Z)
    (Desc : option string) (ActualText ReferenceText : string) (st : ut_state) :
  let rs := UtAssert_GenericSignedCompare a k r radix File Line Desc ActualText
              ReferenceText st in
  let ru := UtAssert_GenericUnsignedCompare a k r radix File Line Desc ActualText
              ReferenceText st in
  fst rs = kind_holds (k mod 2 ^ 31) (long a) (long r) /\
  fst ru = kind_holds (k mod 2 ^ 31) (ulong a) (ulong r) /\
  CaseCount (UT_SegmentCounters (snd rs)) =
    case_add (CaseCount (UT_SegmentCounters st))
      (if fst rs then UTASSERT_CASETYPE_PASS else UTASSERT_CASETYPE_FAILURE) 1 /\
  CaseCount (UT_SegmentCounters (snd ru)) =
    case_add (CaseCount (UT_SegmentCounters st))
      (if fst ru then UTASSERT_CASETYPE_PASS else UTASSERT_CASETYPE_FAILURE) 1.
Proof.
  intros rs ru.
  split; [apply GenericSignedCompare_fst|]. split; [apply GenericUnsignedCompare_fst|].
  split; apply AssertEx_failure_cells.
Qed.

(** X11.  The typed assert macros return what their names say of the
    operands after the cast each macro applies: the INT32 family compares the
    operands as 32 bit two's complement values, the UINT32 family as 32 bit
    unsigned values, BOOL_TRUE and BOOL_FALSE test the expression against
    zero, NULL and NOT_NULL the address, ZERO and NONZERO the value as long. *)
Theorem typed_macros_decide (a r : Z) (File : string) (Line : Z) (at_ rt : string)
    (st : ut_state) :
  (fst (UtAssert_INT32_EQ a r File Line at_ rt st) = (int32 a =? int32 r) /\
   fst (UtAssert_INT32_NEQ a r File Line at_ rt st) = negb (int32 a =? int32 r) /\
   fst (UtAssert_INT32_LT a r File Line at_ rt st) = (int32 a <? int32 r) /\
   fst (UtAssert_INT32_GT a r File Line at_ rt st) = (int32 r <? int32 a) /\
   fst (UtAssert_INT32_LTEQ a r File Line at_ rt st) = (int32 a <=? int32 r) /\
   fst (UtAssert_INT32_GTEQ a r File Line at_ rt st) = (int32 r <=? int32 a)) /\
  (fst (UtAssert_UINT32_EQ a r File Line at_ rt st) = (uint32 a =? uint32 r) /\
   fst (UtAssert_UINT32_NEQ a r File Line at_ rt st) = negb (uint32 a =? uint32 r) /\
   fst (UtAssert_UINT32_LT a r File Line at_ rt st) = (uint32 a <? uint32 r) /\
   fst (UtAssert_UINT32_GT a r File Line at_ rt st) = (uint32 r <? uint32 a) /\
   fst (UtAssert_UINT32_LTEQ a r File Line at_ rt st) = (uint32 a <=? uint32 r) /\
   fst (UtAssert_UINT32_GTEQ a r File Line at_ rt st) = (uint32 r <=? uint32 a)) /\
  (fst (UtAssert_BOOL_TRUE a File Line at_ st) = negb (a =? 0) /\
   fst (UtAssert_BOOL_FALSE a File Line at_ st) = (a =? 0)) /\
  (fst (UtAssert_NULL a File Line at_ st) = (ulong a =? 0) /\
   fst (UtAssert_NOT_NULL a File Line at_ st) = negb (ulong a =? 0)) /\
  (fst (UtAssert_ZERO a File Line at_ st) = (long a =? 0) /\
   fst (UtAssert_NONZERO a File Line at_ st) = negb (long a =? 0)).
Proof.
  unfold UtAssert_INT32_EQ, UtAssert_INT32_NEQ, UtAssert_INT32_LT, UtAssert_INT32_GT,
    UtAssert_INT32_LTEQ, UtAssert_INT32_GTEQ, UtAssert_INT32,
    UtAssert_UINT32_EQ, UtAssert_UINT32_NEQ, UtAssert_UINT32_LT, UtAssert_UINT32_GT,
    UtAssert_UINT32_LTEQ, UtAssert_UINT32_GTEQ, UtAssert_UINT32,
    UtAssert_BOOL_TRUE, UtAssert_BOOL_FALSE, UtAssert_NULL, UtAssert_NOT_NULL,
    UtAssert_ZERO, UtAssert_NONZERO.
  rewrite !GenericSignedCompare_fst, !GenericUnsignedCompare_fst.
  rewrite !long_of_int32, !ulong_of_uint32, !ulong_of_cast_bool.
  change (long 0) with 0. change (ulong 0) with 0. change (ulong 1) with 1.
  assert (Hulong : ulong (ulong a) = ulong a).
  { unfold ulong, to_unsigned. apply Zmod_mod. }
  rewrite Hulong.
  repeat split.
  - unfold cast_bool, kind_holds. destruct (a =? 0); reflexivity.
  - unfold cast_bool, kind_holds. destruct (a =? 0); reflexivity.
Qed.

Section Pseudo.

Lemma AssertEx_cells (e : bool) (ct : Z) (File : string) (Line : Z) (msg : string)
    (st : ut_state) :
  counter_wf (UT_SegmentCounters st) ->
  let idx := resolved_case e ct in
  0 <= idx < UTASSERT_CASETYPE_MAX ->
  let Seg' := CaseCount (UT_SegmentCounters (snd (UtAssertEx e ct File Line msg st))) in
  case_get Seg' idx = uint32 (case_get (CaseCount (UT_SegmentCounters st)) idx + 1) /\
  (forall k, 0 <= k -> k <> idx ->
     case_get Seg' k = case_get (CaseCount (UT_SegmentCounters st)) k).
Proof.
  intros [Hlen _] idx Hidx Seg'.
  assert (Hu : uint32 idx = idx).
  { apply uint32_small. unfold UTASSERT_CASETYPE_MAX in Hidx. lia. }
  assert (HS : Seg' = case_add (CaseCount (UT_SegmentCounters st)) idx 1).
  { unfold Seg'. rewrite AssertEx_segment. cbv zeta. cbn [CaseCount]. fold idx.
    rewrite Hu. destruct (Z.ltb_spec idx UTASSERT_CASETYPE_MAX); [reflexivity | lia]. }
  rewrite HS. split.
  - apply case_add_get_eq. rewrite Hlen. unfold UTASSERT_CASETYPE_MAX in *. lia.
  - intros k Hk Hne. apply case_add_get_ne. lia.
Qed.

End Pseudo.

(** X12.  UtAssert_NA, UtAssert_MIR and UtAssert_WARN always return false and
    count the case under their own classification, leaving the pass and the
    failure count of the segment as they were; UtAssert_VOIDCALL always
    returns true and counts a pass, whatever the default context is. *)
Theorem pseudo_assertions_classified (st : ut_state) (File : string) (Line : Z)
    (Message : string) :
  counter_wf (UT_SegmentCounters st) ->
  let cell := fun (r : bool * ut_state) k => case_get (CaseCount (UT_SegmentCounters (snd r))) k in
  let old := fun k => case_get (CaseCount (UT_SegmentCounters st)) k in
  (let r := UtAssert_NA File Line Message st in
   fst r = false /\ cell r UTASSERT_CASETYPE_NA = uint32 (old UTASSERT_CASETYPE_NA + 1) /\
   cell r UTASSERT_CASETYPE_PASS = old UTASSERT_CASETYPE_PASS /\
   cell r UTASSERT_CASETYPE_FAILURE = old UTASSERT_CASETYPE_FAILURE) /\
  (let r := UtAssert_MIR File Line Message st in
   fst r = false /\ cell r UTASSERT_CASETYPE_MIR = uint32 (old UTASSERT_CASETYPE_MIR + 1) /\
   cell r UTASSERT_CASETYPE_PASS = old UTASSERT_CASETYPE_PASS /\
   cell r UTASSERT_CASETYPE_FAILURE = old UTASSERT_CASETYPE_FAILURE) /\
  (let r := UtAssert_WARN File Line Message st in
   fst r = false /\ cell r UTASSERT_CASETYPE_WARN = uint32 (old UTASSERT_CASETYPE_WARN + 1) /\
   cell r UTASSERT_CASETYPE_PASS = old UTASSERT_CASETYPE_PASS /\
   cell r UTASSERT_CASETYPE_FAILURE = old UTASSERT_CASETYPE_FAILURE) /\
  (let r := UtAssert_VOIDCALL Message File Line st in
   fst r = true /\ cell r UTASSERT_CASETYPE_PASS = uint32 (old UTASSERT_CASETYPE_PASS + 1) /\
   cell r UTASSERT_CASETYPE_FAILURE = old UTASSERT_CASETYPE_FAILURE).
Proof.
  intros Hwf cell old.
  assert (Hin : forall k, 0 <= k < 14 -> 0 <= k < UTASSERT_CASETYPE_MAX)
    by (unfold UTASSERT_CASETYPE_MAX; lia).
  pose proof (AssertEx_cells false UTASSERT_CASETYPE_NA File Line Message st Hwf
                (Hin 7 ltac:(lia))) as [Hna Hna'].
  pose proof (AssertEx_cells false UTASSERT_CASETYPE_MIR File Line Message st Hwf
                (Hin 5 ltac:(lia))) as [Hmir Hmir'].
  pose proof (AssertEx_cells false UTASSERT_CASETYPE_WARN File Line Message st Hwf
                (Hin 6 ltac:(lia))) as [Hwarn Hwarn'].
  pose proof (AssertEx_cells true (UtAssert_GetContext st) File Line Message st Hwf
                (Hin 11 ltac:(lia))) as [Hvoid Hvoid'].
  cbv zeta in *. unfold cell, old.
  repeat split; try assumption;
    first [ apply Hna' | apply Hmir' | apply Hwarn' | apply Hvoid' ];
    unfold resolved_case, UTASSERT_CASETYPE_PASS, UTASSERT_CASETYPE_FAILURE,
      UTASSERT_CASETYPE_NA, UTASSERT_CASETYPE_MIR, UTASSERT_CASETYPE_WARN; lia.
Qed.

Lemma pseudo_assertions_classified_witness :
  counter_wf (UT_SegmentCounters ut_initial) /\
  fst (UtAssert_NA "t.c" 4 "not on this target" ut_initial) = false.
Proof.
  assert (Hwf : counter_wf (UT_SegmentCounters ut_initial)) by zero_counter_shape.
  split; [exact Hwf|].
  destruct (pseudo_assertions_classified ut_initial "t.c" 4 "not on this target" Hwf)
    as ((H & _) & _).
  exact H.
Defined.

(** * Buffers of the generic integer compare *)

Section TagBuffer.

Lemma tag_trim_stop (s : string) (n : nat) : forall k,
  (n <= String.length s)%nat -> tag_trim s n = S k ->
  exists c, String.get k s = Some c /\ is_tag_trailer c = false.
Proof.
  induction n as [|n IH]; intros k Hn H; [discriminate|].
  simpl in H. destruct (get_in_range s n ltac:(lia)) as [c Hc]. rewrite Hc in H.
  destruct (is_tag_trailer c) eqn:Ec.
  - apply IH; [lia | exact H].
  - injection H as <-. exists c. split; assumption.
Qed.

Lemma int_le_self (x : Z) : 0 <= x -> int x <= x.
Proof.
  intros Hx. unfold int, to_signed. change (32 - 1) with 31.
  pose proof (Z.mod_le (x + 2 ^ 31) (2 ^ 32) ltac:(lia) ltac:(lia)). lia.
Qed.

Lemma int_range (x : Z) : - 2 ^ 31 <= int x < 2 ^ 31.
Proof.
  unfold int, to_signed. change (32 - 1) with 31.
  pose proof (Z.mod_pos_bound (x + 2 ^ 31) (2 ^ 32) ltac:(lia)). lia.
Qed.

Lemma substring_split (n : nat) (s : string) :
  s = (substring 0 n s ++ substring n (String.length s - n) s)%string.
Proof.
  revert n. induction s as [|c s IH]; intros n.
  - destruct n; reflexivity.
  - destruct n as [|n].
    + rewrite substring_0_0. cbn [append]. rewrite Nat.sub_0_r, substring_all. reflexivity.
    + cbn [substring String.length append Nat.sub]. rewrite <- IH. reflexivity.
Qed.

End TagBuffer.

(** X13.  Whatever the type tag, the prefix built in TagStr[32] takes at
    most 31 characters, so the colon, the blank and the terminator are always
    written inside the buffer.  The prefix is either empty or the first
    characters of the tag, one to 29 of them, followed by ": ", and the
    character in front of the colon is never white space or a colon.  For a
    tag of fewer than 2^31 characters, the range of the int length, the
    characters kept are exactly the first 29 of the tag without their
    trailing white space and colons, and the prefix is empty when none is
    left. *)
Theorem GenericIntegerCompare_tag_fits (Typename : option string) :
  let tag := GenericIntegerCompare_tag Typename in
  (String.length tag <= 31)%nat /\
  (tag = ""%string \/
   exists t rest c,
     Typename = Some (t ++ rest)%string /\ tag = (t ++ ": ")%string /\
     (1 <= String.length t <= 29)%nat /\
     String.get (String.length t - 1) t = Some c /\ is_tag_trailer c = false) /\
  (typename_length Typename < 2 ^ 31 ->
   tag = match spec_rtrim (kept_tag Typename) with
         | EmptyString => EmptyString
         | t => (t ++ ": ")%string
         end).
Proof.
  cbv zeta. split; [|split; [|apply tag_matches_spec]];
    (destruct Typename as [[|c0 t0]|]; try (simpl; lia); try (left; reflexivity)).
  all: unfold GenericIntegerCompare_tag.
  all: set (name := String c0 t0).
  all: set (TagStr := snprintf 32 name).
  all: set (len := Z.of_nat (String.length name)).
  all: set (L := if int len <? 0 then 0
                 else if size_t (int len) >? 32 - 3 then 32 - 3 else int len).
  all: assert (Hlen0 : 0 <= len) by (unfold len; lia).
  all: assert (HL : 0 <= L <= 29 /\ L <= len)
    by (unfold L; pose proof (int_range len); pose proof (int_le_self len Hlen0);
        destruct (Z.ltb_spec (int len) 0); [lia|];
        assert (Hs : size_t (int len) = int len)
          by (unfold size_t, to_unsigned; apply Z.mod_small; lia);
        rewrite Hs; destruct (Z.gtb_spec (int len) (32 - 3)); lia).
  all: assert (HTag : String.length TagStr = Nat.min 31 (String.length name))
    by (unfold TagStr, snprintf; apply substring_length).
  all: assert (HLs : (Z.to_nat L <= String.length TagStr)%nat)
    by (rewrite HTag; unfold len in HL; lia).
  all: pose proof (tag_trim_le TagStr (Z.to_nat L)) as Hle.
  all: destruct (tag_trim TagStr (Z.to_nat L)) as [|k] eqn:Etrim;
    [try (simpl; lia); try (left; reflexivity)|].
  all: change (Nat.ltb 0 (S k)) with true; cbv iota.
  all: destruct (tag_trim_stop TagStr (Z.to_nat L) k HLs Etrim) as (c & Hc & Hnt).
  all: assert (Hsub : String.length (substring 0 (S k) TagStr) = S k)
    by (rewrite substring_length; lia).
  - rewrite string_app_length, Hsub. simpl. lia.
  - right. exists (substring 0 (S k) TagStr),
      (substring (S k) (String.length name - S k) name), c.
    split.
    { f_equal. unfold TagStr, snprintf. rewrite substring_substring by lia.
      apply substring_split. }
    split; [reflexivity|]. rewrite Hsub. split; [lia|].
    replace (S k - 1)%nat with k by lia.
    rewrite substring_get by lia. split; assumption.
Qed.

Lemma GenericIntegerCompare_tag_fits_witness :
  typename_length (Some "uint32 :"%string) < 2 ^ 31 /\
  GenericIntegerCompare_tag (Some "uint32 :"%string) = "uint32: "%string.
Proof.
  assert (H : typename_length (Some "uint32 :"%string) < 2 ^ 31) by (vm_compute; reflexivity).
  split; [exact H|].
  destruct (GenericIntegerCompare_tag_fits (Some "uint32 :"%string)) as (_ & _ & Hspec).
  exact (Hspec H).
Defined.

(** X14.  No value text is cut by the 32 byte buffers of the generic integer
    compare: for every value, signedness and radix the text takes at most 23
    characters and is the same for every buffer of at least 24 bytes. *)
Theorem GetValueText_fits (v : Z) (u : bool) (RadixType : Z) :
  exists text,
    (String.length text <= 23)%nat /\
    forall TempSz, (24 <= TempSz)%nat ->
      UtAssert_GetValueText TempSz v u RadixType = text.
Proof.
  pose proof (ulong_range v) as Hu. pose proof (long_range v) as Hl.
  assert (H8 : (String.length (fmt_unsigned 8 (ulong v)) <= 22)%nat).
  { apply (fmt_unsigned_length 8 ltac:(lia) (ulong v) 21).
    assert (2 ^ 64 < 8 ^ Z.of_nat 22) by (vm_compute; reflexivity). lia. }
  assert (H16 : (String.length (fmt_unsigned 16 (ulong v)) <= 16)%nat).
  { apply (fmt_unsigned_length 16 ltac:(lia) (ulong v) 15).
    assert (2 ^ 64 <= 16 ^ Z.of_nat 16) by (vm_compute; discriminate). lia. }
  assert (H10 : (String.length (fmt_unsigned 10 (ulong v)) <= 20)%nat).
  { apply (fmt_unsigned_length 10 ltac:(lia) (ulong v) 19).
    assert (2 ^ 64 < 10 ^ Z.of_nat 20) by (vm_compute; reflexivity). lia. }
  pose proof (fmt_signed_length (long v) Hl) as Hs.
  unfold UtAssert_GetValueText.
  destruct (RadixType =? UtAssert_Radix_BOOLEAN).
  { destruct (negb (v =? 0)).
    - exists "true"%string. split; [simpl; lia|]. intros sz Hsz.
      apply snprintf_fits. simpl. lia.
    - exists "false"%string. split; [simpl; lia|]. intros sz Hsz.
      apply snprintf_fits. simpl. lia. }
  destruct (RadixType =? UtAssert_Radix_OCTAL).
  { exists ("0" ++ fmt_unsigned 8 (ulong v))%string.
    split; [cbn [String.length append]; lia|]. intros sz Hsz.
    apply snprintf_fits. cbn [String.length append]. lia. }
  destruct (RadixType =? UtAssert_Radix_HEX).
  { exists ("0x" ++ fmt_unsigned 16 (ulong v))%string.
    split; [cbn [String.length append]; lia|]. intros sz Hsz.
    apply snprintf_fits. cbn [String.length append]. lia. }
  destruct u.
  - exists (fmt_unsigned 10 (ulong v)). split; [lia|]. intros sz Hsz.
    apply snprintf_fits. lia.
  - exists (fmt_signed (long v)). split; [lia|]. intros sz Hsz.
    apply snprintf_fits. lia.
Qed.

(** * Further properties of the string buffer compare *)

Section Terminated.

Lemma strlen_terminated (s : list ascii) :
  no_nul s -> strlen (s ++ [NUL]) = Some (Z.of_nat (length s)).
Proof.
  induction 1 as [|c s Hc _ IH]; [reflexivity|].
  cbn [app strlen length]. destruct (Ascii.eqb_spec c NUL); [contradiction|].
  rewrite IH. cbn [option_map]. rewrite Nat2Z.inj_succ. reflexivity.
Qed.

Lemma spec_effective_terminated (s : list ascii) :
  no_nul s -> spec_effective (s ++ [NUL]) None = s.
Proof.
  induction 1 as [|c s Hc _ IH]; [reflexivity|].
  cbn [app spec_effective option_map]. destruct (Ascii.eqb_spec c NUL); [contradiction|].
  rewrite IH. reflexivity.
Qed.

Lemma StringBuf_len_succ (e : option Z) (n : Z) :
  StringBuf_len (option_map Z.succ e) n = Z.succ (StringBuf_len e (n - 1)).
Proof. destruct e; simpl; lia. Qed.

(** A search that stays inside the object gives the offset of the first
    occurrence, or a null result when the first [n] bytes hold none. *)
Lemma memchr_obj_first (c : ascii) (s : list ascii) : forall (n : Z) (e : option Z),
  0 <= n -> memchr_obj s c n = Some e ->
  let m := StringBuf_len e n in
  0 <= m <= n /\ m <= Z.of_nat (length s) /\
  Forall (fun x => x <> c) (take (Z.to_nat m) s) /\
  (m = n \/ s !! Z.to_nat m = Some c).
Proof.
  induction s as [|d s IH]; intros n e Hn H; cbv zeta.
  - simpl in H. destruct (Z.leb_spec n 0); [|discriminate]. injection H as <-.
    assert (n = 0) by lia. subst n. simpl.
    split; [lia|]. split; [lia|]. split; [constructor | left; reflexivity].
  - destruct (Z.leb_spec n 0) as [Hz|Hpos].
    + rewrite memchr_obj_zero in H by exact Hz. injection H as <-.
      assert (n = 0) by lia. subst n. simpl.
      split; [lia|]. split; [lia|]. split; [constructor | left; reflexivity].
    + simpl in H. destruct (Z.leb_spec n 0); [lia|].
      destruct (Ascii.eqb_spec d c) as [->|Hne].
      * injection H as <-. simpl.
        split; [lia|]. split; [lia|]. split; [constructor | right; reflexivity].
      * destruct (memchr_obj s c (n - 1)) as [e'|] eqn:E; [|discriminate].
        injection H as <-. rewrite StringBuf_len_succ.
        destruct (IH (n - 1) e' ltac:(lia) E) as (Hm & Hl & Hall & Hat).
        rewrite Z2Nat.inj_succ by lia. cbn [take length].
        split; [lia|]. split; [lia|]. split; [constructor; assumption|].
        destruct Hat as [Hat|Hat]; [left; lia | right; exact Hat].
Qed.

Lemma memchr_obj_within (c : ascii) (s : list ascii) : forall n : Z,
  n <= Z.of_nat (length s) -> exists e, memchr_obj s c n = Some e.
Proof.
  induction s as [|d s IH]; intros n Hn.
  - exists None. apply memchr_obj_zero. simpl in Hn. lia.
  - destruct (Z.leb_spec n 0) as [Hz|Hpos].
    + exists None. apply memchr_obj_zero. exact Hz.
    + simpl. destruct (Z.leb_spec n 0); [lia|].
      destruct (Ascii.eqb d c); [eexists; reflexivity|].
      destruct (IH (n - 1)) as [e He]; [simpl length in Hn; lia|].
      rewrite He. eexists. reflexivity.
Qed.




Lemma StringBuf_scrub_defined (s : list ascii) (n : Z) :
  n <= Z.of_nat (length s) -> n < 256 -> exists t, StringBuf_scrub (Some s) n = Some t.
Proof.
  intros Hn H256. unfold StringBuf_scrub. destruct (Z.ltb_spec 0 n); [|eauto].
  cbn [memchr]. destruct (memchr_obj_within newline s n Hn) as [e He].
  rewrite He. cbn [mbind option_bind].
  destruct (memchr_obj_first newline s n e ltac:(lia) He) as (Hm & Hl & _).
  destruct (Z.leb_spec (StringBuf_len e n) (Z.of_nat (length s))); [|lia].
  destruct (Z.ltb_spec (StringBuf_len e n) 256); [|lia].
  eexists. reflexivity.
Qed.

Lemma StringBuf_order_defined (s1 s2 : list ascii) (n1 n2 : Z) :
  n1 <= Z.of_nat (length s1) -> n2 <= Z.of_nat (length s2) ->
  exists c, StringBuf_order (Some s1) (Some s2) n1 n2 = Some c.
Proof.
  intros H1 H2. unfold StringBuf_order.
  destruct ((n1 =? 0) && (n2 =? 0))%bool; [eauto|].
  assert (Hmem : forall m, m <= n1 -> m <= n2 ->
                 exists c, memcmp (Some s1) (Some s2) m = Some c).
  { intros m Hm1 Hm2. unfold memcmp. destruct (m =? 0); [eauto|].
    destruct (Z.leb_spec m (Z.of_nat (length s1))); [|lia].
    destruct (Z.leb_spec m (Z.of_nat (length s2))); [|lia]. eauto. }
  destruct (Z.ltb_spec n1 n2).
  - destruct (Hmem n1 ltac:(lia) ltac:(lia)) as [c ->]. eexists. reflexivity.
  - destruct (Hmem n2 ltac:(lia) ltac:(lia)) as [c ->]. eexists. reflexivity.
Qed.

Lemma byte_value_inj (x y : ascii) : byte_value x = byte_value y -> x = y.
Proof.
  unfold byte_value. intros H. apply Nat2Z.inj in H.
  rewrite <- (ascii_nat_embedding x), <- (ascii_nat_embedding y), H. reflexivity.
Qed.

Lemma spec_order_eq (a : list ascii) : forall b, spec_order a b = Eq <-> a = b.
Proof.
  induction a as [|x a IH]; intros [|y b]; simpl; try (split; (reflexivity || discriminate)).
  destruct (Z.compare_spec (byte_value x) (byte_value y)) as [H|H|H].
  - apply byte_value_inj in H. subst y. rewrite IH.
    split; [intros ->; reflexivity | intros E; injection E; trivial].
  - split; [discriminate|]. intros E. injection E as -> _. lia.
  - split; [discriminate|]. intros E. injection E as -> _. lia.
Qed.

End Terminated.

(** X15.  On every call of UtAssert_StringBufCompare with two non-null
    buffers that is defined and whose comparison lengths differ by less than
    2^31, the result is what the comparison kind says of the order of the
    compared bytes: byte for byte up to the shorter length, the longer one
    greater on a tie.  The compared bytes of a buffer end at its first null
    byte or at its max-length; newlines play no part. *)
Theorem StringBufCompare_result_when_defined (s1 s2 : list ascii) (String1Max String2Max
    CompareType : Z) (File : string) (Line : Z) (st : ut_state) (r : bool * ut_state) :
  0 <= String1Max -> 0 <= String2Max ->
  UtAssert_StringBufCompare (Some s1) String1Max (Some s2) String2Max CompareType File
    Line st = Some r ->
  let e1 := spec_effective s1 (spec_bound String1Max) in
  let e2 := spec_effective s2 (spec_bound String2Max) in
  - 2 ^ 31 <= Z.of_nat (length e1) - Z.of_nat (length e2) < 2 ^ 31 ->
  fst r = spec_kind_holds CompareType (spec_order e1 e2) /\
  (CompareType = UtAssert_Compare_EQ -> (fst r = true <-> e1 = e2)).
Proof.
  intros Hm1 Hm2 Hr e1 e2 Hsmall.
  pose proof (StringBufCompare_defined_result s1 s2 String1Max String2Max CompareType
                File Line st r Hm1 Hm2 Hr Hsmall) as H.
  fold e1 e2 in H. split; [exact H|].
  intros ->. rewrite H, <- spec_order_eq. unfold spec_kind_holds.
  change (UtAssert_Compare_EQ =? UtAssert_Compare_EQ) with true. cbv iota.
  destruct (spec_order e1 e2); split; (reflexivity || discriminate).
Qed.

Lemma StringBufCompare_result_when_defined_witness :
  exists r,
    (0 <= 2 /\ 0 <= 3 /\
     UtAssert_StringBufCompare (c_str "ab") 2 (c_str "abc") 3 UtAssert_Compare_EQ "t.c" 1
       ut_initial = Some r /\
     - 2 ^ 31 <= 2 - 3 < 2 ^ 31) /\
    fst r = false.
Proof.
  eexists. split.
  - split; [lia|]. split; [lia|]. split; [vm_compute; reflexivity | lia].
  - apply (StringBufCompare_result_when_defined
             (list_ascii_of_string "ab" ++ [NUL]) (list_ascii_of_string "abc" ++ [NUL])
             2 3 UtAssert_Compare_EQ "t.c" 1 ut_initial);
      [lia | lia | vm_compute; reflexivity | vm_compute; split; [discriminate | reflexivity]].
Defined.

(** X16.  For two terminated strings of fewer than 256 characters each,
    passed as null-terminated, UtAssert_StringBufCompare is defined and
    returns what the comparison kind says of their order, byte for byte with
    the longer string greater on a tie; so UtAssert_STRINGBUF_EQ passes
    exactly when the two strings are equal. *)
Theorem StringBufCompare_terminated (s1 s2 : list ascii) (CompareType : Z)
    (File : string) (Line : Z) (st : ut_state) :
  no_nul s1 -> no_nul s2 ->
  (length s1 < 256)%nat -> (length s2 < 256)%nat ->
  (exists st',
     UtAssert_StringBufCompare (Some (s1 ++ [NUL])%list) UTASSERT_STRINGBUF_NULL_TERM
       (Some (s2 ++ [NUL])%list) UTASSERT_STRINGBUF_NULL_TERM CompareType File Line st =
     Some (spec_kind_holds CompareType (spec_order s1 s2), st')) /\
  (exists b st',
     UtAssert_STRINGBUF_EQ (Some (s1 ++ [NUL])%list) UTASSERT_STRINGBUF_NULL_TERM
       (Some (s2 ++ [NUL])%list) UTASSERT_STRINGBUF_NULL_TERM File Line st =
     Some (b, st') /\ (b = true <-> s1 = s2)).
Proof.
  intros Hn1 Hn2 Hl1 Hl2.
  assert (Hdef : forall k, exists r,
            UtAssert_StringBufCompare (Some (s1 ++ [NUL])%list) UTASSERT_STRINGBUF_NULL_TERM
              (Some (s2 ++ [NUL])%list) UTASSERT_STRINGBUF_NULL_TERM k File Line st = Some r).
  { intros k. unfold UtAssert_StringBufCompare, StringBuf_end.
    rewrite Z.eqb_refl, (strlen_terminated s1 Hn1), (strlen_terminated s2 Hn2).
    cbn [option_map mbind option_bind StringBuf_len].
    destruct (StringBuf_order_defined (s1 ++ [NUL])%list (s2 ++ [NUL])%list
                (Z.of_nat (length s1)) (Z.of_nat (length s2))) as [c Hc];
      [rewrite length_app; lia | rewrite length_app; lia |].
    rewrite Hc. cbn [mbind option_bind].
    destruct (StringBuf_scrub_defined (s1 ++ [NUL])%list (Z.of_nat (length s1))) as [t1 Ht1];
      [rewrite length_app; lia | lia |].
    destruct (StringBuf_scrub_defined (s2 ++ [NUL])%list (Z.of_nat (length s2))) as [t2 Ht2];
      [rewrite length_app; lia | lia |].
    rewrite Ht1, Ht2. cbn [mbind option_bind]. eexists. reflexivity. }
  assert (Hmax : 0 <= UTASSERT_STRINGBUF_NULL_TERM) by (vm_compute; discriminate).
  assert (Hres : forall k r,
            UtAssert_StringBufCompare (Some (s1 ++ [NUL])%list) UTASSERT_STRINGBUF_NULL_TERM
              (Some (s2 ++ [NUL])%list) UTASSERT_STRINGBUF_NULL_TERM k File Line st = Some r ->
            fst r = spec_kind_holds k (spec_order s1 s2)).
  { intros k r Hr.
    pose proof (StringBufCompare_defined_result _ _ _ _ _ _ _ _ _ Hmax Hmax Hr) as H.
    cbv zeta in H. unfold spec_bound in H. rewrite Z.eqb_refl in H.
    rewrite (spec_effective_terminated s1 Hn1), (spec_effective_terminated s2 Hn2) in H.
    apply H. lia. }
  split.
  - destruct (Hdef CompareType) as [[b st'] Hr]. exists st'.
    rewrite Hr. pose proof (Hres _ _ Hr) as Hb. cbn [fst] in Hb. rewrite Hb. reflexivity.
  - unfold UtAssert_STRINGBUF_EQ.
    destruct (Hdef UtAssert_Compare_EQ) as [[b st'] Hr]. exists b, st'.
    split; [exact Hr|]. pose proof (Hres _ _ Hr) as Hb. cbn [fst] in Hb. rewrite Hb.
    rewrite <- spec_order_eq. unfold spec_kind_holds.
    change (UtAssert_Compare_EQ =? UtAssert_Compare_EQ) with true. cbv iota.
    destruct (spec_order s1 s2); split; (reflexivity || discriminate).
Qed.

Lemma StringBufCompare_terminated_witness :
  (no_nul ["a"; "b"]%char /\ no_nul ["a"; "b"; "c"]%char /\
   (length ["a"; "b"]%char < 256)%nat /\ (length ["a"; "b"; "c"]%char < 256)%nat) /\
  exists st',
    UtAssert_StringBufCompare (Some (["a"; "b"]%char ++ [NUL])%list)
      UTASSERT_STRINGBUF_NULL_TERM (Some (["a"; "b"; "c"]%char ++ [NUL])%list)
      UTASSERT_STRINGBUF_NULL_TERM UtAssert_Compare_LT "t.c" 1 ut_initial =
    Some (true, st').
Proof.
  assert (H1 : no_nul ["a"; "b"]%char) by (repeat constructor; discriminate).
  assert (H2 : no_nul ["a"; "b"; "c"]%char) by (repeat constructor; discriminate).
  assert (H3 : (length ["a"; "b"]%char < 256)%nat) by (cbn; lia).
  assert (H4 : (length ["a"; "b"; "c"]%char < 256)%nat) by (cbn; lia).
  split; [repeat split; assumption|].
  destruct (StringBufCompare_terminated ["a"; "b"]%char ["a"; "b"; "c"]%char
              UtAssert_Compare_LT "t.c" 1 ut_initial H1 H2 H3 H4) as ((st' & H) & _).
  exists st'. exact H.
Defined.

Section Display.






End Display.



(** * Default context and cases outside the array *)

(** X18.  UtAssert_SetContext changes the default context and nothing else,
    and the plain asserts follow it: after UtAssert_SetContext with a case
    type of the array, a failing UtAssert or UtAssert_Failed returns false and
    is counted under that case type and under no other, while a passing
    UtAssert is still counted under pass. *)
Theorem context_directs_failures (st : ut_state) (Context : Z) (Text File : string)
    (Line : Z) :
  counter_wf (UT_SegmentCounters st) ->
  0 <= Context < UTASSERT_CASETYPE_MAX ->
  let st1 := UtAssert_SetContext Context st in
  let cell := fun (r : bool * ut_state) k => case_get (CaseCount (UT_SegmentCounters (snd r))) k in
  let old := fun k => case_get (CaseCount (UT_SegmentCounters st)) k in
  (UtAssert_GetContext st1 = Context /\
   UT_SegmentCounters st1 = UT_SegmentCounters st /\
   UT_TotalCounters st1 = UT_TotalCounters st /\
   CurrentSegment st1 = CurrentSegment st /\ bsp_log st1 = bsp_log st) /\
  (let r := UtAssert false Text File Line st1 in
   fst r = false /\ cell r Context = uint32 (old Context + 1) /\
   forall k, 0 <= k -> k <> Context -> cell r k = old k) /\
  (let r := UtAssert_Failed File Line Text st1 in
   fst r = false /\ cell r Context = uint32 (old Context + 1) /\
   forall k, 0 <= k -> k <> Context -> cell r k = old k) /\
  (let r := UtAssert true Text File Line st1 in
   fst r = true /\
   cell r UTASSERT_CASETYPE_PASS = uint32 (old UTASSERT_CASETYPE_PASS + 1) /\
   forall k, 0 <= k -> k <> UTASSERT_CASETYPE_PASS -> cell r k = old k).
Proof.
  intros Hwf Hc st1 cell old.
  assert (Hwf1 : counter_wf (UT_SegmentCounters st1)) by exact Hwf.
  pose proof (AssertEx_cells false Context File Line Text st1 Hwf1 Hc) as [Hf Hf'].
  assert (Hp : 0 <= resolved_case true Context < UTASSERT_CASETYPE_MAX)
    by (unfold resolved_case, UTASSERT_CASETYPE_PASS, UTASSERT_CASETYPE_MAX; lia).
  pose proof (AssertEx_cells true Context File Line Text st1 Hwf1 Hp) as [Ht Ht'].
  split; [repeat split|].
  split; [split; [reflexivity | split; [exact Hf | exact Hf']]|].
  split; [split; [reflexivity | split; [exact Hf | exact Hf']]|].
  split; [reflexivity | split; [exact Ht | exact Ht']].
Qed.

Lemma context_directs_failures_witness :
  (counter_wf (UT_SegmentCounters ut_initial) /\
   0 <= UTASSERT_CASETYPE_TSF < UTASSERT_CASETYPE_MAX) /\
  fst (UtAssert false "setup" "t.c" 2
         (UtAssert_SetContext UTASSERT_CASETYPE_TSF ut_initial)) = false.
Proof.
  assert (Hwf : counter_wf (UT_SegmentCounters ut_initial)) by zero_counter_shape.
  assert (Hc : 0 <= UTASSERT_CASETYPE_TSF < UTASSERT_CASETYPE_MAX)
    by (unfold UTASSERT_CASETYPE_TSF, UTASSERT_CASETYPE_MAX; lia).
  split; [split; assumption|].
  destruct (context_directs_failures ut_initial UTASSERT_CASETYPE_TSF "setup" "t.c" 2
              Hwf Hc) as (_ & (H & _) & _).
  exact H.
Defined.

Section Uncounted.

Lemma record_all_sum (cs : list ut_case) : forall st : ut_state,
  counter_wf (UT_SegmentCounters st) ->
  counter_wf (UT_SegmentCounters (record_all cs st)) /\
  uint32 (sum_cases (CaseCount (UT_SegmentCounters (record_all cs st))) + uncounted cs) =
  uint32 (sum_cases (CaseCount (UT_SegmentCounters st)) + Z.of_nat (length cs)) /\
  sum_cases (CaseCount (UT_SegmentCounters (record_all cs st))) + uncounted cs <=
  sum_cases (CaseCount (UT_SegmentCounters st)) + Z.of_nat (length cs).
Proof.
  induction cs as [|c cs IH]; intros st Hwf.
  - split; [exact Hwf|]. split; [reflexivity|]. unfold uncounted. simpl. lia.
  - change (record_all (c :: cs) st) with (record_all cs (record_case st c)).
    set (idx := uint32 (resolved_case (case_expr c) (case_type c))).
    assert (Hseg : CaseCount (UT_SegmentCounters (record_case st c)) =
                   if idx <? UTASSERT_CASETYPE_MAX
                   then case_add (CaseCount (UT_SegmentCounters st)) idx 1
                   else CaseCount (UT_SegmentCounters st)) by reflexivity.
    destruct Hwf as [Hlen Hok].
    assert (Hidx : 0 <= idx) by apply uint32_range.
    assert (Hwf' : counter_wf (UT_SegmentCounters (record_case st c))).
    { unfold counter_wf. rewrite Hseg. destruct (idx <? UTASSERT_CASETYPE_MAX).
      - split; [rewrite case_add_length; exact Hlen | apply case_add_ok; exact Hok].
      - split; assumption. }
    destruct (IH (record_case st c) Hwf') as (IHwf & IHsum & IHle).
    split; [exact IHwf|].
    set (S' := sum_cases (CaseCount (UT_SegmentCounters (record_all cs (record_case st c)))))
      in *.
    assert (Hunc : uncounted (c :: cs) =
                   (if decide (UTASSERT_CASETYPE_MAX <= idx) then 1 else 0) + uncounted cs).
    { unfold uncounted. rewrite filter_cons. fold idx.
      destruct (decide (UTASSERT_CASETYPE_MAX <= idx)); simpl length; lia. }
    rewrite Hunc. rewrite Hseg in IHsum, IHle.
    replace (Z.of_nat (length (c :: cs))) with (1 + Z.of_nat (length cs))
      by (simpl length; lia).
    destruct (Z.ltb_spec idx UTASSERT_CASETYPE_MAX) as [Hin|Hout].
    + destruct (decide (UTASSERT_CASETYPE_MAX <= idx)) as [Hge|_]; [lia|].
      rewrite Z.add_0_l.
      assert (Hadd : sum_cases (case_add (CaseCount (UT_SegmentCounters st)) idx 1) =
                     sum_cases (CaseCount (UT_SegmentCounters st)) -
                     case_get (CaseCount (UT_SegmentCounters st)) idx +
                     uint32 (case_get (CaseCount (UT_SegmentCounters st)) idx + 1)).
      { apply case_add_sum; [lia|]. rewrite Hlen. unfold UTASSERT_CASETYPE_MAX in *. lia. }
      pose proof (case_get_ok _ idx Hok) as Hg. unfold cell_ok in Hg.
      pose proof (uint32_le (case_get (CaseCount (UT_SegmentCounters st)) idx + 1)
                    ltac:(lia)) as Hle1.
      split.
      * rewrite IHsum, Hadd.
        rewrite <- Z.add_assoc, (Z.add_comm (uint32 _)), Z.add_assoc, uint32_add_r.
        f_equal. lia.
      * rewrite Hadd in IHle. lia.
    + destruct (decide (UTASSERT_CASETYPE_MAX <= idx)) as [_|Hlt]; [|lia].
      split; [|lia].
      replace (S' + (1 + uncounted cs)) with (1 + (S' + uncounted cs)) by lia.
      rewrite <- uint32_add_r, IHsum, uint32_add_r. f_equal. lia.
Qed.

End Uncounted.

(** X19.  In every segment the total-case count exceeds the sum of the
    per-classification counts by the number of cases recorded with a
    classification outside the array (a false Expression and a CaseType whose
    uint32 value is UTASSERT_CASETYPE_MAX or more): as uint32 values always,
    and as plain integers while fewer than 2^32 cases were recorded.  The
    total itself is the number of cases recorded since UtAssert_BeginTest. *)
Theorem segment_total_and_uncounted (st : ut_state) (SegmentName : string)
    (cs : list ut_case) :
  let Seg := UT_SegmentCounters (record_all cs (UtAssert_BeginTest SegmentName st)) in
  TotalTestCases Seg = uint32 (Z.of_nat (length cs)) /\
  TotalTestCases Seg = uint32 (sum_cases (CaseCount Seg) + uncounted cs) /\
  (Z.of_nat (length cs) < 2 ^ 32 ->
   TotalTestCases Seg = sum_cases (CaseCount Seg) + uncounted cs).
Proof.
  intros Seg.
  destruct (record_all_frame cs (UtAssert_BeginTest SegmentName st)
              (BeginTest_segment_total_ok SegmentName st)) as (_ & _ & _ & _ & HN & _).
  destruct (record_all_sum cs (UtAssert_BeginTest SegmentName st) counter_zero_wf)
    as ([_ Hok] & Hsum & Hle).
  fold Seg in HN, Hok, Hsum, Hle.
  change (sum_cases (CaseCount (UT_SegmentCounters (UtAssert_BeginTest SegmentName st))))
    with 0 in Hsum, Hle.
  change (TotalTestCases (UT_SegmentCounters (UtAssert_BeginTest SegmentName st)))
    with 0 in HN.
  rewrite Z.add_0_l in HN, Hsum, Hle.
  split; [exact HN|]. split; [rewrite Hsum; exact HN|].
  intros Hlt. rewrite HN, <- Hsum. apply uint32_small.
  pose proof (sum_cases_nonneg _ Hok). unfold uncounted in *. lia.
Qed.

Lemma segment_total_and_uncounted_witness :
  Z.of_nat (length sample_cases) < 2 ^ 32 /\
  TotalTestCases (UT_SegmentCounters (record_all sample_cases
                                        (UtAssert_BeginTest "A" ut_initial))) =
  sum_cases (CaseCount (UT_SegmentCounters (record_all sample_cases
                                              (UtAssert_BeginTest "A" ut_initial)))) +
  uncounted sample_cases.
Proof.
  assert (H : Z.of_nat (length sample_cases) < 2 ^ 32) by (cbn; lia).
  split; [exact H|].
  destruct (segment_total_and_uncounted ut_initial "A" sample_cases) as (_ & _ & Hx).
  exact (Hx H).
Defined.
